(** * OnkoDICOM: src/Model/CalculateDVHs.py

    A shallow embedding of the dose-volume-histogram pipeline
    ([get_roi_info], [multi_get_dvhs], [calc_dvhs],
    [converge_to_zero_dvh], [dvh2csv]) and the properties its
    specification states about it.

    Modelling conventions.
    - A Python [dict] keeps its keys in insertion order and never holds a
      key twice: it is an association list ([pydict]) whose [dict_set]
      overwrites in place or appends.
    - The arrays the normalizer handles ([bincenters], [counts]) are only
      indexed, compared with zero and shifted by 0, 1 and 2: their
      [float64] elements are the exact rationals ([Q]) they denote.
    - The values the exporter rounds ([volume], [relative_volume.counts])
      are [float64] themselves, the binary64 floats of the kernel, since
      numpy's rounding is float arithmetic; pandas' missing value is the
      float [nan].
    - The file system is what [to_csv] sees of it: which paths can be
      opened for writing.
    - A raised exception is the left summand of a [result]. *)

From Stdlib Require Import String Ascii DecimalString.
From Stdlib Require Import List ZArith QArith Bool Arith Lia Permutation.
From Stdlib Require Import Floats.
Import ListNotations.

Close Scope Q_scope.
Set Implicit Arguments.

(** A decimal literal denotes the nearest [float64], as in Python. *)
Set Warnings "-inexact-float".

(** ** Exceptions and the error monad *)

(** [IndexError] is numpy's and Python's out-of-range indexing error,
    [KeyError] the error of a missing dictionary key or column,
    [ValueError] is what the pandas [DataFrame] constructor raises on a
    column-count mismatch, [TypeError] and [AttributeError] are the errors
    of using an object as what it is not, [OSError] is what [to_csv]
    raises when the file cannot be opened (the [IOError] of the
    specification).  [MalformedHistogramError]
    belongs to the error taxonomy of the specification; no statement of the
    source raises it. *)
Inductive exn : Type :=
| IndexError
| KeyError
| ValueError
| TypeError
| AttributeError
| OSError
| MalformedHistogramError.

Definition result (A : Type) : Type := (exn + A)%type.

Definition ret {A} (a : A) : result A := inr a.
Definition raise {A} (e : exn) : result A := inl e.
Definition bind {A B} (m : result A) (k : A -> result B) : result B :=
  match m with
  | inl e => inl e
  | inr a => k a
  end.

Declare Scope result_scope.
Delimit Scope result_scope with result.
Notation "x <- m ;; k" := (bind m (fun x => k))
  (at level 61, m at next level, right associativity) : result_scope.

(** ** Python dictionaries with integer keys *)

Module PyDict.
Section Dict.
Variable V : Type.

Definition pydict : Type := list (Z * V).

(** [d[k]] as an option. *)
Fixpoint dict_get (k : Z) (d : pydict) : option V :=
  match d with
  | [] => None
  | (k', v) :: d' => if Z.eqb k k' then Some v else dict_get k d'
  end.

(** [d[k] = v]: an existing key keeps its position, a new key goes last. *)
Fixpoint dict_set (k : Z) (v : V) (d : pydict) : pydict :=
  match d with
  | [] => [(k, v)]
  | (k', v') :: d' =>
      if Z.eqb k k' then (k, v) :: d' else (k', v') :: dict_set k v d'
  end.

(** [list(d)], the keys in iteration order. *)
Definition dict_keys (d : pydict) : list Z := map fst d.

(** [d.update(d')]. *)
Definition dict_update (d d' : pydict) : pydict :=
  fold_left (fun acc kv => dict_set (fst kv) (snd kv) acc) d' d.

(** What every Python dict satisfies. *)
Definition dict_wf (d : pydict) : Prop := NoDup (dict_keys d).

End Dict.

(** The loop [for k in d: acc[k] = g(d[k])]. *)
Definition dict_collect (V W : Type) (g : V -> W) (d : pydict V)
  (acc : pydict W) : pydict W :=
  fold_left (fun acc item => dict_set (fst item) (g (snd item)) acc) d acc.

End PyDict.
Import PyDict.

(** ** [get_roi_info] *)

(** An item of [ds_rtss.StructureSetROISequence]. *)
Record StructureSetROI : Type := {
  ROINumber : Z;
  ReferencedFrameOfReferenceUID : string;
  ROIName : string;
  ROIGenerationAlgorithm : string
}.

(** [dict_temp], the dictionary with the keys ['uid'], ['name'] and
    ['algorithm']. *)
Record roi_info : Type := {
  uid : string;
  name : string;
  algorithm : string
}.

Definition roi_info_of (sequence : StructureSetROI) : roi_info :=
  {| uid := ReferencedFrameOfReferenceUID sequence;
     name := ROIName sequence;
     algorithm := ROIGenerationAlgorithm sequence |}.

Definition get_roi_info (StructureSetROISequence : list StructureSetROI)
  : pydict roi_info :=
  fold_left
    (fun dict_roi sequence =>
       dict_set (ROINumber sequence) (roi_info_of sequence) dict_roi)
    StructureSetROISequence [].

(** ** Loops in the error monad *)

Local Open Scope result_scope.

(** [for x in xs: s = body(x, s)], stopping at the first exception. *)
Fixpoint for_each {A S : Type} (xs : list A) (body : A -> S -> result S)
  (s : S) : result S :=
  match xs with
  | [] => ret s
  | x :: xs' => s' <- body x s ;; for_each xs' body s'
  end.

(** [range(start, stop, step)] for a positive [step]; the source only uses
    the constant steps 1 and 10. *)
Definition py_range (start stop step : nat) : list nat :=
  map (fun k => start + k * step) (seq 0 ((stop - start + (step - 1)) / step)).

(** [a[i]] for a non-negative index. *)
Definition getitem {A} (a : list A) (i : nat) : result A :=
  match nth_error a i with
  | Some x => ret x
  | None => raise IndexError
  end.

(** [a[-1]]. *)
Definition getitem_last (a : list Q) : result Q :=
  match a with
  | [] => raise IndexError
  | _ :: _ => ret (last a 0%Q)
  end.

(** ** Histograms *)

(** The two attributes [converge_to_zero_dvh] reads from a histogram. *)
Class Histogram (H : Type) : Type := {
  bincenters : H -> list Q;
  counts : H -> list Q
}.

(** The [dicompylercore] DVH object, as far as this module reads it:
    [dvh.name], [dvh.volume], [dvh.bincenters], [dvh.counts] and
    [dvh.relative_volume.counts]. *)
Record DVH : Type := {
  dvh_name : string;
  dvh_volume : float;
  dvh_bincenters : list Q;
  dvh_counts : list Q;
  relative_volume_counts : list float
}.

#[export] Instance DVH_Histogram : Histogram DVH :=
  {| bincenters := dvh_bincenters; counts := dvh_counts |}.

(** [res[roi]], the dictionary with the keys ['bincenters'] and
    ['counts']. *)
Record dvh_entry : Type := {
  entry_bincenters : list Q;
  entry_counts : list Q
}.

#[export] Instance entry_Histogram : Histogram dvh_entry :=
  {| bincenters := entry_bincenters; counts := entry_counts |}.

(** ** [multi_get_dvhs] and [calc_dvhs] *)

Module Engine.
Section Engine.
(** The histogram type and [dvhcalc.get_dvh(rtss, dose, roi, dose_limit)]
    for the fixed datasets [rtss] and [dose]: a total function, that is a
    deterministic computation that does not fail. *)
Variable H : Type.
Variable get_dvh : Z -> option Q -> H.

(** The dictionary a worker puts on the queue. *)
Definition multi_get_dvhs (roi : Z) (dose_limit : option Q) : pydict H :=
  dict_set roi (get_dvh roi dose_limit) [].

(** Where the coordinating process stands: in the loop that starts the
    workers (about to run iteration [i]), in the loop that reads the
    queue ([n] reads left), in the loop of the joins (about to join
    process [i]), or returned. *)
Inductive coordinator : Type :=
| Allocating (i : nat)
| Collecting (n : nat)
| Joining (i : nat)
| Returned.

(** [running] are the workers that were started and have not put their
    result yet (named by their ROI), [queue] is the multiprocessing
    queue, oldest item first. *)
Record state : Type := {
  pc : coordinator;
  running : list Z;
  queue : list (pydict H);
  dict_dvh : pydict H
}.

(** Who moves next: the coordinator, or the [j]-th running worker. *)
Inductive action : Type :=
| Coordinator
| Worker (j : nat).

Definition initial : state :=
  {| pc := Allocating 0; running := []; queue := []; dict_dvh := [] |}.

(** The list without its [j]-th element. *)
Definition drop_nth {A} (j : nat) (l : list A) : list A :=
  firstn j l ++ skipn (S j) l.

(** One atomic move; [None] when the move is not enabled ([queue.get()]
    blocks on an empty queue).  The worker is started with the arguments
    [(rtss, rtdose, roi_list[i], queue)], so that its [dose_limit] is the
    default [None].  The exit of a worker is not a move of its own: a
    worker exits after its [queue.put], and [proc.join()], which waits for
    that exit, is enabled once the worker has put its result; the move
    stands for the exit and the join together.  What is returned does not
    depend on when the workers exit. *)
Definition step (roi_list : list Z) (a : action) (s : state) : option state :=
  match a with
  | Worker j =>
      match nth_error (running s) j with
      | Some roi =>
          Some {| pc := pc s;
                  running := drop_nth j (running s);
                  queue := queue s ++ [multi_get_dvhs roi None];
                  dict_dvh := dict_dvh s |}
      | None => None
      end
  | Coordinator =>
      match pc s with
      | Allocating i =>
          match nth_error roi_list i with
          | Some roi =>
              Some {| pc := Allocating (S i);
                      running := running s ++ [roi];
                      queue := queue s;
                      dict_dvh := dict_dvh s |}
          | None =>
              Some {| pc := Collecting (length roi_list);
                      running := running s;
                      queue := queue s;
                      dict_dvh := dict_dvh s |}
          end
      | Collecting (S n) =>
          match queue s with
          | dvh :: q =>
              Some {| pc := Collecting n;
                      running := running s;
                      queue := q;
                      dict_dvh := dict_update (dict_dvh s) dvh |}
          | [] => None
          end
      | Collecting O =>
          Some {| pc := Joining 0;
                  running := running s;
                  queue := queue s;
                  dict_dvh := dict_dvh s |}
      | Joining i =>
          match nth_error roi_list i with
          | Some roi =>
              if existsb (Z.eqb roi) (running s) then None
              else Some {| pc := Joining (S i);
                           running := running s;
                           queue := queue s;
                           dict_dvh := dict_dvh s |}
          | None =>
              Some {| pc := Returned;
                      running := running s;
                      queue := queue s;
                      dict_dvh := dict_dvh s |}
          end
      | Returned => None
      end
  end.

(** A schedule is the sequence of moves of one execution. *)
Fixpoint exec (roi_list : list Z) (schedule : list action) (s : state)
  : option state :=
  match schedule with
  | [] => Some s
  | a :: schedule' =>
      match step roi_list a s with
      | Some s' => exec roi_list schedule' s'
      | None => None
      end
  end.

(** [calc_dvhs(rtss, rtdose, dict_roi, dose_limit)] under a schedule:
    the returned dictionary, when the schedule is an execution that
    reaches the [return]. *)
Definition calc_dvhs (V : Type) (dict_roi : pydict V)
  (dose_limit : option Q) (schedule : list action) : option (pydict H) :=
  let roi_list := dict_keys dict_roi in
  match exec roi_list schedule initial with
  | Some s =>
      match pc s with
      | Returned => Some (dict_dvh s)
      | _ => None
      end
  | None => None
  end.

(** The schedule in which every worker puts its result as soon as it is
    started, and the one in which the workers put their results in the
    reverse of the order they were started in. *)
Definition eager_schedule (n : nat) : list action :=
  concat (repeat [Coordinator; Worker 0] n) ++ repeat Coordinator (2 * n + 3).

Definition reversed_schedule (n : nat) : list action :=
  repeat Coordinator n ++ map Worker (rev (seq 0 n))
    ++ repeat Coordinator (2 * n + 3).

(** *** The invariant of the executions *)

(** The ROIs whose worker has been started. *)
Definition started (roi_list : list Z) (c : coordinator) : list Z :=
  match c with
  | Allocating i => firstn i roi_list
  | _ => roi_list
  end.

(** The ROIs whose result waits in the queue. *)
Definition queued (s : state) : list Z :=
  flat_map (@dict_keys H) (queue s).

Definition invariant (roi_list : list Z) (s : state) : Prop :=
  Permutation (running s ++ queued s ++ dict_keys (dict_dvh s))
    (started roi_list (pc s))
  /\ Forall (fun q => exists roi, q = multi_get_dvhs roi None) (queue s)
  /\ (forall k v, In (k, v) (dict_dvh s) -> v = get_dvh k None)
  /\ match pc s with
     | Allocating i => i <= length roi_list /\ dict_dvh s = []
     | Collecting n => length (running s) + length (queue s) = n
     | Joining _ | Returned => running s = [] /\ queue s = []
     end.

(** *** A measure that every move decreases *)

Definition rank (n : nat) (c : coordinator) : nat :=
  match c with
  | Allocating i => 3 * (n - i) + 2 * n + 3
  | Collecting k => k + n + 2
  | Joining i => (n - i) + 1
  | Returned => 0
  end.

Definition measure (roi_list : list Z) (s : state) : nat :=
  rank (length roi_list) (pc s) + 2 * length (running s) + length (queue s).

End Engine.
End Engine.

(** ** [converge_to_zero_dvh] *)

Definition np_zeros (n : nat) : list Q := repeat 0%Q n.

(** The body of the loop for one histogram: the pair of arrays stored
    under [res[roi]]. *)
Definition converge_one {H} `{Histogram H} (zeros : list Q) (dvh : H)
  : result dvh_entry :=
  last_count <- getitem_last (counts dvh) ;;
  if negb (Qeq_bool last_count 0) then
    tmp_bincenters <-
      for_each (py_range 0 3 1)
        (fun i tmp =>
           b <- getitem_last (bincenters dvh) ;;
           ret (tmp ++ [(b + inject_Z (Z.of_nat i))%Q]))
        [] ;;
    ret {| entry_bincenters := bincenters dvh ++ tmp_bincenters;
           entry_counts := counts dvh ++ zeros |}
  else
    ret {| entry_bincenters := bincenters dvh;
           entry_counts := counts dvh |}.

(** [for roi in dict_dvh] with [dvh = dict_dvh[roi]] walks the items of the
    dictionary in order. *)
Definition converge_to_zero_dvh {H} `{Histogram H} (dict_dvh : pydict H)
  : result (pydict dvh_entry) :=
  let zeros := np_zeros 3 in
  for_each dict_dvh
    (fun item res =>
       let roi := fst item in
       let dvh := snd item in
       entry <- converge_one zeros dvh ;;
       ret (dict_set roi entry res))
    [].

(** The entry [converge_one] returns when it returns: its closed form on a
    histogram from which [counts[-1]] and [bincenters[-1]] can be read. *)
Definition extended {H} `{Histogram H} (dvh : H) : dvh_entry :=
  if negb (Qeq_bool (last (counts dvh) 0%Q) 0) then
    let b := last (bincenters dvh) 0%Q in
    {| entry_bincenters :=
         bincenters dvh
           ++ [(b + inject_Z 0)%Q; (b + inject_Z 1)%Q; (b + inject_Z 2)%Q];
       entry_counts := counts dvh ++ [0%Q; 0%Q; 0%Q] |}
  else
    {| entry_bincenters := bincenters dvh; entry_counts := counts dvh |}.

(** [a[-1] == 0] holds (and [a[-1]] can be read). *)
Definition ends_in_zero (a : list Q) : Prop :=
  exists c, getitem_last a = inr c /\ (c == 0)%Q.

(** ** [converge_to_zero_dvh] on the store

    The same function with the objects it handles kept in a store, so that
    sharing and mutation are visible: the dictionaries [dict_dvh], [res]
    and [res[roi]], the DVH objects and the numpy arrays are objects at
    locations, and an attribute or an item holds a location.  The
    attributes of a DVH are stored references, which is the most sharing a
    DVH object can have with the result; an attribute that computes its
    array on every read would only allocate more.  [tmp_bincenters], a
    Python list that no other object refers to, stays a value. *)

Module Store.

Definition loc : Type := nat.

Inductive object : Type :=
| Ndarray (data : list Q)
  (** a one-dimensional numpy array *)
| DVHObject (bincenters_at counts_at : loc)
  (** a DVH, with the arrays its attributes refer to *)
| IntDict (items : pydict loc)
  (** a dictionary keyed by ROI numbers: [dict_dvh] and [res] *)
| StrDict (bincenters_item counts_item : option loc).
  (** a dictionary with the keys ['bincenters'] and ['counts']: [res[roi]] *)

(** A location is an index into the store; a new object goes last. *)
Definition store : Type := list object.

(** Computations on the store that may raise; the store outlives the
    exception. *)
Definition M (A : Type) : Type := store -> result A * store.

Definition mret {A} (a : A) : M A := fun h => (inr a, h).
Definition mraise {A} (e : exn) : M A := fun h => (inl e, h).
Definition mbind {A B} (m : M A) (k : A -> M B) : M B :=
  fun h =>
    match m h with
    | (inl e, h') => (inl e, h')
    | (inr a, h') => k a h'
    end.
Definition lift {A} (r : result A) : M A := fun h => (r, h).

Declare Scope store_scope.
Delimit Scope store_scope with store.
Notation "x <- m ;; k" := (mbind m (fun x => k))
  (at level 61, m at next level, right associativity) : store_scope.
Local Open Scope store_scope.

Fixpoint mfor_each {A S : Type} (xs : list A) (body : A -> S -> M S) (s : S)
  : M S :=
  match xs with
  | [] => mret s
  | x :: xs' => s' <- body x s ;; mfor_each xs' body s'
  end.

Definition alloc (o : object) : M loc :=
  fun h => (inr (length h), h ++ [o]).

Definition read (l : loc) : M object :=
  fun h =>
    match nth_error h l with
    | Some o => (inr o, h)
    | None => (inl TypeError, h)
    end.

(** The store with the object at [l] replaced. *)
Definition update (l : loc) (o : object) (h : store) : store :=
  firstn l h ++ o :: skipn (S l) h.

Definition write (l : loc) (o : object) : M unit :=
  fun h =>
    if l <? length h
    then (inr tt, update l o h)
    else (inl TypeError, h).

(** [{}] where a dictionary keyed by ROI numbers is built, and where the
    dictionary of one ROI is built. *)
Definition new_int_dict : M loc := alloc (IntDict []).
Definition new_str_dict : M loc := alloc (StrDict None None).

(** [list(d)] *)
Definition dict_iter (d : loc) : M (list Z) :=
  o <- read d ;;
  match o with
  | IntDict items => mret (dict_keys items)
  | _ => mraise TypeError
  end.

(** [d[k]] *)
Definition dict_getitem (d : loc) (k : Z) : M loc :=
  o <- read d ;;
  match o with
  | IntDict items =>
      match dict_get k items with
      | Some l => mret l
      | None => mraise KeyError
      end
  | _ => mraise TypeError
  end.

(** [d[k] = v] *)
Definition dict_setitem (d : loc) (k : Z) (v : loc) : M unit :=
  o <- read d ;;
  match o with
  | IntDict items => write d (IntDict (dict_set k v items))
  | _ => mraise TypeError
  end.

(** [e['bincenters'] = v] and [e['counts'] = v] *)
Definition set_bincenters_item (e : loc) (v : loc) : M unit :=
  o <- read e ;;
  match o with
  | StrDict _ c => write e (StrDict (Some v) c)
  | _ => mraise TypeError
  end.

Definition set_counts_item (e : loc) (v : loc) : M unit :=
  o <- read e ;;
  match o with
  | StrDict b _ => write e (StrDict b (Some v))
  | _ => mraise TypeError
  end.

(** [dvh.bincenters] and [dvh.counts] *)
Definition getattr_bincenters (dvh : loc) : M loc :=
  o <- read dvh ;;
  match o with
  | DVHObject b _ => mret b
  | _ => mraise AttributeError
  end.

Definition getattr_counts (dvh : loc) : M loc :=
  o <- read dvh ;;
  match o with
  | DVHObject _ c => mret c
  | _ => mraise AttributeError
  end.

Definition array_data (a : loc) : M (list Q) :=
  o <- read a ;;
  match o with
  | Ndarray data => mret data
  | _ => mraise TypeError
  end.

(** [a[-1]] *)
Definition array_last (a : loc) : M Q :=
  data <- array_data a ;; lift (getitem_last data).

(** [np.zeros(n)], [np.array(python_list)], [np.array(a)], [a.flatten()]
    and [np.concatenate((a, b))] all make a new array. *)
Definition np_zeros_new (n : nat) : M loc := alloc (Ndarray (np_zeros n)).
Definition np_array_of_list (l : list Q) : M loc := alloc (Ndarray l).
Definition np_array (a : loc) : M loc :=
  data <- array_data a ;; alloc (Ndarray data).
Definition flatten (a : loc) : M loc :=
  data <- array_data a ;; alloc (Ndarray data).
Definition np_concatenate (a b : loc) : M loc :=
  da <- array_data a ;; db <- array_data b ;; alloc (Ndarray (da ++ db)).

(** The body of the loop for the ROI [roi]. *)
Definition converge_body (dict_dvh res zeros : loc) (roi : Z) : M unit :=
  e <- new_str_dict ;;
  _ <- dict_setitem res roi e ;;
  dvh <- dict_getitem dict_dvh roi ;;
  c <- getattr_counts dvh ;;
  last_count <- array_last c ;;
  arrays <-
    (if negb (Qeq_bool last_count 0) then
       tmp_bincenters <-
         mfor_each (py_range 0 3 1)
           (fun i tmp =>
              b <- getattr_bincenters dvh ;;
              x <- array_last b ;;
              mret (tmp ++ [(x + inject_Z (Z.of_nat i))%Q]))
           [] ;;
       tmp_bincenters <- np_array_of_list tmp_bincenters ;;
       b <- getattr_bincenters dvh ;;
       flat <- flatten b ;;
       tmp_bincenters <- np_concatenate flat tmp_bincenters ;;
       bincenters <- np_array tmp_bincenters ;;
       c <- getattr_counts dvh ;;
       flat <- flatten c ;;
       z <- np_array zeros ;;
       counts <- np_concatenate flat z ;;
       mret (bincenters, counts)
     else
       bincenters <- getattr_bincenters dvh ;;
       counts <- getattr_counts dvh ;;
       mret (bincenters, counts)) ;;
  e <- dict_getitem res roi ;;
  _ <- set_bincenters_item e (fst arrays) ;;
  e <- dict_getitem res roi ;;
  set_counts_item e (snd arrays).

(** [converge_to_zero_dvh(dict_dvh)] for the dictionary at [dict_dvh]. *)
Definition converge_to_zero_dvh (dict_dvh : loc) : M loc :=
  res <- new_int_dict ;;
  zeros <- np_zeros_new 3 ;;
  rois <- dict_iter dict_dvh ;;
  _ <- mfor_each rois (fun roi _ => converge_body dict_dvh res zeros roi) tt ;;
  mret res.

(** *** Reading a store back *)

Definition array_at (h : store) (a : loc) : option (list Q) :=
  match nth_error h a with
  | Some (Ndarray data) => Some data
  | _ => None
  end.

(** The histogram a DVH object stands for. *)
Definition entry_of_dvh (h : store) (l : loc) : option dvh_entry :=
  match nth_error h l with
  | Some (DVHObject b c) =>
      match array_at h b, array_at h c with
      | Some bs, Some cs =>
          Some {| entry_bincenters := bs; entry_counts := cs |}
      | _, _ => None
      end
  | _ => None
  end.

(** The entry a dictionary [res[roi]] stands for. *)
Definition entry_of_str_dict (h : store) (l : loc) : option dvh_entry :=
  match nth_error h l with
  | Some (StrDict (Some b) (Some c)) =>
      match array_at h b, array_at h c with
      | Some bs, Some cs =>
          Some {| entry_bincenters := bs; entry_counts := cs |}
      | _, _ => None
      end
  | _ => None
  end.

Fixpoint items_of (f : loc -> option dvh_entry) (items : pydict loc)
  : option (pydict dvh_entry) :=
  match items with
  | [] => Some []
  | (k, l) :: items' =>
      match f l, items_of f items' with
      | Some e, Some d => Some ((k, e) :: d)
      | _, _ => None
      end
  end.

(** The collection a dictionary of DVH objects, or of entries, stands
    for. *)
Definition dict_of (f : store -> loc -> option dvh_entry) (h : store) (d : loc)
  : option (pydict dvh_entry) :=
  match nth_error h d with
  | Some (IntDict items) => items_of (f h) items
  | _ => None
  end.

(** *** What the run keeps true

    [n0] is the size of the store at the call, hence the location of
    [res]: the objects below [n0] are those of the caller. *)
Definition fresh (n0 : nat) (l : loc) : Prop := n0 < l.

Definition invariant (h0 h : store) : Prop :=
  firstn (length h0) h = h0
  /\ exists items,
       nth_error h (length h0) = Some (IntDict items)
       /\ forall k l, In (k, l) items -> fresh (length h0) l.

(** From a store that satisfies the invariant, [m] leads to one that does,
    and a value it returns satisfies [Q]. *)
Definition keeps {A} (h0 : store) (m : M A) (Q : A -> Prop) : Prop :=
  forall h, invariant h0 h ->
    invariant h0 (snd (m h))
    /\ forall a, fst (m h) = inr a -> Q a.

(** *** Running a computation against a postcondition *)

(** [post] holds of what [m] returns or raises from [h] and of the store
    it leaves. *)
Definition wp {A} (m : M A) (post : result A -> store -> Prop) (h : store)
  : Prop :=
  post (fst (m h)) (snd (m h)).

(** The store [h] of a run from [h0] that has built the entries [acc]:
    the objects of [h0] are in place, [zeros] is the array after [res], and
    the dictionary [res] reads back as [acc]. *)
Definition represents (h0 h : store) (acc : pydict dvh_entry) : Prop :=
  (forall x o, nth_error h0 x = Some o -> nth_error h x = Some o)
  /\ nth_error h (S (length h0)) = Some (Ndarray (np_zeros 3))
  /\ exists items,
       nth_error h (length h0) = Some (IntDict items)
       /\ items_of (entry_of_str_dict h) items = Some acc.

End Store.

(** ** [dvh2csv] *)

(** A cell of a row: a string or a [float64]; pandas' missing value is the
    float [nan]. *)
Inductive cell : Type :=
| CStr (s : string)
| CNum (x : float).

(** [str(i)] for a non-negative integer. *)
Definition str (i : nat) : string := NilEmpty.string_of_uint (Nat.to_uint i).

(** The sign bit of a float ([false] for [nan]). *)
Definition signbit (x : float) : bool :=
  match classify x with
  | NInf | NNormal | NSubn | NZero => true
  | _ => false
  end.

(** C's [rint] in the default rounding mode, which is numpy's: the nearest
    integer, ties to the even one.  Below [2^52] adding and subtracting
    [2^52] rounds the magnitude to an integer in that mode; from [2^52]
    on every float is an integer, and [nan] and the infinities are
    returned as they are.  The sign is kept, also on zero. *)
Definition rint (x : float) : float :=
  let a := abs x in
  if (a <? 0x1p52)%float then
    let r := (a + 0x1p52 - 0x1p52)%float in
    if signbit x then (- r)%float else r
  else x.

(** numpy's [power_of_ten]. *)
Fixpoint power_of_ten (n : nat) : float :=
  match n with
  | 0 => 1%float
  | S n' => (power_of_ten n' * 10)%float
  end.

(** numpy's [round(x, decimals)] on a [float64]: multiply by the power of
    ten, round to an integer, divide by the power of ten, each in float
    arithmetic. *)
Definition np_round (decimals : nat) (x : float) : float :=
  let f := power_of_ten decimals in
  (rint (x * f) / f)%float.

Record DataFrame : Type := {
  df_columns : list string;
  df_rows : list (list cell)
}.

Definition pad_row (width : nat) (row : list cell) : list cell :=
  row ++ repeat (CNum nan) (width - length row).

(** [pd.DataFrame(data, columns=columns)] for a list of rows: short rows
    are padded with the missing value up to the longest row, and the number
    of column names has to be the length of the longest row. *)
Definition pd_DataFrame (data : list (list cell)) (columns : list string)
  : result DataFrame :=
  match data with
  | [] => ret {| df_columns := columns; df_rows := [] |}
  | _ :: _ =>
      let width := list_max (map (@length cell) data) in
      if Nat.eqb width (length columns)
      then ret {| df_columns := columns; df_rows := map (pad_row width) data |}
      else raise ValueError
  end.

Definition map_cells (f : cell -> cell) (df : DataFrame) : DataFrame :=
  {| df_columns := df_columns df; df_rows := map (map f) (df_rows df) |}.

(** [df.round(decimals)] *)
Definition df_round (decimals : nat) : DataFrame -> DataFrame :=
  map_cells (fun c =>
    match c with
    | CNum x => CNum (np_round decimals x)
    | _ => c
    end).

(** [value] where [x] is missing. *)
Definition fillna (value x : float) : float :=
  if is_nan x then value else x.

(** [df.fillna(value)] *)
Definition df_fillna (value : float) : DataFrame -> DataFrame :=
  map_cells (fun c =>
    match c with
    | CNum x => CNum (fillna value x)
    | _ => c
    end).

Fixpoint index_of (s : string) (l : list string) : option nat :=
  match l with
  | [] => None
  | x :: l' => if String.eqb s x then Some 0 else option_map S (index_of s l')
  end.

(** The list with its [j]-th element moved to the front. *)
Definition to_front {A} (j : nat) (l : list A) : list A :=
  match nth_error l j with
  | Some x => x :: firstn j l ++ skipn (S j) l
  | None => l
  end.

(** [df.set_index(column)]: the index column is written first. *)
Definition set_index (column : string) (df : DataFrame) : result DataFrame :=
  match index_of column (df_columns df) with
  | Some j => ret {| df_columns := to_front j (df_columns df);
                     df_rows := map (to_front j) (df_rows df) |}
  | None => raise KeyError
  end.

(** [df.to_csv(path)] on a file system in which the paths of [writable]
    can be opened for writing: the file written, as its path and the table
    it holds, or [OSError]. *)
Definition to_csv (writable : string -> bool) (df : DataFrame) (path : string)
  : result (string * DataFrame) :=
  if writable path then ret (path, df) else raise OSError.

(** The inner loop: [for i in range(0, len(dose), 10)] on the pair
    [(dvh_roi_list, max_roi_dose)]. *)
Definition sample_dose (dose : list float) (st : list cell * nat)
  : result (list cell * nat) :=
  for_each (py_range 0 (length dose) 10)
    (fun i st =>
       x <- getitem dose i ;;
       ret (fst st ++ [CNum x], if snd st <? i then i else snd st))
    st.

(** The outer loop on the pair [(dvh_csv_list, max_roi_dose)]. *)
Definition dvh2csv_rows (dict_dvh : pydict DVH) (patient_id : string)
  : result (list (list cell) * nat) :=
  for_each dict_dvh
    (fun item st =>
       let dvh := snd item in
       let dvh_roi_list :=
         [CStr patient_id; CStr (dvh_name dvh); CNum (dvh_volume dvh)] in
       r <- sample_dose (relative_volume_counts dvh) (dvh_roi_list, snd st) ;;
       ret (fst st ++ [fst r], snd r))
    ([], 0).

(** [csv_header] once the last loop has run. *)
Definition csv_header (max_roi_dose : nat) : list string :=
  ["Patient ID"; "ROI"; "Volume (mL)"]%string
    ++ map (fun i => (str i ++ "cGy")%string)
         (py_range 0 (max_roi_dose + 1) 10).

(** The list [csv_header] the function has built when it calls the
    [DataFrame] constructor. *)
Definition dvh2csv_header (dict_dvh : pydict DVH) (patient_id : string)
  : result (list string) :=
  st <- dvh2csv_rows dict_dvh patient_id ;;
  ret (csv_header (snd st)).

(** [dvh2csv]: the file written, as its path and the table it holds. *)
Definition dvh2csv (writable : string -> bool) (dict_dvh : pydict DVH)
  (path csv_name patient_id : string) : result (string * DataFrame) :=
  let tar_path := (path ++ csv_name ++ ".csv")%string in
  st <- dvh2csv_rows dict_dvh patient_id ;;
  pd_df_csv <- pd_DataFrame (fst st) (csv_header (snd st)) ;;
  let pd_df_csv := df_round 2 pd_df_csv in
  let pd_df_csv := df_fillna 0 pd_df_csv in
  pd_df_csv <- set_index "Patient ID" pd_df_csv ;;
  to_csv writable pd_df_csv tar_path.

(** *** The header as the specification words it *)

(** The indices [0, 10, 20, ...] below the length of [dose]. *)
Definition spec_sampled_indices (dose : list float) : list nat :=
  filter (fun i => i mod 10 =? 0) (seq 0 (length dose)).

(** The largest sampled index over all ROIs (0 when nothing is sampled). *)
Definition spec_global_max (dict_dvh : pydict DVH) : nat :=
  list_max
    (flat_map
       (fun item => spec_sampled_indices (relative_volume_counts (snd item)))
       dict_dvh).

(** One ["<k>cGy"] column for every multiple of 10 from 0 up to [m]. *)
Definition spec_header (m : nat) : list string :=
  ["Patient ID"; "ROI"; "Volume (mL)"]%string
    ++ map (fun k => (str k ++ "cGy")%string)
         (filter (fun k => k mod 10 =? 0) (seq 0 (m + 1))).

(** A cell that is not missing. *)
Definition filled (c : cell) : Prop :=
  match c with
  | CNum x => is_nan x = false
  | CStr _ => True
  end.

(** A number that numpy's rounding to two decimals gives. *)
Definition rounded2 (c : cell) : Prop :=
  match c with
  | CNum y => exists x, y = np_round 2 x
  | CStr _ => True
  end.

(** The number of samples of one ROI. *)
Definition samples (item : Z * DVH) : nat :=
  length (spec_sampled_indices (relative_volume_counts (snd item))).

(** The row the loops build for one ROI: the three leading cells and one
    cell per sampled index. *)
Definition sampled_row (patient_id : string) (dvh : DVH) : list cell :=
  [CStr patient_id; CStr (dvh_name dvh); CNum (dvh_volume dvh)]
    ++ map (fun i => CNum (nth i (relative_volume_counts dvh) 0%float))
         (spec_sampled_indices (relative_volume_counts dvh)).

(** What is written for the number [x]: [x] rounded to two decimals, and
    [0.0] when that is missing. *)
Definition written (x : float) : float := fillna 0 (np_round 2 x).

(** The row of the written table for one ROI in a table of [width]
    columns: numbers rounded, the columns past the samples [0.0]. *)
Definition exported_row (width : nat) (patient_id : string) (dvh : DVH)
  : list cell :=
  [CStr patient_id; CStr (dvh_name dvh); CNum (written (dvh_volume dvh))]
    ++ map (fun i => CNum (written (nth i (relative_volume_counts dvh) 0%float)))
         (spec_sampled_indices (relative_volume_counts dvh))
    ++ repeat (CNum 0)
         (width - 3
          - length (spec_sampled_indices (relative_volume_counts dvh))).

(** ** The scenarios of the specification *)

(** The [float64] of an integer below [2^63] in magnitude, and of a
    rational with such a numerator and denominator (their quotient in
    float arithmetic). *)
Definition float_of_Z (z : Z) : float :=
  match z with
  | Z0 => 0%float
  | Zpos _ => of_uint63 (Uint63.of_Z z)
  | Zneg p => (- of_uint63 (Uint63.of_Z (Zpos p)))%float
  end.

Definition float_of_Q (q : Q) : float :=
  (float_of_Z (Qnum q) / float_of_Z (Zpos (Qden q)))%float.

(** A histogram with the given bin centers and counts, whose
    relative-volume series has one value per count. *)
Definition histogram (bins cnts : list Q) : DVH :=
  {| dvh_name := ""; dvh_volume := 0;
     dvh_bincenters := bins; dvh_counts := cnts;
     relative_volume_counts := map float_of_Q cnts |}.

(** ROI 1 ends in a zero count, ROI 2 does not. *)
Definition scenario_dvhs : pydict DVH :=
  [ (1%Z, histogram [0; 10; 20]%Q [5; 3; 0]%Q);
    (2%Z, histogram [0; 10]%Q [2; 1]%Q) ].

(** A histogram without any bin. *)
Definition empty_histogram : DVH := histogram [] [].

(** A structure set with three ROI declarations, two of which carry the
    ROI number 1. *)
Definition example_sequence : list StructureSetROI :=
  [ {| ROINumber := 1; ReferencedFrameOfReferenceUID := "1.2.3";
       ROIName := "BODY"; ROIGenerationAlgorithm := "AUTOMATIC" |};
    {| ROINumber := 2; ReferencedFrameOfReferenceUID := "1.2.3";
       ROIName := "PTV"; ROIGenerationAlgorithm := "MANUAL" |};
    {| ROINumber := 1; ReferencedFrameOfReferenceUID := "1.2.3";
       ROIName := "LUNG"; ROIGenerationAlgorithm := "SEMIAUTOMATIC" |} ].

(** A stand-in for the dose calculation: one bin at the ROI number. *)
Definition example_get_dvh (roi : Z) (dose_limit : option Q) : DVH :=
  histogram [inject_Z roi] [1%Q].

Definition example_dict_roi : pydict unit := [(1%Z, tt); (2%Z, tt); (3%Z, tt)].
Definition example_dict_roi' : pydict unit := [(3%Z, tt); (1%Z, tt); (2%Z, tt)].

(** A histogram of 25 unit bins, all with the same count. *)
Definition histogram25 : DVH :=
  histogram (map (fun k => inject_Z (Z.of_nat k)) (seq 0 25)) (repeat 4%Q 25).

(** Two ROIs whose relative-volume counts have the lengths 5 and 35; the
    samples of the second are [100.0], [2.675], [0.125] and [nan]. *)
Definition export_scenario : pydict DVH :=
  [ (1%Z, {| dvh_name := "PTV"; dvh_volume := 1234.567;
             dvh_bincenters := map (fun k => inject_Z (Z.of_nat k)) (seq 0 5);
             dvh_counts := repeat 7%Q 5;
             relative_volume_counts := repeat 100%float 5 |});
    (2%Z, {| dvh_name := "BODY"; dvh_volume := 0.625;
             dvh_bincenters := map (fun k => inject_Z (Z.of_nat k)) (seq 0 35);
             dvh_counts := repeat 7%Q 35;
             relative_volume_counts :=
               repeat 100%float 10 ++ repeat 2.675%float 10
                 ++ repeat 0.125%float 10 ++ repeat nan 5 |}) ].

(** A file system in which the files under [/tmp/] can be written. *)
Definition tmp_writable (path : string) : bool := prefix "/tmp/" path.

(** The first scenario laid out in a store: the two DVH objects with their
    arrays, and the dictionary [dict_dvh] at location 6. *)
Definition scenario_store : Store.store :=
  [ Store.Ndarray [0; 10; 20]%Q; Store.Ndarray [5; 3; 0]%Q;
    Store.DVHObject 0 1;
    Store.Ndarray [0; 10]%Q; Store.Ndarray [2; 1]%Q;
    Store.DVHObject 3 4;
    Store.IntDict [(1%Z, 2); (2%Z, 5)] ].

(** ** Orders, outcomes and tables

    What the statements about the order of the ROIs, the outcome of a run
    and the written table are phrased with. *)

(** The elements of [l] in the order of their first occurrence. *)
Definition first_occurrences (l : list Z) : list Z :=
  rev (nodup Z.eq_dec (rev l)).

(** A stand-in for the dose calculation that depends on the dose limit. *)
Definition limited_get_dvh (roi : Z) (dose_limit : option Q) : DVH :=
  histogram [inject_Z roi]
    [match dose_limit with Some q => q | None => 1%Q end].

(** The place of the first occurrence of [roi] in [l]. *)
Fixpoint position (roi : Z) (l : list Z) : nat :=
  match l with
  | [] => 0
  | x :: l' => if Z.eqb roi x then 0 else S (position roi l')
  end.

(** The moves in which the running workers put their results in the order
    [order]. *)
Fixpoint deliveries (running order : list Z) : list Engine.action :=
  match order with
  | [] => []
  | roi :: order' =>
      Engine.Worker (position roi running)
        :: deliveries (Engine.drop_nth (position roi running) running) order'
  end.

(** The schedule that starts every worker, lets the results arrive in the
    order [order], and then runs the coordinator to the [return]. *)
Definition arrival_schedule (roi_list order : list Z) : list Engine.action :=
  repeat Engine.Coordinator (length roi_list)
    ++ deliveries roi_list order
    ++ repeat Engine.Coordinator (2 * length roi_list + 3).

(** A histogram the loop body can handle: [counts[-1]] can be read, and so
    can [bincenters[-1]] unless the last count is zero. *)
Definition readable {H} `{Histogram H} (dvh : H) : Prop :=
  counts dvh <> [] /\ (bincenters dvh <> [] \/ ends_in_zero (counts dvh)).

(** Whether the rows and the header of [dvh2csv] fit: there is no ROI, or
    some ROI has a relative-volume count. *)
Definition sampled (dict_dvh : pydict DVH) : bool :=
  match dict_dvh with
  | [] => true
  | _ :: _ =>
      existsb
        (fun item =>
           match relative_volume_counts (snd item) with
           | [] => false
           | _ :: _ => true
           end)
        dict_dvh
  end.

(** The table [dvh2csv] writes when it writes one. *)
Definition export_table (dict_dvh : pydict DVH) (patient_id : string)
  : DataFrame :=
  let header := spec_header (spec_global_max dict_dvh) in
  {| df_columns := header;
     df_rows :=
       map (fun item => exported_row (length header) patient_id (snd item))
         dict_dvh |}.

(** The outcomes of two runs that may differ in the order of the rows
    only. *)
Definition same_export (r r' : result (string * DataFrame)) : Prop :=
  match r, r' with
  | inr (p, t), inr (p', t') =>
      p = p' /\ df_columns t = df_columns t'
      /\ Permutation (df_rows t) (df_rows t')
  | inl e, inl e' => e = e'
  | _, _ => False
  end.

(** The outcomes of two runs of the normalizer that may differ in the order
    of the entries only. *)
Definition same_entries (r r' : result (pydict dvh_entry)) : Prop :=
  match r, r' with
  | inr res, inr res' => Permutation res res'
  | inl e, inl e' => e = e'
  | _, _ => False
  end.

(** The length of the longest relative-volume series of the collection. *)
Definition longest_series (dict_dvh : pydict DVH) : nat :=
  list_max (map (fun item => length (relative_volume_counts (snd item))) dict_dvh).

(** * Properties *)

(** ** Dictionary lemmas *)

Section DictFacts.
Variable V : Type.
Implicit Types (d : pydict V) (k : Z) (v : V).

Lemma dict_get_set_same k v d : dict_get k (dict_set k v d) = Some v.
Proof.
  induction d as [|[k' v'] d IH]; simpl.
  - now rewrite Z.eqb_refl.
  - destruct (Z.eqb k k') eqn:E; simpl; rewrite ?Z.eqb_refl, ?E; auto.
Qed.

Lemma dict_get_set_other k k' v d :
  k <> k' -> dict_get k (dict_set k' v d) = dict_get k d.
Proof.
  intros Hne. induction d as [|[k2 v2] d IH]; simpl.
  - apply Z.eqb_neq in Hne. now rewrite Hne.
  - destruct (Z.eqb k' k2) eqn:E; simpl.
    + apply Z.eqb_eq in E. subst k2.
      apply Z.eqb_neq in Hne. now rewrite Hne.
    + now rewrite IH.
Qed.

Lemma dict_get_set k k' v d :
  dict_get k (dict_set k' v d) = if Z.eqb k k' then Some v else dict_get k d.
Proof.
  destruct (Z.eqb k k') eqn:E.
  - apply Z.eqb_eq in E. subst. apply dict_get_set_same.
  - apply Z.eqb_neq in E. now apply dict_get_set_other.
Qed.

Lemma dict_get_None k d : dict_get k d = None <-> ~ In k (dict_keys d).
Proof.
  induction d as [|[k' v'] d IH]; simpl.
  - tauto.
  - destruct (Z.eqb k k') eqn:E.
    + apply Z.eqb_eq in E. subst. split; [discriminate | tauto].
    + apply Z.eqb_neq in E. rewrite IH. split; [intros H [?|?] | ]; auto.
Qed.

Lemma dict_get_In k v d : dict_get k d = Some v -> In (k, v) d.
Proof.
  induction d as [|[k' v'] d IH]; simpl; [discriminate|].
  destruct (Z.eqb k k') eqn:E.
  - apply Z.eqb_eq in E. intros [= ->]. subst. now left.
  - auto.
Qed.

Lemma dict_In_get k v d : dict_wf d -> In (k, v) d -> dict_get k d = Some v.
Proof.
  unfold dict_wf, dict_keys.
  induction d as [|[k' v'] d IH]; simpl; [tauto|].
  intros Hnd [H|H].
  - injection H as -> ->. now rewrite Z.eqb_refl.
  - inversion Hnd as [|? ? Hnin Hnd']; subst.
    destruct (Z.eqb k k') eqn:E; auto.
    apply Z.eqb_eq in E. subst k'. exfalso. apply Hnin.
    change k with (fst (k, v)). now apply in_map.
Qed.

(** Setting a key that is absent appends the item. *)
Lemma dict_set_fresh k v d :
  ~ In k (dict_keys d) -> dict_set k v d = d ++ [(k, v)].
Proof.
  induction d as [|[k' v'] d IH]; simpl; auto.
  intros Hnin. destruct (Z.eqb k k') eqn:E.
  - apply Z.eqb_eq in E. subst. simpl in Hnin. tauto.
  - f_equal. apply IH. simpl in Hnin. tauto.
Qed.

(** Setting a key that is present leaves the key sequence alone. *)
Lemma dict_set_keys_present k v d :
  In k (dict_keys d) -> dict_keys (dict_set k v d) = dict_keys d.
Proof.
  induction d as [|[k' v'] d IH]; simpl; [tauto|].
  intros Hin. destruct (Z.eqb k k') eqn:E; simpl.
  - apply Z.eqb_eq in E. now subst.
  - f_equal. apply IH. destruct Hin as [H|H]; auto.
    apply Z.eqb_neq in E. congruence.
Qed.

Lemma dict_set_keys k v d :
  dict_keys (dict_set k v d) =
  if in_dec Z.eq_dec k (dict_keys d) then dict_keys d else dict_keys d ++ [k].
Proof.
  destruct (in_dec Z.eq_dec k (dict_keys d)) as [Hin|Hnin].
  - now apply dict_set_keys_present.
  - rewrite dict_set_fresh by assumption.
    unfold dict_keys. now rewrite map_app.
Qed.

Lemma dict_set_wf k v d : dict_wf d -> dict_wf (dict_set k v d).
Proof.
  unfold dict_wf. rewrite dict_set_keys.
  destruct (in_dec Z.eq_dec k (dict_keys d)) as [Hin|Hnin]; auto.
  intros Hnd. apply NoDup_app; auto.
  - constructor; [tauto | constructor].
  - intros x Hx [<-|[]]. contradiction.
Qed.

Lemma dict_keys_app d d' : dict_keys (d ++ d') = dict_keys d ++ dict_keys d'.
Proof. apply map_app. Qed.

Lemma dict_set_In_keys k k' v d :
  In k (dict_keys (dict_set k' v d)) <-> k = k' \/ In k (dict_keys d).
Proof.
  rewrite dict_set_keys.
  destruct (in_dec Z.eq_dec k' (dict_keys d)) as [Hin|Hnin].
  - split; auto. intros [->|H]; auto.
  - rewrite in_app_iff. simpl. split; [intros [H|[H|[]]] | intros [H|H]]; auto.
Qed.

End DictFacts.

(** ** The ROI catalog: [get_roi_info] *)

Section RoiCatalog.
Implicit Types (ds : list StructureSetROI) (s : StructureSetROI) (k : Z).

Lemma get_roi_info_snoc ds s :
  get_roi_info (ds ++ [s]) =
  dict_set (ROINumber s) (roi_info_of s) (get_roi_info ds).
Proof. unfold get_roi_info. now rewrite fold_left_app. Qed.

(** The value under [k] comes from the first match walking the sequence
    backwards. *)
Lemma get_roi_info_get ds k :
  dict_get k (get_roi_info ds) =
  option_map roi_info_of (find (fun s => Z.eqb k (ROINumber s)) (rev ds)).
Proof.
  induction ds as [|s ds IH] using rev_ind; [reflexivity|].
  rewrite get_roi_info_snoc, dict_get_set, rev_unit. simpl.
  destruct (Z.eqb k (ROINumber s)); auto.
Qed.

Lemma get_roi_info_keys_In ds k :
  In k (dict_keys (get_roi_info ds)) <-> In k (map ROINumber ds).
Proof.
  induction ds as [|s ds IH] using rev_ind; [reflexivity|].
  rewrite get_roi_info_snoc, dict_set_In_keys, map_app, in_app_iff, IH.
  simpl. intuition.
Qed.

Lemma get_roi_info_wf ds : dict_wf (get_roi_info ds).
Proof.
  induction ds as [|s ds IH] using rev_ind; [constructor|].
  rewrite get_roi_info_snoc. now apply dict_set_wf.
Qed.

Lemma get_roi_info_keys_NoDup ds :
  NoDup (map ROINumber ds) ->
  get_roi_info ds = map (fun s => (ROINumber s, roi_info_of s)) ds.
Proof.
  induction ds as [|s ds IH] using rev_ind; [reflexivity|].
  rewrite map_app. simpl. intros Hnd.
  apply NoDup_remove in Hnd. rewrite app_nil_r in Hnd.
  destruct Hnd as [Hnd Hnin].
  rewrite get_roi_info_snoc, dict_set_fresh.
  - rewrite IH by assumption. now rewrite map_app.
  - now rewrite get_roi_info_keys_In.
Qed.

Lemma find_none_app {A} (f : A -> bool) (l1 l2 : list A) :
  (forall x, In x l1 -> f x = false) -> find f (l1 ++ l2) = find f l2.
Proof.
  induction l1 as [|a l1 IH]; simpl; intros Hall; auto.
  rewrite (Hall a) by auto. auto.
Qed.

Lemma get_roi_info_last ds1 s ds2 :
  (forall s', In s' ds2 -> ROINumber s' <> ROINumber s) ->
  dict_get (ROINumber s) (get_roi_info (ds1 ++ s :: ds2))
  = Some (roi_info_of s).
Proof.
  intros Hlater.
  rewrite get_roi_info_get, rev_app_distr. simpl. rewrite <- app_assoc.
  rewrite find_none_app.
  - simpl. now rewrite Z.eqb_refl.
  - intros x Hx. apply in_rev in Hx. apply Z.eqb_neq.
    intros Heq. now apply (Hlater x).
Qed.
End RoiCatalog.

(** C9.  Every element of the ROI declaration sequence gets its ROI number
    as a key and nothing else is a key, no key occurs twice, the entry
    under a key holds the uid, name and algorithm of the LAST element that
    carries this ROI number, and with pairwise different ROI numbers the
    mapping is the sequence itself, one entry per element in order. *)
Theorem get_roi_info_last_wins (ds : list StructureSetROI) :
  (forall k, In k (dict_keys (get_roi_info ds)) <-> In k (map ROINumber ds))
  /\ dict_wf (get_roi_info ds)
  /\ (forall ds1 s ds2,
        ds = ds1 ++ s :: ds2 ->
        (forall s', In s' ds2 -> ROINumber s' <> ROINumber s) ->
        dict_get (ROINumber s) (get_roi_info ds) = Some (roi_info_of s))
  /\ (NoDup (map ROINumber ds) ->
        get_roi_info ds = map (fun s => (ROINumber s, roi_info_of s)) ds
        /\ length (get_roi_info ds) = length ds).
Proof.
  split; [|split; [|split]].
  - intros k. apply get_roi_info_keys_In.
  - apply get_roi_info_wf.
  - intros ds1 s ds2 -> Hlater. now apply get_roi_info_last.
  - intros Hnd. rewrite get_roi_info_keys_NoDup by assumption.
    split; [reflexivity | apply length_map].
Qed.

(** ** The normalizer: [converge_to_zero_dvh] *)

Section Normalizer.
Context {H : Type} `{HH : Histogram H}.
Implicit Types (dvh : H) (d : pydict H) (res : pydict dvh_entry).

Lemma getitem_last_nonempty (a : list Q) :
  a <> [] -> getitem_last a = inr (last a 0%Q).
Proof. destruct a; [congruence | reflexivity]. Qed.

Lemma getitem_last_inr (a : list Q) c :
  getitem_last a = inr c -> a <> [] /\ c = last a 0%Q.
Proof.
  destruct a; [discriminate|]. intros [= <-].
  split; [discriminate | reflexivity].
Qed.

Lemma getitem_last_app (a : list Q) x :
  getitem_last (a ++ [x]) = inr x.
Proof.
  rewrite getitem_last_nonempty.
  - now rewrite last_last.
  - destruct a; discriminate.
Qed.

(** With [counts[-1]] zero the arrays go through as they are. *)
Lemma converge_one_zero zeros dvh c :
  getitem_last (counts dvh) = inr c -> Qeq_bool c 0 = true ->
  converge_one zeros dvh =
  inr {| entry_bincenters := bincenters dvh; entry_counts := counts dvh |}.
Proof. unfold converge_one. intros -> Hc. simpl. now rewrite Hc. Qed.

(** Otherwise the bin centers grow by [b+0], [b+1], [b+2] for the last
    bin center [b], and the counts by [zeros]. *)
Lemma converge_one_nonzero zeros dvh c b :
  getitem_last (counts dvh) = inr c -> Qeq_bool c 0 = false ->
  getitem_last (bincenters dvh) = inr b ->
  converge_one zeros dvh =
  inr {| entry_bincenters :=
           bincenters dvh
             ++ [(b + inject_Z 0)%Q; (b + inject_Z 1)%Q; (b + inject_Z 2)%Q];
         entry_counts := counts dvh ++ zeros |}.
Proof.
  unfold converge_one. intros -> Hc Hb. simpl. rewrite Hc. simpl.
  now rewrite Hb.
Qed.

Lemma converge_one_empty zeros dvh :
  counts dvh = [] -> converge_one zeros dvh = inl IndexError.
Proof. unfold converge_one. now intros ->. Qed.

(** The only exception of the loop body is the [IndexError] of [a[-1]]. *)
Lemma converge_one_exn zeros dvh e :
  converge_one zeros dvh = inl e -> e = IndexError.
Proof.
  unfold converge_one.
  destruct (counts dvh) as [|c0 cs]; simpl; [congruence|].
  destruct (negb _); [|discriminate].
  destruct (bincenters dvh) as [|b0 bs]; intros Heq;
    [now injection Heq | discriminate Heq].
Qed.

Lemma converge_one_extended dvh :
  counts dvh <> [] -> bincenters dvh <> [] ->
  converge_one (np_zeros 3) dvh = inr (extended dvh).
Proof.
  intros Hc Hb. unfold extended.
  destruct (Qeq_bool (last (counts dvh) 0%Q) 0) eqn:E; simpl.
  - eapply converge_one_zero; eauto using getitem_last_nonempty.
  - erewrite converge_one_nonzero; eauto using getitem_last_nonempty.
Qed.

Lemma extended_ends_in_zero dvh :
  counts dvh <> [] -> ends_in_zero (entry_counts (extended dvh)).
Proof.
  intros Hc. unfold extended, ends_in_zero.
  destruct (Qeq_bool (last (counts dvh) 0%Q) 0) eqn:E; simpl.
  - exists (last (counts dvh) 0%Q). split.
    + now apply getitem_last_nonempty.
    + now apply Qeq_bool_iff.
  - exists 0%Q. split; [|reflexivity].
    change [0%Q; 0%Q; 0%Q] with ([0%Q; 0%Q] ++ [0%Q]).
    rewrite app_assoc. apply getitem_last_app.
Qed.

Lemma extended_lengths dvh :
  length (bincenters dvh) = length (counts dvh) ->
  length (entry_bincenters (extended dvh))
  = length (entry_counts (extended dvh)).
Proof.
  intros Hlen. unfold extended.
  destruct (negb _); simpl; rewrite ?length_app; simpl; lia.
Qed.
End Normalizer.

(** An entry whose counts end in zero is a fixed point of the loop body. *)
Lemma converge_one_fixed zeros (e : dvh_entry) :
  ends_in_zero (entry_counts e) -> converge_one zeros e = inr e.
Proof.
  intros (c & Hc & Hz). apply Qeq_bool_iff in Hz.
  change (entry_counts e) with (counts e) in Hc.
  rewrite (converge_one_zero zeros e Hc Hz).
  now destruct e.
Qed.

Section DictCollect.
Variables V W : Type.
Variable g : V -> W.
Implicit Types (d : pydict V) (acc : pydict W) (k : Z).

Lemma dict_set_In k k' (v w : W) acc :
  In (k, w) (dict_set k' v acc) -> (k, w) = (k', v) \/ In (k, w) acc.
Proof.
  induction acc as [|[k2 v2] acc IH]; simpl.
  - intros [E|[]]; auto.
  - destruct (Z.eqb k' k2); simpl; intros [E|Hin]; auto.
    apply IH in Hin. tauto.
Qed.

Lemma dict_collect_In d : forall acc k w,
  In (k, w) (dict_collect g d acc) ->
  In (k, w) acc \/ exists v, In (k, v) d /\ w = g v.
Proof.
  induction d as [|[k0 v0] d IH]; simpl; intros acc k w Hin; auto.
  apply IH in Hin. destruct Hin as [Hin|(v & Hin & ->)].
  - apply dict_set_In in Hin. destruct Hin as [E|Hin]; auto.
    injection E as -> ->. right. exists v0. auto.
  - right. exists v. auto.
Qed.

Lemma dict_collect_wf d : forall acc,
  dict_wf acc -> dict_wf (dict_collect g d acc).
Proof.
  induction d as [|[k0 v0] d IH]; simpl; intros acc Hwf; auto.
  apply IH. now apply dict_set_wf.
Qed.

(** On keys that are new and pairwise different the loop appends the
    items in order. *)
Lemma dict_collect_fresh d : forall acc,
  NoDup (dict_keys acc ++ dict_keys d) ->
  dict_collect g d acc = acc ++ map (fun item => (fst item, g (snd item))) d.
Proof.
  induction d as [|[k0 v0] d IH]; simpl; intros acc Hnd.
  - now rewrite app_nil_r.
  - assert (Hfresh : ~ In k0 (dict_keys acc)).
    { apply NoDup_remove_2 in Hnd. rewrite in_app_iff in Hnd. tauto. }
    unfold dict_collect in *. simpl.
    rewrite dict_set_fresh by assumption.
    rewrite IH.
    + now rewrite <- app_assoc.
    + unfold dict_keys in *. rewrite map_app. simpl.
      rewrite <- app_assoc. exact Hnd.
Qed.

Lemma dict_get_map d k :
  dict_get k (map (fun item => (fst item, g (snd item))) d)
  = option_map g (dict_get k d).
Proof.
  induction d as [|[k0 v0] d IH]; simpl; auto.
  destruct (Z.eqb k k0); auto.
Qed.

Lemma dict_collect_map d :
  dict_wf d ->
  dict_collect g d [] = map (fun item => (fst item, g (snd item))) d.
Proof. intros Hwf. now rewrite dict_collect_fresh. Qed.
End DictCollect.

Lemma dict_collect_id (V : Type) (d : pydict V) :
  dict_wf d -> dict_collect (fun v => v) d [] = d.
Proof.
  intros Hwf. rewrite dict_collect_map by assumption.
  rewrite <- (map_id d) at 2. apply map_ext. now intros [k v].
Qed.

Section NormalizerLoop.
Context {H : Type} `{HH : Histogram H}.
Implicit Types (dvh : H) (d : pydict H) (acc res : pydict dvh_entry).

(** The loop of [converge_to_zero_dvh] from an accumulator [acc]. *)
Let loop (zeros : list Q) d acc : result (pydict dvh_entry) :=
  for_each d
    (fun item res =>
       (entry <- converge_one zeros (snd item) ;;
        ret (dict_set (fst item) entry res))%result)
    acc.

Lemma converge_unfold d : converge_to_zero_dvh d = loop (np_zeros 3) d [].
Proof. reflexivity. Qed.

Lemma loop_success zeros (g : H -> dvh_entry) d : forall acc,
  (forall item, In item d -> converge_one zeros (snd item) = inr (g (snd item))) ->
  loop zeros d acc = inr (dict_collect g d acc).
Proof.
  induction d as [|item d IH]; intros acc Hall; [reflexivity|].
  unfold loop in *. simpl. rewrite (Hall item) by (now left). simpl.
  apply IH. intros item' Hin. apply Hall. now right.
Qed.

Lemma loop_exn zeros d : forall acc e,
  loop zeros d acc = inl e -> e = IndexError.
Proof.
  induction d as [|item d IH]; intros acc e; [discriminate|].
  unfold loop in *. simpl.
  destruct (converge_one zeros (snd item)) as [e'|entry] eqn:E; simpl.
  - intros [= <-]. eapply converge_one_exn; eauto.
  - apply IH.
Qed.

Lemma loop_empty_counts zeros d : forall acc,
  (exists item, In item d /\ counts (snd item) = []) ->
  loop zeros d acc = inl IndexError.
Proof.
  induction d as [|item d IH]; intros acc (bad & Hin & Hbad); [destruct Hin|].
  unfold loop in *. simpl.
  destruct (converge_one zeros (snd item)) as [e'|entry] eqn:E; simpl.
  - f_equal. eapply converge_one_exn; eauto.
  - destruct Hin as [->|Hin].
    + rewrite converge_one_empty in E by assumption. discriminate.
    + apply IH. eauto.
Qed.
End NormalizerLoop.

Section NormalizerResults.
Context {H : Type} `{HH : Histogram H}.

Lemma converge_one_ends_in_zero (dvh : H) e :
  converge_one (np_zeros 3) dvh = inr e -> ends_in_zero (entry_counts e).
Proof.
  unfold converge_one.
  destruct (getitem_last (counts dvh)) as [?|c] eqn:Hc; [discriminate|].
  simpl. destruct (Qeq_bool c 0) eqn:Hz; simpl.
  - intros [= <-]. exists c. split; [exact Hc | now apply Qeq_bool_iff].
  - destruct (getitem_last (bincenters dvh)) as [?|b]; [discriminate|].
    intros [= <-]. simpl. exists 0%Q. split; [|reflexivity].
    change (np_zeros 3) with ([0%Q; 0%Q] ++ [0%Q]).
    rewrite app_assoc. apply getitem_last_app.
Qed.

(** Whatever the loop returns is a dictionary whose entries all come
    from the accumulator or from a successful run of the body. *)
Lemma loop_inr_inv (P : dvh_entry -> Prop) zeros (d : pydict H) :
  (forall dvh e, converge_one zeros dvh = inr e -> P e) ->
  forall acc res,
    dict_wf acc -> (forall k e, In (k, e) acc -> P e) ->
    for_each d
      (fun item res =>
         (entry <- converge_one zeros (snd item) ;;
          ret (dict_set (fst item) entry res))%result)
      acc = inr res ->
    dict_wf res /\ (forall k e, In (k, e) res -> P e).
Proof.
  intros Hbody.
  induction d as [|item d IH]; intros acc res Hwf Hacc; simpl.
  - intros [= <-]. auto.
  - destruct (converge_one zeros (snd item)) as [?|entry] eqn:E;
      [discriminate|]. simpl.
    apply IH.
    + now apply dict_set_wf.
    + intros k e Hin. apply dict_set_In in Hin.
      destruct Hin as [Heq|Hin]; eauto.
      injection Heq as -> ->. eauto.
Qed.
End NormalizerResults.

(** A dictionary of entries that all end in zero goes through the
    normalizer unchanged. *)
Lemma converge_fixed (res : pydict dvh_entry) :
  dict_wf res ->
  (forall k e, In (k, e) res -> ends_in_zero (entry_counts e)) ->
  converge_to_zero_dvh res = inr res.
Proof.
  intros Hwf Hz. rewrite converge_unfold.
  rewrite (loop_success (np_zeros 3) (fun e => e)).
  - now rewrite dict_collect_id.
  - intros [k e] Hin. simpl. apply converge_one_fixed. eauto.
Qed.

(** C3.  When every histogram of the collection has at least one count and
    as many bin centers as counts, the normalizer returns, and every
    histogram of its output has a last count equal to zero and as many bin
    centers as counts. *)
Theorem converge_output_invariant {H : Type} `{Histogram H} (d : pydict H) :
  (forall roi dvh, In (roi, dvh) d ->
     counts dvh <> [] /\ length (bincenters dvh) = length (counts dvh)) ->
  exists res,
    converge_to_zero_dvh d = inr res
    /\ forall roi e, In (roi, e) res ->
         ends_in_zero (entry_counts e)
         /\ length (entry_bincenters e) = length (entry_counts e).
Proof.
  intros Hd. exists (dict_collect extended d []). split.
  - rewrite converge_unfold. apply loop_success.
    intros [roi dvh] Hin. simpl. destruct (Hd _ _ Hin) as [Hc Hlen].
    apply converge_one_extended; auto.
    intros Hb. rewrite Hb in Hlen. destruct (counts dvh); simpl in *; congruence.
  - intros roi e Hin. apply dict_collect_In in Hin.
    destruct Hin as [[]|(dvh & Hin & ->)].
    destruct (Hd _ _ Hin) as [Hc Hlen].
    split; [now apply extended_ends_in_zero | now apply extended_lengths].
Qed.

(** C7 as the code has it.  A histogram with no counts anywhere in the
    collection makes the normalizer fail, and the exception is the
    [IndexError] of reading [counts[-1]]. *)
Theorem converge_empty_counts_raises {H : Type} `{Histogram H} (d : pydict H) :
  (exists roi dvh, In (roi, dvh) d /\ counts dvh = []) ->
  converge_to_zero_dvh d = inl IndexError.
Proof.
  intros (roi & dvh & Hin & Hc). rewrite converge_unfold.
  apply loop_empty_counts. exists (roi, dvh). auto.
Qed.

(** C1 as the code has it.  On a collection whose histograms all have at
    least one count and one bin center the normalizer returns, and for every
    histogram whose last count is not zero the entry under its ROI has the
    bin centers followed by [b+0], [b+1], [b+2], where [b] is the last bin
    center, and the counts followed by three zeros. *)
Theorem converge_appends_three {H : Type} `{Histogram H} (d : pydict H) :
  dict_wf d ->
  (forall roi dvh, In (roi, dvh) d -> counts dvh <> [] /\ bincenters dvh <> []) ->
  exists res,
    converge_to_zero_dvh d = inr res
    /\ forall roi dvh c b,
         dict_get roi d = Some dvh ->
         getitem_last (counts dvh) = inr c -> ~ (c == 0)%Q ->
         getitem_last (bincenters dvh) = inr b ->
         dict_get roi res
         = Some {| entry_bincenters :=
                     bincenters dvh ++ [b + 0; b + 1; b + 2]%Q;
                   entry_counts := counts dvh ++ [0; 0; 0]%Q |}.
Proof.
  intros Hwf Hd. exists (dict_collect extended d []). split.
  - rewrite converge_unfold. apply loop_success.
    intros [roi dvh] Hin. simpl. destruct (Hd _ _ Hin).
    now apply converge_one_extended.
  - intros roi dvh c b Hget Hc Hnz Hb.
    rewrite dict_collect_map, dict_get_map, Hget by assumption. simpl.
    f_equal. unfold extended.
    apply getitem_last_inr in Hc. destruct Hc as [_ ->].
    apply getitem_last_inr in Hb. destruct Hb as [_ ->].
    destruct (Qeq_bool (last (counts dvh) 0%Q) 0) eqn:E; [|reflexivity].
    apply Qeq_bool_iff in E. contradiction.
Qed.

(** The second scenario of the specification under the code: ROI 1 is
    passed through, ROI 2 is extended to the bin centers 0, 10, 10, 11,
    12. *)
Lemma converge_appends_three_witness :
  exists res,
    converge_to_zero_dvh scenario_dvhs = inr res
    /\ dict_get 2%Z res
       = Some {| entry_bincenters := [0; 10; 10; 11; 12]%Q;
                 entry_counts := [2; 1; 0; 0; 0]%Q |}.
Proof.
  destruct (converge_appends_three (d := scenario_dvhs)) as (res & Hres & Hext).
  - repeat constructor; simpl; intuition discriminate.
  - intros roi dvh [E|[E|[]]]; injection E as <- <-; split; discriminate.
  - exists res. split; [exact Hres|].
    apply (Hext 2%Z (histogram [0; 10]%Q [2; 1]%Q) 1%Q 10%Q);
      try reflexivity.
    intros Hq. discriminate Hq.
Defined.

(** C1 as the specification words it fails on its own scenario: the entry
    of ROI 2 does not have the bin centers 0, 10, 11, 12, 13. *)
Lemma converge_scenario_not_next_centers :
  ~ (exists res e,
       converge_to_zero_dvh scenario_dvhs = inr res
       /\ dict_get 2%Z res = Some e
       /\ Forall2 Qeq (entry_bincenters e) [0; 10; 11; 12; 13]%Q
       /\ Forall2 Qeq (entry_counts e) [2; 1; 0; 0; 0]%Q).
Proof.
  intros (res & e & Hres & Hget & Hb & _).
  vm_compute in Hres. injection Hres as <-.
  vm_compute in Hget. injection Hget as <-.
  simpl in Hb.
  inversion Hb as [|? ? ? ? _ Hb1]; subst.
  inversion Hb1 as [|? ? ? ? _ Hb2]; subst.
  inversion Hb2 as [|? ? ? ? Hq _]; subst.
  discriminate Hq.
Qed.

Lemma converge_output_invariant_witness :
  exists res,
    converge_to_zero_dvh scenario_dvhs = inr res
    /\ forall roi e, In (roi, e) res ->
         ends_in_zero (entry_counts e)
         /\ length (entry_bincenters e) = length (entry_counts e).
Proof.
  apply (converge_output_invariant scenario_dvhs).
  intros roi dvh [E|[E|[]]]; injection E as <- <-;
    (split; [discriminate | reflexivity]).
Defined.

Lemma converge_empty_counts_raises_witness :
  converge_to_zero_dvh [(1%Z, empty_histogram)] = inl IndexError.
Proof.
  apply converge_empty_counts_raises.
  exists 1%Z, empty_histogram. split; [now left | reflexivity].
Defined.

(** C7 as the specification words it fails: on a histogram without counts
    the exception is not [MalformedHistogramError]. *)
Lemma converge_empty_counts_not_malformed :
  converge_to_zero_dvh [(1%Z, empty_histogram)] = inl IndexError
  /\ converge_to_zero_dvh [(1%Z, empty_histogram)]
     <> inl MalformedHistogramError.
Proof. split; [reflexivity | discriminate]. Qed.

(** ** The parallel engine: [calc_dvhs] *)

Section ListFacts.
Variable A : Type.
Implicit Types (l : list A) (x : A).

Lemma drop_nth_split l1 x l2 :
  Engine.drop_nth (length l1) (l1 ++ x :: l2) = l1 ++ l2.
Proof.
  unfold Engine.drop_nth.
  induction l1 as [|y l1 IH]; simpl; [reflexivity|].
  f_equal. exact IH.
Qed.

Lemma firstn_snoc l i x :
  nth_error l i = Some x -> firstn (S i) l = firstn i l ++ [x].
Proof.
  revert i. induction l as [|y l IH]; intros [|i]; simpl; try discriminate.
  - now intros [= ->].
  - intros Hn. f_equal. now apply IH.
Qed.

Lemma Permutation_move_right l1 l2 l3 x :
  Permutation (l1 ++ x :: l2 ++ l3) (l1 ++ l2 ++ l3 ++ [x]).
Proof.
  apply Permutation_app_head.
  rewrite app_assoc. apply Permutation_cons_append.
Qed.
End ListFacts.

Section EngineFacts.
Import Engine.
Variable H : Type.
Variable get_dvh : Z -> option Q -> H.
Variable roi_list : list Z.
Hypothesis roi_list_NoDup : NoDup roi_list.

Let inv := invariant get_dvh roi_list.
Let stp := step get_dvh roi_list.
Let run := exec get_dvh roi_list.

Lemma multi_get_dvhs_single roi dose_limit :
  multi_get_dvhs get_dvh roi dose_limit = [(roi, get_dvh roi dose_limit)].
Proof. reflexivity. Qed.

Lemma queued_length (q : list (pydict H)) :
  Forall (fun m => exists roi, m = multi_get_dvhs get_dvh roi None) q ->
  length (flat_map (@dict_keys H) q) = length q.
Proof.
  induction 1 as [|m q (roi & ->) _ IH]; simpl; auto.
Qed.

Lemma invariant_initial : inv (initial H).
Proof.
  unfold inv, invariant, initial, queued. simpl.
  repeat split; auto using Nat.le_0_l; try constructor.
  intros k v [].
Qed.

Lemma step_invariant a s s' : inv s -> stp a s = Some s' -> inv s'.
Proof.
  unfold inv, stp, invariant, step, queued.
  intros (Hperm & Hq & Hval & Hpc).
  destruct a as [|j].
  - (* the coordinator *)
    destruct (pc s) as [i|[|n]|i|] eqn:Epc.
    + (* a worker is started, or the loop of the starts ends *)
      destruct Hpc as [Hi Hempty].
      destruct (nth_error roi_list i) as [roi|] eqn:En;
        intros [= <-]; cbn [pc running queue dict_dvh started] in *.
      * repeat split; auto.
        -- rewrite (firstn_snoc _ _ En), <- app_assoc.
           rewrite Hempty in *. simpl in *. rewrite app_nil_r in *.
           rewrite <- Hperm, <- !app_assoc.
           apply Permutation_app_head.
           apply Permutation_cons_append.
        -- assert (i < length roi_list)
             by (apply nth_error_Some; congruence).
           lia.
      * apply nth_error_None in En.
        rewrite firstn_all2 in Hperm by assumption.
        repeat split; auto.
        apply Permutation_length in Hperm.
        rewrite Hempty in Hperm. simpl in Hperm.
        rewrite app_nil_r, length_app, queued_length in Hperm by assumption.
        exact Hperm.
    + (* all results are in *)
      intros [= <-]; cbn [pc running queue dict_dvh started] in *.
      destruct (running s); [|discriminate].
      destruct (queue s); [|simpl in Hpc; discriminate].
      repeat split; auto.
    + (* a result is read from the queue *)
      destruct (queue s) as [|dvh q] eqn:Eq; [discriminate|].
      intros [= <-]; cbn [pc running queue dict_dvh started] in *.
      inversion Hq as [|? ? (roi & ->) Hq']; subst.
      rewrite multi_get_dvhs_single in *. simpl in *.
      assert (Hfresh : ~ In roi (dict_keys (dict_dvh s))).
      { assert (Hnd : NoDup (running s ++ roi
                 :: flat_map (@dict_keys H) q ++ dict_keys (dict_dvh s))).
        { eapply Permutation_NoDup; [symmetry; exact Hperm | assumption]. }
        apply NoDup_remove_2 in Hnd. rewrite !in_app_iff in Hnd. tauto. }
      unfold dict_update. simpl.
      rewrite dict_set_fresh by assumption.
      repeat split; auto.
      * rewrite <- Hperm, dict_keys_app. simpl.
        symmetry. apply Permutation_move_right.
      * intros k v Hin. apply in_app_or in Hin.
        destruct Hin as [Hin|[[= <- <-]|[]]]; auto.
      * simpl in Hpc. lia.
    + (* a join *)
      destruct (nth_error roi_list i) as [roi|].
      * destruct (existsb (Z.eqb roi) (running s)); [discriminate|].
        intros [= <-]; cbn [pc running queue dict_dvh started] in *. repeat split; tauto.
      * intros [= <-]; cbn [pc running queue dict_dvh started] in *. repeat split; tauto.
    + discriminate.
  - (* a worker puts its result *)
    destruct (nth_error (running s) j) as [roi|] eqn:En; [|discriminate].
    intros [= <-]; cbn [pc running queue dict_dvh started] in *.
    apply nth_error_split in En. destruct En as (l1 & l2 & Erun & <-).
    rewrite Erun in *. rewrite drop_nth_split.
    repeat split; auto.
    + rewrite <- Hperm, flat_map_app. simpl.
      rewrite <- !app_assoc. simpl.
      apply Permutation_app_head.
      rewrite !app_assoc. symmetry. apply Permutation_middle.
    + apply Forall_app. split; auto. constructor; eauto.
    + destruct (pc s); auto.
      * rewrite !length_app in *. simpl in *. lia.
      * destruct Hpc as [Hr _]. destruct l1; discriminate.
      * destruct Hpc as [Hr _]. destruct l1; discriminate.
Qed.

Lemma exec_invariant schedule : forall s s',
  inv s -> run schedule s = Some s' -> inv s'.
Proof.
  unfold run.
  induction schedule as [|a schedule IH]; simpl; intros s s' Hinv.
  - now intros [= <-].
  - destruct (step get_dvh roi_list a s) as [s1|] eqn:E; [|discriminate].
    apply IH. eapply step_invariant; eauto.
Qed.

Lemma exec_app schedule1 schedule2 s :
  run (schedule1 ++ schedule2) s =
  match run schedule1 s with
  | Some s1 => run schedule2 s1
  | None => None
  end.
Proof.
  unfold run. revert s.
  induction schedule1 as [|a schedule1 IH]; simpl; intros s; auto.
  destruct (step get_dvh roi_list a s); auto.
Qed.

(** No deadlock: before the [return] somebody can always move. *)
Lemma step_progress s :
  inv s -> pc s <> Returned -> exists a s', stp a s = Some s'.
Proof.
  unfold inv, stp, invariant.
  intros (_ & _ & _ & Hpc) Hnr.
  destruct (pc s) as [i|[|n]|i|] eqn:Epc.
  - exists Coordinator. unfold step. rewrite Epc.
    destruct (nth_error roi_list i); eauto.
  - exists Coordinator. unfold step. rewrite Epc. eauto.
  - destruct (queue s) as [|dvh q] eqn:Eq.
    + destruct (running s) as [|roi l] eqn:Er; [simpl in Hpc; lia|].
      exists (Worker 0). unfold step. rewrite Er. simpl. eauto.
    + exists Coordinator. unfold step. rewrite Epc, Eq. eauto.
  - exists Coordinator. unfold step. rewrite Epc.
    destruct Hpc as [-> _]. simpl.
    destruct (nth_error roi_list i); eauto.
  - congruence.
Qed.

(** Every move decreases the measure. *)
Lemma step_measure a s s' :
  stp a s = Some s' -> measure roi_list s' < measure roi_list s.
Proof.
  unfold stp, step, measure.
  destruct a as [|j].
  - destruct (pc s) as [i|[|n]|i|] eqn:Epc.
    + destruct (nth_error roi_list i) as [roi|] eqn:En;
        intros [= <-]; cbn [pc running queue rank].
      * assert (i < length roi_list)
          by (apply nth_error_Some; congruence).
        rewrite length_app. simpl. lia.
      * lia.
    + intros [= <-]; cbn [pc running queue rank]. lia.
    + destruct (queue s) as [|dvh q]; [discriminate|].
      intros [= <-]; cbn [pc running queue rank length]. lia.
    + destruct (nth_error roi_list i) as [roi|] eqn:En.
      * destruct (existsb (Z.eqb roi) (running s)); [discriminate|].
        intros [= <-]; cbn [pc running queue rank].
        assert (i < length roi_list)
          by (apply nth_error_Some; congruence).
        lia.
      * intros [= <-]; cbn [pc running queue rank]. lia.
    + discriminate.
  - destruct (nth_error (running s) j) as [roi|] eqn:En; [|discriminate].
    intros [= <-]; cbn [pc running queue rank].
    apply nth_error_split in En. destruct En as (l1 & l2 & -> & <-).
    rewrite drop_nth_split, !length_app. simpl. lia.
Qed.

(** An execution has no more moves than the measure of its first
    state. *)
Lemma exec_length schedule : forall s s',
  run schedule s = Some s' ->
  length schedule + measure roi_list s' <= measure roi_list s.
Proof.
  unfold run.
  induction schedule as [|a schedule IH]; simpl; intros s s'.
  - intros [= <-]. lia.
  - destruct (step get_dvh roi_list a s) as [s1|] eqn:E; [|discriminate].
    intros Hrun. apply IH in Hrun. apply step_measure in E. lia.
Qed.

(** Every execution can be continued up to the [return]. *)
Lemma exec_completes s :
  inv s -> exists schedule s', run schedule s = Some s' /\ pc s' = Returned.
Proof.
  remember (measure roi_list s) as m eqn:Em.
  revert s Em. induction m as [m IH] using lt_wf_ind. intros s -> Hinv.
  destruct (pc s) eqn:Epc;
    try (destruct (@step_progress s Hinv) as (a & s1 & Hstep);
         [congruence|];
         destruct (IH _ (step_measure _ _ Hstep) s1 eq_refl) as (sch & s' & Hrun & Hret);
         [eapply step_invariant; eauto|];
         exists (a :: sch), s'; unfold run, stp in *; simpl; rewrite Hstep;
         now split).
  exists [], s. now split.
Qed.

(** What a returned state holds: every ROI of the list once, each with
    the histogram [get_dvh] computes for it. *)
Lemma returned_dict s :
  inv s -> pc s = Returned ->
  Permutation (dict_keys (dict_dvh s)) roi_list
  /\ dict_dvh s = map (fun roi => (roi, get_dvh roi None)) (dict_keys (dict_dvh s)).
Proof.
  unfold inv, invariant, queued.
  intros (Hperm & _ & Hval & Hpc) Epc. rewrite Epc in *.
  destruct Hpc as [Hr Hq]. rewrite Hr, Hq in Hperm. simpl in Hperm.
  split; [exact Hperm|].
  clear - Hval. induction (dict_dvh s) as [|[k v] d IH]; simpl; auto.
  rewrite (Hval k v) by (now left). f_equal.
  apply IH. intros k' v' Hin. apply Hval. now right.
Qed.
End EngineFacts.

Section EngineResults.
Import Engine.
Variables H V : Type.
Variable get_dvh : Z -> option Q -> H.

Lemma calc_dvhs_inv (dict_roi : pydict V) dose_limit schedule res :
  calc_dvhs get_dvh dict_roi dose_limit schedule = Some res ->
  exists s,
    exec get_dvh (dict_keys dict_roi) schedule (initial H) = Some s
    /\ pc s = Returned /\ dict_dvh s = res.
Proof.
  unfold calc_dvhs.
  destruct (exec get_dvh (dict_keys dict_roi) schedule (initial H))
    as [s|]; [|discriminate].
  destruct (pc s) eqn:Epc; try discriminate.
  intros [= <-]. eauto.
Qed.

(** The returned dictionary lists the requested ROIs, in the order of
    arrival, each with its histogram. *)
Lemma calc_dvhs_result (dict_roi : pydict V) dose_limit schedule res :
  dict_wf dict_roi ->
  calc_dvhs get_dvh dict_roi dose_limit schedule = Some res ->
  Permutation (dict_keys res) (dict_keys dict_roi)
  /\ res = map (fun roi => (roi, get_dvh roi None)) (dict_keys res).
Proof.
  intros Hwf Hres. apply calc_dvhs_inv in Hres.
  destruct Hres as (s & Hrun & Hret & <-).
  apply returned_dict; auto.
  eapply (exec_invariant Hwf); eauto. apply invariant_initial.
Qed.

Lemma calc_dvhs_returns (dict_roi : pydict V) dose_limit :
  dict_wf dict_roi ->
  exists schedule res,
    calc_dvhs get_dvh dict_roi dose_limit schedule = Some res.
Proof.
  intros Hwf.
  destruct (exec_completes Hwf (invariant_initial get_dvh _))
    as (schedule & s & Hrun & Hret).
  exists schedule, (dict_dvh s). unfold calc_dvhs.
  now rewrite Hrun, Hret.
Qed.

Lemma dict_get_graph (g : Z -> H) (ks : list Z) (k : Z) :
  dict_get k (map (fun roi => (roi, g roi)) ks)
  = if in_dec Z.eq_dec k ks then Some (g k) else None.
Proof.
  induction ks as [|k0 ks IH]; simpl; auto.
  destruct (Z.eqb_spec k k0) as [->|Hne].
  - destruct (Z.eq_dec k0 k0); [reflexivity | congruence].
  - rewrite IH. destruct (Z.eq_dec k0 k); [congruence|].
    destruct (in_dec Z.eq_dec k ks); reflexivity.
Qed.
End EngineResults.

(** C2.  For a dictionary of N ROIs, [calc_dvhs] returns (some execution
    reaches the [return], every execution that has started can be
    continued up to it, and no execution has more than 5N+3 moves), and
    whatever the order in which the workers deliver, the returned mapping
    has exactly N keys, no key twice, and a ROI number is a key of it
    exactly when it was requested. *)
Theorem calc_dvhs_keys (H V : Type) (get_dvh : Z -> option Q -> H)
  (dict_roi : pydict V) (dose_limit : option Q) :
  dict_wf dict_roi ->
  (exists schedule dict_dvh,
     Engine.calc_dvhs get_dvh dict_roi dose_limit schedule = Some dict_dvh)
  /\ (forall schedule s,
        Engine.exec get_dvh (dict_keys dict_roi) schedule (Engine.initial H)
        = Some s ->
        exists schedule' dict_dvh,
          Engine.calc_dvhs get_dvh dict_roi dose_limit (schedule ++ schedule')
          = Some dict_dvh)
  /\ (forall schedule s,
        Engine.exec get_dvh (dict_keys dict_roi) schedule (Engine.initial H)
        = Some s ->
        length schedule <= 5 * length dict_roi + 3)
  /\ (forall schedule dict_dvh,
        Engine.calc_dvhs get_dvh dict_roi dose_limit schedule = Some dict_dvh ->
        length dict_dvh = length dict_roi
        /\ NoDup (dict_keys dict_dvh)
        /\ forall roi, In roi (dict_keys dict_dvh) <-> In roi (dict_keys dict_roi)).
Proof.
  intros Hwf. split; [|split; [|split]].
  - now apply calc_dvhs_returns.
  - intros schedule s Hrun.
    assert (Hinv : Engine.invariant get_dvh (dict_keys dict_roi) s).
    { eapply (exec_invariant Hwf); eauto. apply invariant_initial. }
    destruct (exec_completes Hwf Hinv) as (schedule' & s' & Hrun' & Hret).
    exists schedule', (Engine.dict_dvh s'). unfold Engine.calc_dvhs.
    now rewrite exec_app, Hrun, Hrun', Hret.
  - intros schedule s Hrun. apply exec_length in Hrun.
    unfold Engine.measure in Hrun. simpl in Hrun.
    unfold dict_keys in Hrun. rewrite length_map in Hrun. lia.
  - intros schedule dict_dvh Hres.
    destruct (calc_dvhs_result _ _ _ Hwf Hres) as [Hperm _].
    split; [|split].
    + apply Permutation_length in Hperm.
      unfold dict_keys in Hperm. now rewrite !length_map in Hperm.
    + eapply Permutation_NoDup; [symmetry; exact Hperm | exact Hwf].
    + intros roi. split; apply Permutation_in; [|symmetry]; exact Hperm.
Qed.

(** C8.  Two dictionaries with the same ROI numbers in any order, and any
    two orders of arrival of the results: the returned mappings associate
    the same ROI numbers with the same histograms. *)
Theorem calc_dvhs_order_independent (H V : Type)
  (get_dvh : Z -> option Q -> H) (dict_roi1 dict_roi2 : pydict V)
  (dose_limit : option Q) (schedule1 schedule2 : list Engine.action)
  (dict_dvh1 dict_dvh2 : pydict H) :
  dict_wf dict_roi1 ->
  Permutation (dict_keys dict_roi1) (dict_keys dict_roi2) ->
  Engine.calc_dvhs get_dvh dict_roi1 dose_limit schedule1 = Some dict_dvh1 ->
  Engine.calc_dvhs get_dvh dict_roi2 dose_limit schedule2 = Some dict_dvh2 ->
  (forall roi, dict_get roi dict_dvh1 = dict_get roi dict_dvh2)
  /\ Permutation dict_dvh1 dict_dvh2.
Proof.
  intros Hwf1 Hperm Hres1 Hres2.
  assert (Hwf2 : dict_wf dict_roi2)
    by (eapply Permutation_NoDup; [exact Hperm | exact Hwf1]).
  destruct (calc_dvhs_result _ _ _ Hwf1 Hres1) as [Hk1 E1].
  destruct (calc_dvhs_result _ _ _ Hwf2 Hres2) as [Hk2 E2].
  assert (Hk : Permutation (dict_keys dict_dvh1) (dict_keys dict_dvh2)).
  { rewrite Hk1, Hperm. now symmetry. }
  split.
  - intros roi. rewrite E1, E2, !dict_get_graph.
    destruct (in_dec Z.eq_dec roi (dict_keys dict_dvh1)) as [Hin|Hnin];
      destruct (in_dec Z.eq_dec roi (dict_keys dict_dvh2)) as [Hin'|Hnin'];
      auto; exfalso.
    + apply Hnin'. eapply Permutation_in; eauto.
    + apply Hnin. eapply Permutation_in; [symmetry|]; eauto.
  - rewrite E1, E2. now apply Permutation_map.
Qed.

Lemma example_dict_roi_wf : dict_wf example_dict_roi.
Proof. repeat constructor; simpl; intuition discriminate. Qed.

(** Three ROIs whose results arrive in the order 3, 2, 1. *)
Lemma calc_dvhs_keys_witness :
  let dict_dvh :=
    map (fun roi => (roi, example_get_dvh roi None)) [3; 2; 1]%Z in
  Engine.calc_dvhs example_get_dvh example_dict_roi None
    (Engine.reversed_schedule 3) = Some dict_dvh
  /\ length dict_dvh = 3
  /\ NoDup (dict_keys dict_dvh).
Proof.
  intros dict_dvh.
  assert (E : Engine.calc_dvhs example_get_dvh example_dict_roi None
                (Engine.reversed_schedule 3) = Some dict_dvh)
    by (vm_compute; reflexivity).
  split; [exact E|].
  destruct (proj2 (proj2 (proj2 (@calc_dvhs_keys DVH unit example_get_dvh
                                   example_dict_roi None example_dict_roi_wf)))
              _ _ E) as (Hlen & Hnd & _).
  split; assumption.
Defined.

(** The same ROIs listed in two orders and delivered in two orders. *)
Lemma calc_dvhs_order_independent_witness :
  let dict_dvh1 :=
    map (fun roi => (roi, example_get_dvh roi None)) [1; 2; 3]%Z in
  let dict_dvh2 :=
    map (fun roi => (roi, example_get_dvh roi None)) [2; 1; 3]%Z in
  Engine.calc_dvhs example_get_dvh example_dict_roi None
    (Engine.eager_schedule 3) = Some dict_dvh1
  /\ Engine.calc_dvhs example_get_dvh example_dict_roi' None
       (Engine.reversed_schedule 3) = Some dict_dvh2
  /\ (forall roi, dict_get roi dict_dvh1 = dict_get roi dict_dvh2)
  /\ Permutation dict_dvh1 dict_dvh2.
Proof.
  intros dict_dvh1 dict_dvh2.
  assert (E1 : Engine.calc_dvhs example_get_dvh example_dict_roi None
                 (Engine.eager_schedule 3) = Some dict_dvh1)
    by (vm_compute; reflexivity).
  assert (E2 : Engine.calc_dvhs example_get_dvh example_dict_roi' None
                 (Engine.reversed_schedule 3) = Some dict_dvh2)
    by (vm_compute; reflexivity).
  split; [exact E1|]. split; [exact E2|].
  refine (calc_dvhs_order_independent _ _ _ _ _ example_dict_roi_wf _ E1 E2).
  apply perm_trans with [(1:Z); 3; 2]%Z.
  - apply perm_skip, perm_swap.
  - apply perm_swap.
Defined.

(** ROI number 1 is declared twice; the entry is the one of the third
    element. *)
Lemma get_roi_info_last_wins_witness :
  dict_get 1%Z (get_roi_info example_sequence)
  = Some {| uid := "1.2.3"; name := "LUNG"; algorithm := "SEMIAUTOMATIC" |}
  /\ dict_keys (get_roi_info example_sequence) = [1; 2]%Z.
Proof.
  split; [|reflexivity].
  apply (proj1 (proj2 (proj2 (get_roi_info_last_wins example_sequence)))
           (firstn 2 example_sequence)
           {| ROINumber := 1; ReferencedFrameOfReferenceUID := "1.2.3";
              ROIName := "LUNG"; ROIGenerationAlgorithm := "SEMIAUTOMATIC" |}
           []).
  - reflexivity.
  - intros s' [].
Defined.

(** ** The exporter: [dvh2csv] *)

Ltac divmod10 e :=
  pose proof (Nat.div_mod_eq e 10);
  pose proof (Nat.mod_upper_bound e 10 (Nat.neq_succ_0 9)).

Section Sampling.
Implicit Types (n m i k : nat) (dose : list float).

Lemma py_range_0_10 n :
  py_range 0 n 10 = map (fun k => k * 10) (seq 0 ((n + 9) / 10)).
Proof. unfold py_range. now rewrite Nat.sub_0_r. Qed.

(** [range(0, n, 10)] are the multiples of 10 below [n]. *)
Lemma py_range_multiples n :
  py_range 0 n 10 = filter (fun i => i mod 10 =? 0) (seq 0 n).
Proof.
  rewrite py_range_0_10.
  induction n as [|n IH].
  - reflexivity.
  - rewrite seq_S, filter_app, <- IH.
    change (0 + n) with n. cbn [filter].
    destruct (Nat.eqb_spec (n mod 10) 0) as [Hz|Hnz].
    + replace ((S n + 9) / 10) with (S ((n + 9) / 10))
        by (divmod10 n; divmod10 (n + 9); divmod10 (S n + 9); lia).
      rewrite seq_S, map_app. cbn [map Nat.add]. do 2 f_equal.
      divmod10 n; divmod10 (n + 9); lia.
    + replace ((S n + 9) / 10) with ((n + 9) / 10)
        by (divmod10 n; divmod10 (n + 9); divmod10 (S n + 9); lia).
      now rewrite app_nil_r.
Qed.

Lemma py_range_length n : length (py_range 0 n 10) = (n + 9) / 10.
Proof. now rewrite py_range_0_10, length_map, length_seq. Qed.

Lemma py_range_lt n i : In i (py_range 0 n 10) -> i < n.
Proof.
  rewrite py_range_multiples, filter_In, in_seq. lia.
Qed.

(** The largest sampled index is ten times the number of samples less
    one. *)
Lemma py_range_max n :
  list_max (py_range 0 n 10) = 10 * (length (py_range 0 n 10) - 1).
Proof.
  rewrite py_range_length, py_range_0_10.
  induction ((n + 9) / 10) as [|c IH]; [reflexivity|].
  rewrite seq_S, map_app, list_max_app, IH. simpl. lia.
Qed.

Lemma getitem_lt {A} (a : list A) i (d : A) :
  i < length a -> getitem a i = inr (nth i a d).
Proof.
  intros Hi. unfold getitem. now rewrite (nth_error_nth' a d Hi).
Qed.

(** The inner loop on indices that are all in range. *)
Lemma sample_loop dose (indices : list nat) :
  (forall i, In i indices -> i < length dose) ->
  forall st : list cell * nat,
    for_each indices
      (fun i st =>
         (x <- getitem dose i ;;
          ret (fst st ++ [CNum x], if snd st <? i then i else snd st))%result)
      st
    = inr (fst st ++ map (fun i => CNum (nth i dose 0%float)) indices,
           Nat.max (snd st) (list_max indices)).
Proof.
  induction indices as [|i indices IH]; intros Hin [row mx]; simpl.
  - now rewrite app_nil_r, Nat.max_0_r.
  - rewrite (getitem_lt dose 0%float) by (apply Hin; now left). simpl.
    rewrite IH by (intros; apply Hin; now right). simpl.
    rewrite <- app_assoc. simpl. do 2 f_equal.
    destruct (Nat.ltb_spec mx i); lia.
Qed.

Lemma sample_dose_eq dose (st : list cell * nat) :
  sample_dose dose st
  = inr (fst st ++ map (fun i => CNum (nth i dose 0%float)) (spec_sampled_indices dose),
         Nat.max (snd st) (list_max (spec_sampled_indices dose))).
Proof.
  unfold sample_dose, spec_sampled_indices.
  rewrite <- py_range_multiples. apply sample_loop.
  intros i. apply py_range_lt.
Qed.

(** The outer loop never raises; it returns one row per ROI, in order, and
    the largest sampled index. *)
Lemma dvh2csv_rows_loop (dict_dvh : pydict DVH) patient_id :
  forall st : list (list cell) * nat,
    for_each dict_dvh
      (fun item st =>
         let dvh := snd item in
         let dvh_roi_list :=
           [CStr patient_id; CStr (dvh_name dvh); CNum (dvh_volume dvh)] in
         (r <- sample_dose (relative_volume_counts dvh) (dvh_roi_list, snd st) ;;
          ret (fst st ++ [fst r], snd r))%result)
      st
    = inr (fst st ++ map (fun item => sampled_row patient_id (snd item)) dict_dvh,
           Nat.max (snd st)
             (list_max
                (flat_map
                   (fun item => spec_sampled_indices (relative_volume_counts (snd item)))
                   dict_dvh))).
Proof.
  induction dict_dvh as [|[roi dvh] d IH]; intros [rows mx]; simpl.
  - now rewrite app_nil_r, Nat.max_0_r.
  - rewrite sample_dose_eq. simpl. rewrite IH. simpl.
    rewrite <- app_assoc, list_max_app. simpl. do 2 f_equal. lia.
Qed.

Lemma dvh2csv_rows_eq (dict_dvh : pydict DVH) patient_id :
  dvh2csv_rows dict_dvh patient_id
  = inr (map (fun item => sampled_row patient_id (snd item)) dict_dvh,
         spec_global_max dict_dvh).
Proof. unfold dvh2csv_rows. now rewrite dvh2csv_rows_loop. Qed.

Lemma csv_header_spec m : csv_header m = spec_header m.
Proof. unfold csv_header, spec_header. now rewrite py_range_multiples. Qed.
End Sampling.

Section Rounding.
Implicit Types (x y : float) (c : cell).

Lemma power_of_ten_2 : power_of_ten 2 = 100%float.
Proof. reflexivity. Qed.

Lemma np_round_2 x : np_round 2 x = (rint (x * 100) / 100)%float.
Proof. reflexivity. Qed.

(** A missing value stays missing under rounding, and is written as
    [0.0]. *)
Lemma written_nan : written nan = 0%float.
Proof. reflexivity. Qed.

Lemma written_zero : written 0 = 0%float.
Proof. reflexivity. Qed.

(** What is filled is not missing. *)
Lemma fillna_filled x : is_nan (fillna 0 x) = false.
Proof. unfold fillna. destruct (is_nan x) eqn:E; [reflexivity | exact E]. Qed.

Lemma written_filled x : filled (CNum (written x)).
Proof. apply fillna_filled. Qed.

Lemma written_rounded x : rounded2 (CNum (written x)).
Proof.
  unfold written, fillna. simpl.
  destruct (is_nan (np_round 2 x)); [exists 0%float | exists x]; reflexivity.
Qed.

(** Ties go to the even neighbour, and the arithmetic is that of
    [float64]: [2.675] is the float below the decimal, its hundredfold is
    the float [267.5], and what is written is [2.68]. *)
Example rint_ties :
  rint 2.5 = 2%float /\ rint 3.5 = 4%float /\ rint (-2.5) = (-2)%float
  /\ rint (-0.25) = (-0)%float /\ rint 0x1p52 = 0x1p52%float
  /\ rint infinity = infinity /\ is_nan (rint nan) = true
  /\ np_round 2 0.125 = 0.12%float /\ np_round 2 0.375 = 0.38%float
  /\ (2.675 * 100 = 267.5)%float /\ np_round 2 2.675 = 2.68%float
  /\ np_round 2 1e307 = infinity.
Proof. repeat split. Qed.
End Rounding.

Section Table.
Implicit Types (dict_dvh : pydict DVH) (dvh : DVH) (row : list cell).

Lemma list_max_cons x l : list_max (x :: l) = Nat.max x (list_max l).
Proof. reflexivity. Qed.

Lemma samples_length dvh roi :
  samples (roi, dvh) = (length (relative_volume_counts dvh) + 9) / 10.
Proof.
  unfold samples, spec_sampled_indices.
  now rewrite <- py_range_multiples, py_range_length.
Qed.

Lemma sampled_row_length patient_id item :
  length (sampled_row patient_id (snd item)) = 3 + samples item.
Proof. unfold sampled_row, samples. simpl. now rewrite length_map. Qed.

(** The largest sampled index in terms of the longest sample series. *)
Lemma spec_global_max_samples dict_dvh :
  spec_global_max dict_dvh = 10 * (list_max (map samples dict_dvh) - 1).
Proof.
  unfold spec_global_max.
  induction dict_dvh as [|[roi dvh] d IH]; [reflexivity|].
  cbn [flat_map map]. rewrite list_max_app, list_max_cons, IH.
  rewrite samples_length. cbn [snd]. unfold spec_sampled_indices.
  rewrite <- py_range_multiples, py_range_max, py_range_length. lia.
Qed.

Lemma spec_header_length m : length (spec_header m) = 3 + (m / 10 + 1).
Proof.
  unfold spec_header.
  rewrite length_app, length_map, <- py_range_multiples, py_range_length.
  cbn [length]. divmod10 m. divmod10 (m + 1 + 9). lia.
Qed.

Lemma rows_width patient_id dict_dvh :
  dict_dvh <> [] ->
  list_max (map (@length cell)
              (map (fun item => sampled_row patient_id (snd item)) dict_dvh))
  = 3 + list_max (map samples dict_dvh).
Proof.
  induction dict_dvh as [|item d IH]; [congruence|]. intros _.
  cbn [map]. rewrite !list_max_cons, sampled_row_length.
  destruct d as [|item' d]; [simpl; lia|].
  rewrite IH by discriminate. lia.
Qed.

(** Some ROI has a sample exactly when the longest series is not empty. *)
Lemma some_samples dict_dvh :
  (exists roi dvh, In (roi, dvh) dict_dvh /\ relative_volume_counts dvh <> []) ->
  1 <= list_max (map samples dict_dvh).
Proof.
  intros (roi & dvh & Hin & Hne).
  assert (Hle : samples (roi, dvh) <= list_max (map samples dict_dvh)).
  { assert (Hall := proj1 (list_max_le (map samples dict_dvh) _) (Nat.le_refl _)).
    rewrite Forall_forall in Hall. apply Hall.
    apply in_map_iff. eauto. }
  rewrite samples_length in Hle.
  destruct (relative_volume_counts dvh) as [|x l]; [congruence|].
  simpl length in Hle. divmod10 (S (length l) + 9). lia.
Qed.

Lemma to_front_0 {A} (l : list A) : to_front 0 l = l.
Proof. now destruct l. Qed.

(** What rounding and filling make of a padded row. *)
Lemma exported_row_eq width patient_id dvh :
  map (fun c => match c with CNum x => CNum (fillna 0 x) | _ => c end)
    (map (fun c => match c with CNum x => CNum (np_round 2 x) | _ => c end)
       (pad_row width (sampled_row patient_id dvh)))
  = exported_row width patient_id dvh.
Proof.
  unfold pad_row, exported_row, sampled_row.
  rewrite !map_app, !map_map, !map_repeat.
  change (CNum (fillna 0 (np_round 2 nan))) with (CNum (written nan)).
  rewrite written_nan. cbn [map app length].
  rewrite length_map. do 5 f_equal. lia.
Qed.

Lemma index_of_header m : index_of "Patient ID" (spec_header m) = Some 0.
Proof. reflexivity. Qed.

(** [dvh2csv] is the [DataFrame] constructor on the sampled rows and the
    header, followed by cell-wise rounding and filling. *)
Lemma dvh2csv_eq writable dict_dvh path csv_name patient_id :
  dvh2csv writable dict_dvh path csv_name patient_id
  = match pd_DataFrame
            (map (fun item => sampled_row patient_id (snd item)) dict_dvh)
            (spec_header (spec_global_max dict_dvh)) with
    | inl e => inl e
    | inr df =>
        to_csv writable
          {| df_columns := spec_header (spec_global_max dict_dvh);
             df_rows :=
               map (fun row =>
                      map (fun c => match c with
                                    | CNum x => CNum (fillna 0 x)
                                    | _ => c
                                    end)
                        (map (fun c => match c with
                                       | CNum x => CNum (np_round 2 x)
                                       | _ => c
                                       end) row))
                 (df_rows df) |}
          (path ++ csv_name ++ ".csv")%string
    end.
Proof.
  unfold dvh2csv. rewrite dvh2csv_rows_eq. cbn [bind fst snd].
  rewrite csv_header_spec.
  destruct (pd_DataFrame _ _) as [e|df] eqn:E; cbn [bind]; [reflexivity|].
  assert (Hcols : df_columns df = spec_header (spec_global_max dict_dvh)).
  { unfold pd_DataFrame in E.
    destruct (map _ dict_dvh); [now injection E as <-|].
    destruct (Nat.eqb _ _); [now injection E as <-|discriminate]. }
  unfold set_index, df_fillna, df_round, map_cells. cbn [df_columns df_rows].
  rewrite Hcols, index_of_header. unfold ret, bind.
  rewrite to_front_0. do 2 f_equal.
  rewrite !map_map. apply map_ext. intros row. apply to_front_0.
Qed.
End Table.

Section Exporter.
Implicit Types (dict_dvh : pydict DVH) (dvh : DVH) (row : list cell).

(** With a sample somewhere the header is as wide as the widest row. *)
Lemma header_width dict_dvh :
  (exists roi dvh, In (roi, dvh) dict_dvh /\ relative_volume_counts dvh <> []) ->
  length (spec_header (spec_global_max dict_dvh))
  = 3 + list_max (map samples dict_dvh).
Proof.
  intros Hsome. apply some_samples in Hsome.
  rewrite spec_header_length, spec_global_max_samples.
  remember (list_max (map samples dict_dvh)) as n.
  divmod10 (10 * (n - 1)). lia.
Qed.

Lemma samples_le_header dict_dvh roi dvh :
  In (roi, dvh) dict_dvh ->
  3 + samples (roi, dvh) <= length (spec_header (spec_global_max dict_dvh)).
Proof.
  intros Hin.
  assert (Hle : samples (roi, dvh) <= list_max (map samples dict_dvh)).
  { assert (Hall := proj1 (list_max_le (map samples dict_dvh) _) (Nat.le_refl _)).
    rewrite Forall_forall in Hall. apply Hall.
    apply in_map_iff. eauto. }
  rewrite spec_header_length, spec_global_max_samples.
  remember (list_max (map samples dict_dvh)) as n.
  divmod10 (10 * (n - 1)). lia.
Qed.

Lemma pd_DataFrame_rows dict_dvh patient_id :
  dict_dvh = []
  \/ (exists roi dvh, In (roi, dvh) dict_dvh /\ relative_volume_counts dvh <> []) ->
  let header := spec_header (spec_global_max dict_dvh) in
  let rows := map (fun item => sampled_row patient_id (snd item)) dict_dvh in
  pd_DataFrame rows header
  = inr {| df_columns := header;
           df_rows := map (pad_row (length header)) rows |}.
Proof.
  intros [->|Hsome] header rows; [reflexivity|].
  assert (Hne : dict_dvh <> []).
  { destruct Hsome as (roi & dvh & Hin & _). now destruct dict_dvh. }
  assert (Hwidth : list_max (map (@length cell) rows) = length header).
  { unfold rows, header. now rewrite rows_width, header_width. }
  unfold pd_DataFrame.
  destruct rows as [|row rows'] eqn:Erows.
  - destruct dict_dvh; [congruence | discriminate].
  - rewrite Hwidth, Nat.eqb_refl. reflexivity.
Qed.

Lemma exported_row_length width patient_id roi dvh :
  3 + samples (roi, dvh) <= width ->
  length (exported_row width patient_id dvh) = width.
Proof.
  unfold exported_row, samples. cbn [snd]. intros Hle.
  rewrite !length_app, length_map, repeat_length. cbn [length]. lia.
Qed.

Lemma exported_row_cells width patient_id dvh c :
  In c (exported_row width patient_id dvh) -> filled c /\ rounded2 c.
Proof.
  unfold exported_row. rewrite !in_app_iff, in_map_iff.
  intros [Hc|[(i & <- & _)|Hc]].
  - destruct Hc as [<-|[<-|[<-|[]]]];
      (split; [try exact I; apply written_filled
              | try exact I; apply written_rounded]).
  - split; [apply written_filled | apply written_rounded].
  - apply repeat_spec in Hc. subst c. rewrite <- written_zero.
    split; [apply written_filled | apply written_rounded].
Qed.

(** The table [dvh2csv] writes. *)
Lemma dvh2csv_table writable dict_dvh path csv_name patient_id :
  dict_dvh = []
  \/ (exists roi dvh, In (roi, dvh) dict_dvh /\ relative_volume_counts dvh <> []) ->
  let header := spec_header (spec_global_max dict_dvh) in
  dvh2csv writable dict_dvh path csv_name patient_id
  = to_csv writable
      {| df_columns := header;
         df_rows :=
           map (fun item => exported_row (length header) patient_id (snd item))
             dict_dvh |}
      (path ++ csv_name ++ ".csv")%string.
Proof.
  intros Hd header.
  rewrite dvh2csv_eq, (pd_DataFrame_rows patient_id Hd).
  cbn [df_rows]. do 2 f_equal.
  rewrite !map_map. apply map_ext. intros [roi dvh]. cbn [snd].
  apply exported_row_eq.
Qed.

Lemma to_csv_writable writable df path :
  writable path = true -> to_csv writable df path = inr (path, df).
Proof. unfold to_csv. now intros ->. Qed.
End Exporter.

(** C5 as the code has it.  The list [csv_header] is ['Patient ID'],
    ['ROI'], ['Volume (mL)'] followed by one ["<k>cGy"] for every multiple
    of 10 from 0 up to the largest index sampled over all ROIs (0 when
    nothing is sampled), and a table that is written has it as its header.
    When some histogram has a relative-volume count and the target can be
    written, the exporter does write a table, with that header; for a
    single ROI whose relative-volume counts have length 25 the columns are
    the three fixed ones and [0cGy], [10cGy], [20cGy]. *)
Theorem dvh2csv_header_columns (writable : string -> bool)
  (dict_dvh : pydict DVH) (path csv_name patient_id : string) :
  dvh2csv_header dict_dvh patient_id
  = inr (spec_header (spec_global_max dict_dvh))
  /\ (forall file,
        dvh2csv writable dict_dvh path csv_name patient_id = inr file ->
        df_columns (snd file) = spec_header (spec_global_max dict_dvh))
  /\ ((exists roi dvh,
         In (roi, dvh) dict_dvh /\ relative_volume_counts dvh <> []) ->
      writable (path ++ csv_name ++ ".csv")%string = true ->
      exists table,
        dvh2csv writable dict_dvh path csv_name patient_id
        = inr ((path ++ csv_name ++ ".csv")%string, table)
        /\ df_columns table = spec_header (spec_global_max dict_dvh))
  /\ (forall roi dvh,
        dict_dvh = [(roi, dvh)] ->
        length (relative_volume_counts dvh) = 25 ->
        writable (path ++ csv_name ++ ".csv")%string = true ->
        exists table,
          dvh2csv writable dict_dvh path csv_name patient_id
          = inr ((path ++ csv_name ++ ".csv")%string, table)
          /\ df_columns table
             = ["Patient ID"; "ROI"; "Volume (mL)";
                "0cGy"; "10cGy"; "20cGy"]%string).
Proof.
  assert (Hheader : dvh2csv_header dict_dvh patient_id
                    = inr (spec_header (spec_global_max dict_dvh))).
  { unfold dvh2csv_header. rewrite dvh2csv_rows_eq. cbn [bind snd].
    now rewrite csv_header_spec. }
  assert (Hwritten : (exists roi dvh,
                        In (roi, dvh) dict_dvh
                        /\ relative_volume_counts dvh <> []) ->
                     writable (path ++ csv_name ++ ".csv")%string = true ->
                     exists table,
                       dvh2csv writable dict_dvh path csv_name patient_id
                       = inr ((path ++ csv_name ++ ".csv")%string, table)
                       /\ df_columns table
                          = spec_header (spec_global_max dict_dvh)).
  { intros Hsome Hw.
    rewrite (dvh2csv_table writable path csv_name patient_id (or_intror Hsome)).
    rewrite (to_csv_writable _ _ _ Hw). eexists. split; reflexivity. }
  split; [exact Hheader | split; [|split; [exact Hwritten|]]].
  - intros file. rewrite dvh2csv_eq.
    destruct (pd_DataFrame _ _); [discriminate|]. unfold to_csv.
    destruct (writable _); [|discriminate]. now intros [= <-].
  - intros roi dvh Hd Hlen Hw.
    destruct Hwritten as (table & Hrun & Hcols); [|exact Hw|].
    + exists roi, dvh. rewrite Hd. split; [now left|].
      intros Hnil. now rewrite Hnil in Hlen.
    + exists table. split; [exact Hrun|]. rewrite Hcols, Hd.
      unfold spec_global_max, spec_sampled_indices. cbn [flat_map snd].
      rewrite Hlen. reflexivity.
Qed.

(** C6 as the code has it.  For a collection that is empty or has a
    histogram with at least one relative-volume count, and a target that
    can be written, the exporter writes a table; the row of every ROI has
    as many cells as the header has columns; it holds the patient id, the
    name, the rounded volume, the rounded samples and [0.0] in every column
    past its samples; no cell is missing and every number is one that
    numpy's rounding to two decimals gives. *)
Theorem dvh2csv_rectangular (writable : string -> bool) (dict_dvh : pydict DVH)
  (path csv_name patient_id : string) :
  dict_dvh = []
  \/ (exists roi dvh, In (roi, dvh) dict_dvh /\ relative_volume_counts dvh <> []) ->
  writable (path ++ csv_name ++ ".csv")%string = true ->
  exists table,
    dvh2csv writable dict_dvh path csv_name patient_id
    = inr ((path ++ csv_name ++ ".csv")%string, table)
    /\ df_columns table = spec_header (spec_global_max dict_dvh)
    /\ df_rows table
       = map (fun item =>
                exported_row (length (df_columns table)) patient_id (snd item))
           dict_dvh
    /\ (forall row, In row (df_rows table) ->
          length row = length (df_columns table))
    /\ (forall row c, In row (df_rows table) -> In c row ->
          filled c /\ rounded2 c).
Proof.
  intros Hd Hw.
  set (header := spec_header (spec_global_max dict_dvh)).
  set (rows := map (fun item => exported_row (length header) patient_id (snd item))
                 dict_dvh).
  exists {| df_columns := header; df_rows := rows |}.
  assert (Hrun : dvh2csv writable dict_dvh path csv_name patient_id
                 = inr ((path ++ csv_name ++ ".csv")%string,
                        {| df_columns := header; df_rows := rows |})).
  { rewrite (dvh2csv_table writable path csv_name patient_id Hd).
    now apply to_csv_writable. }
  cbn [df_columns df_rows].
  split; [exact Hrun | split; [reflexivity | split; [reflexivity | split]]].
  - intros row Hin. apply in_map_iff in Hin.
    destruct Hin as ([roi dvh] & <- & Hin). cbn [snd].
    apply exported_row_length with (roi := roi).
    now apply samples_le_header.
  - intros row c Hin Hc. apply in_map_iff in Hin.
    destruct Hin as ([roi dvh] & <- & Hin).
    eapply exported_row_cells; eauto.
Qed.

(** The second scenario of the specification, on the exporter itself. *)
Lemma dvh2csv_header_columns_witness :
  exists table,
    dvh2csv tmp_writable [(1%Z, histogram25)] "/tmp/" "dvh" "P1"
    = inr ("/tmp/dvh.csv"%string, table)
    /\ df_columns table
       = ["Patient ID"; "ROI"; "Volume (mL)"; "0cGy"; "10cGy"; "20cGy"]%string.
Proof.
  exact (proj2 (proj2 (proj2
           (dvh2csv_header_columns tmp_writable [(1%Z, histogram25)]
              "/tmp/" "dvh" "P1")))
           1%Z histogram25 eq_refl eq_refl eq_refl).
Defined.

(** The third scenario of the specification: the header comes from the
    ROI of length 35, the row of the ROI of length 5 is filled up, the
    float [2.675] is written as [2.68], the tie [0.125] as [0.12], and the
    missing sample as [0.0]. *)
Lemma dvh2csv_rectangular_witness :
  exists table,
    dvh2csv tmp_writable export_scenario "/tmp/" "dvh" "P1"
    = inr ("/tmp/dvh.csv"%string, table)
    /\ df_columns table
       = ["Patient ID"; "ROI"; "Volume (mL)";
          "0cGy"; "10cGy"; "20cGy"; "30cGy"]%string
    /\ df_rows table
       = [ [CStr "P1"; CStr "PTV"; CNum 1234.57;
            CNum 100; CNum 0; CNum 0; CNum 0];
           [CStr "P1"; CStr "BODY"; CNum 0.62;
            CNum 100; CNum 2.68; CNum 0.12; CNum 0] ]
    /\ (forall row, In row (df_rows table) -> length row = 7)
    /\ (forall row c, In row (df_rows table) -> In c row -> filled c).
Proof.
  destruct (@dvh2csv_rectangular tmp_writable export_scenario "/tmp/" "dvh" "P1")
    as (table & Hrun & Hcols & Hrows & Hrect & Hcells).
  - right. eexists 1%Z, _. split; [left; reflexivity | discriminate].
  - reflexivity.
  - exists table. split; [exact Hrun|].
    split; [rewrite Hcols; reflexivity|].
    split; [rewrite Hrows, Hcols; reflexivity|].
    split.
    + intros row Hin. rewrite (Hrect row Hin), Hcols. reflexivity.
    + intros row c Hin Hc. exact (proj1 (Hcells row c Hin Hc)).
Defined.

(** The run of the scenario, and the same export to a directory that does
    not exist. *)
Example dvh2csv_export_scenario :
  dvh2csv tmp_writable export_scenario "/tmp/" "dvh" "P1"
  = inr ("/tmp/dvh.csv"%string,
         {| df_columns :=
              ["Patient ID"; "ROI"; "Volume (mL)";
               "0cGy"; "10cGy"; "20cGy"; "30cGy"]%string;
            df_rows :=
              [ [CStr "P1"; CStr "PTV"; CNum 1234.57;
                 CNum 100; CNum 0; CNum 0; CNum 0];
                [CStr "P1"; CStr "BODY"; CNum 0.62;
                 CNum 100; CNum 2.68; CNum 0.12; CNum 0] ] |})
  /\ dvh2csv tmp_writable export_scenario "/nonexistent_dir/" "dvh" "P1"
     = inl OSError.
Proof. vm_compute. split; reflexivity. Qed.

(** C5 as the specification words it fails on a collection that is not
    empty and has no relative-volume count at all: no index is sampled,
    the list [csv_header] ends in [0cGy] all the same, and no table, hence
    no header, is written, whatever the target. *)
Lemma dvh2csv_no_sample_no_header :
  spec_sampled_indices (relative_volume_counts empty_histogram) = []
  /\ dvh2csv_header [(1%Z, empty_histogram); (2%Z, empty_histogram)] "P1"
     = inr ["Patient ID"; "ROI"; "Volume (mL)"; "0cGy"]%string
  /\ forall writable path csv_name,
       dvh2csv writable [(1%Z, empty_histogram); (2%Z, empty_histogram)]
         path csv_name "P1"
       = inl ValueError.
Proof. repeat split. Qed.

(** C6 as the specification words it fails on a collection whose only
    histogram has no relative-volume count: the row has three cells, the
    header four columns, and the [DataFrame] constructor refuses them, so
    that no table is written. *)
Lemma dvh2csv_empty_counts_refused :
  dvh2csv_rows [(1%Z, empty_histogram)] "P1"
  = inr ([[CStr "P1"; CStr ""; CNum 0]], 0)
  /\ dvh2csv_header [(1%Z, empty_histogram)] "P1"
     = inr ["Patient ID"; "ROI"; "Volume (mL)"; "0cGy"]%string
  /\ forall writable path csv_name,
       dvh2csv writable [(1%Z, empty_histogram)] path csv_name "P1"
       = inl ValueError.
Proof. repeat split. Qed.

(** ** The normalizer on the store: what it leaves alone *)

Create HintDb keeps.

Section StoreFacts.
Import Store.
Local Open Scope store_scope.
Variable h0 : store.
Implicit Types (h : store) (l d e v : loc) (o : object).

Lemma invariant_length h : invariant h0 h -> length h0 < length h.
Proof.
  intros (_ & items & Hres & _). apply nth_error_Some. congruence.
Qed.

Lemma keeps_ret {A} (a : A) (Q : A -> Prop) : Q a -> keeps h0 (mret a) Q.
Proof. intros HQ h Hinv. split; [exact Hinv | now intros a' [= <-]]. Qed.

Lemma keeps_raise {A} (e : exn) (Q : A -> Prop) : keeps h0 (mraise e) Q.
Proof. intros h Hinv. split; [exact Hinv | discriminate]. Qed.

Lemma keeps_bind {A B} (m : M A) (k : A -> M B) (Q : A -> Prop) (R : B -> Prop) :
  keeps h0 m Q -> (forall a, Q a -> keeps h0 (k a) R) ->
  keeps h0 (x <- m ;; k x) R.
Proof.
  intros Hm Hk h Hinv. unfold mbind.
  destruct (Hm h Hinv) as [Hinv' HQ].
  destruct (m h) as [[e|a] h']; simpl in *.
  - split; [exact Hinv' | discriminate].
  - apply (Hk a (HQ a eq_refl) h' Hinv').
Qed.

Lemma keeps_weaken {A} (m : M A) (Q Q' : A -> Prop) :
  keeps h0 m Q -> (forall a, Q a -> Q' a) -> keeps h0 m Q'.
Proof.
  intros Hm Himp h Hinv. destruct (Hm h Hinv) as [Hinv' HQ]. split; auto.
Qed.

(** A computation that does not change the store. *)
Lemma keeps_pure {A} (m : M A) :
  (forall h, snd (m h) = h) -> keeps h0 m (fun _ => True).
Proof. intros Hpure h Hinv. rewrite Hpure. auto. Qed.

Lemma keeps_for_each {A S} (xs : list A) (body : A -> S -> M S) :
  (forall x s, keeps h0 (body x s) (fun _ => True)) ->
  forall s, keeps h0 (mfor_each xs body s) (fun _ => True).
Proof.
  intros Hbody. induction xs as [|x xs IH]; intros s; simpl.
  - now apply keeps_ret.
  - eapply keeps_bind; [apply Hbody | intros s' _; apply IH].
Qed.

(** A new object is at a new location, and nothing else moves. *)
Lemma keeps_alloc o : keeps h0 (alloc o) (fresh (length h0)).
Proof.
  intros h Hinv. pose proof (invariant_length Hinv) as Hlen.
  destruct Hinv as (Hpre & items & Hres & Hfresh).
  unfold alloc. simpl. split.
  - split.
    + rewrite firstn_app.
      replace (length h0 - length h) with 0 by lia.
      simpl. now rewrite app_nil_r.
    + exists items. split; auto. now rewrite nth_error_app1.
  - intros l [= <-]. exact Hlen.
Qed.

Lemma written_below h l o i :
  i < l -> l < length h ->
  nth_error (update l o h) i = nth_error h i.
Proof.
  intros Hi Hl. unfold update.
  rewrite nth_error_app1 by (rewrite length_firstn; lia).
  rewrite nth_error_firstn.
  destruct (Nat.ltb_spec i l); [reflexivity | lia].
Qed.

Lemma written_prefix h l o n :
  n <= l -> l < length h ->
  firstn n (update l o h) = firstn n h.
Proof.
  intros Hn Hl. unfold update. rewrite firstn_app, firstn_firstn, length_firstn.
  replace (Nat.min n l) with n by lia.
  replace (n - Nat.min l (length h)) with 0 by lia.
  simpl. apply app_nil_r.
Qed.

(** Writing at a new location keeps the objects of the caller and [res]. *)
Lemma keeps_write_fresh l o :
  fresh (length h0) l -> keeps h0 (write l o) (fun _ => True).
Proof.
  unfold fresh. intros Hl h Hinv.
  destruct Hinv as (Hpre & items & Hres & Hfresh).
  unfold write. destruct (Nat.ltb_spec l (length h)) as [Hlt|Hge]; simpl.
  - split; auto. split.
    + rewrite written_prefix by lia. exact Hpre.
    + exists items. split; auto. now rewrite written_below.
  - split; auto. split; eauto.
Qed.

(** Writing a dictionary of new locations into [res] does as well. *)
Lemma keeps_write_res items :
  (forall k l, In (k, l) items -> fresh (length h0) l) ->
  keeps h0 (write (length h0) (IntDict items)) (fun _ => True).
Proof.
  intros Hitems h Hinv. pose proof (invariant_length Hinv) as Hlen.
  destruct Hinv as (Hpre & items' & Hres & Hfresh).
  unfold write. destruct (Nat.ltb_spec (length h0) (length h)); [|lia].
  simpl. split; auto. split.
  - rewrite written_prefix by lia. exact Hpre.
  - exists items. split; auto. unfold update.
    rewrite nth_error_app2 by (rewrite length_firstn; lia).
    rewrite length_firstn.
    replace (length h0 - Nat.min (length h0) (length h)) with 0 by lia.
    reflexivity.
Qed.

Lemma keeps_setitem_res k v :
  fresh (length h0) v ->
  keeps h0 (dict_setitem (length h0) k v) (fun _ => True).
Proof.
  intros Hv h Hinv.
  destruct (Hinv) as (_ & items & Hres & Hfresh).
  unfold dict_setitem, mbind, read. rewrite Hres.
  apply keeps_write_res; auto.
  intros k' l Hin. apply dict_set_In in Hin.
  destruct Hin as [[= -> ->]|Hin]; eauto.
Qed.

Lemma keeps_getitem_res k :
  keeps h0 (dict_getitem (length h0) k) (fresh (length h0)).
Proof.
  intros h Hinv.
  destruct (Hinv) as (_ & items & Hres & Hfresh).
  unfold dict_getitem, mbind, read. rewrite Hres.
  destruct (dict_get k items) as [l|] eqn:Hget; simpl.
  - split; auto. intros a [= <-]. apply dict_get_In in Hget. eauto.
  - split; auto. discriminate.
Qed.

Lemma read_pure l h : snd (read l h) = h.
Proof. unfold read. now destruct (nth_error h l). Qed.

Lemma keeps_read l : keeps h0 (read l) (fun _ => True).
Proof. apply keeps_pure. intros h. apply read_pure. Qed.
End StoreFacts.

Section StoreNormalizer.
Import Store.
Local Open Scope store_scope.
Variable h0 : store.
Implicit Types (h : store) (l d e v a b : loc) (o : object).

Ltac destruct_innermost :=
  match goal with
  | |- context [match ?x with _ => _ end] =>
      lazymatch x with
      | context [match _ with _ => _ end] => fail
      | _ => destruct x; simpl
      end
  end.

Ltac pure_op :=
  apply keeps_pure; intros h;
  unfold array_last, array_data, dict_getitem, dict_iter,
    getattr_bincenters, getattr_counts, mbind, read, lift, mret, mraise;
  simpl; repeat destruct_innermost; reflexivity.

Lemma keeps_array_data a : keeps h0 (array_data a) (fun _ => True).
Proof. pure_op. Qed.

Lemma keeps_array_last a : keeps h0 (array_last a) (fun _ => True).
Proof. pure_op. Qed.

Lemma keeps_getattr_bincenters l :
  keeps h0 (getattr_bincenters l) (fun _ => True).
Proof. pure_op. Qed.

Lemma keeps_getattr_counts l : keeps h0 (getattr_counts l) (fun _ => True).
Proof. pure_op. Qed.

Lemma keeps_getitem d k : keeps h0 (dict_getitem d k) (fun _ => True).
Proof. pure_op. Qed.

Lemma keeps_dict_iter d : keeps h0 (dict_iter d) (fun _ => True).
Proof. pure_op. Qed.

Lemma keeps_new o : keeps h0 (alloc o) (fun _ => True).
Proof. eapply keeps_weaken; [apply keeps_alloc | auto]. Qed.

Hint Resolve keeps_array_data keeps_array_last keeps_getattr_bincenters
  keeps_getattr_counts keeps_getitem keeps_dict_iter keeps_new
  keeps_ret keeps_raise : keeps.

Ltac keeps_step :=
  first
    [ eapply keeps_bind; [solve [eauto with keeps] | intros ? _]
    | solve [eauto with keeps] ].

Lemma keeps_np_array a : keeps h0 (np_array a) (fun _ => True).
Proof. unfold np_array. repeat keeps_step. Qed.

Lemma keeps_flatten a : keeps h0 (flatten a) (fun _ => True).
Proof. unfold flatten. repeat keeps_step. Qed.

Lemma keeps_np_concatenate a b :
  keeps h0 (np_concatenate a b) (fun _ => True).
Proof. unfold np_concatenate. repeat keeps_step. Qed.

Lemma keeps_set_bincenters_item e v :
  fresh (length h0) e -> keeps h0 (set_bincenters_item e v) (fun _ => True).
Proof.
  intros He. unfold set_bincenters_item.
  eapply keeps_bind; [apply keeps_read | intros o _].
  destruct o; auto using keeps_raise, keeps_write_fresh.
Qed.

Lemma keeps_set_counts_item e v :
  fresh (length h0) e -> keeps h0 (set_counts_item e v) (fun _ => True).
Proof.
  intros He. unfold set_counts_item.
  eapply keeps_bind; [apply keeps_read | intros o _].
  destruct o; auto using keeps_raise, keeps_write_fresh.
Qed.

Hint Resolve keeps_np_array keeps_flatten keeps_np_concatenate : keeps.

(** One turn of the loop writes only to [res] and to the new dictionary
    of the ROI. *)
Lemma keeps_converge_body dict_dvh zeros roi :
  keeps h0 (converge_body dict_dvh (length h0) zeros roi) (fun _ => True).
Proof.
  unfold converge_body.
  eapply keeps_bind; [apply keeps_alloc | intros e He].
  eapply keeps_bind; [now apply keeps_setitem_res | intros _ _].
  do 3 keeps_step.
  eapply keeps_bind with (Q := fun _ => True).
  - destruct (negb _).
    + eapply keeps_bind with (Q := fun _ => True).
      * apply keeps_for_each. intros i tmp. repeat keeps_step.
      * intros tmp _. unfold np_array_of_list. repeat keeps_step.
    + repeat keeps_step.
  - intros arrays _.
    eapply keeps_bind; [apply keeps_getitem_res | intros e1 He1].
    eapply keeps_bind; [now apply keeps_set_bincenters_item | intros _ _].
    eapply keeps_bind; [apply keeps_getitem_res | intros e2 He2].
    now apply keeps_set_counts_item.
Qed.

(** Right after [res = {}] the invariant holds. *)
Lemma invariant_res : invariant h0 (h0 ++ [IntDict []]).
Proof.
  split.
  - rewrite firstn_app, Nat.sub_diag, firstn_all. simpl. apply app_nil_r.
  - exists []. split.
    + rewrite nth_error_app2, Nat.sub_diag by lia. reflexivity.
    + intros k l [].
Qed.

Lemma converge_store_invariant dict_dvh :
  invariant h0 (snd (Store.converge_to_zero_dvh dict_dvh h0))
  /\ forall res,
       fst (Store.converge_to_zero_dvh dict_dvh h0) = inr res ->
       res = length h0.
Proof.
  set (rest :=
         zeros <- np_zeros_new 3 ;;
         rois <- dict_iter dict_dvh ;;
         _ <- mfor_each rois
                (fun roi _ => converge_body dict_dvh (length h0) zeros roi) tt ;;
         mret (length h0)).
  assert (Hrest : keeps h0 rest (fun res => res = length h0)).
  { unfold rest, np_zeros_new.
    eapply keeps_bind; [apply keeps_new | intros zeros _].
    eapply keeps_bind; [apply keeps_dict_iter | intros rois _].
    eapply keeps_bind with (Q := fun _ => True).
    - apply keeps_for_each. intros roi s. apply keeps_converge_body.
    - intros _ _. now apply keeps_ret. }
  change (Store.converge_to_zero_dvh dict_dvh h0)
    with (rest (h0 ++ [IntDict []])).
  exact (Hrest _ invariant_res).
Qed.
End StoreNormalizer.

(** ** The normalizer on the store: what it computes *)


Section StoreLookup.
Import Store.
Local Open Scope store_scope.
Implicit Types (h : store) (l x : loc) (o : object).

Lemma length_snoc h o : length (h ++ [o]) = S (length h).
Proof. rewrite length_app. simpl. lia. Qed.

Lemma length_update h l o : l < length h -> length (update l o h) = length h.
Proof.
  intros Hl. unfold update.
  rewrite length_app, length_firstn. cbn [length]. rewrite length_skipn. lia.
Qed.

Lemma nth_error_snoc h o x :
  nth_error (h ++ [o]) x =
  if x <? length h then nth_error h x
  else if x =? length h then Some o else None.
Proof.
  destruct (Nat.ltb_spec x (length h)).
  - now apply nth_error_app1.
  - rewrite nth_error_app2 by assumption.
    destruct (Nat.eqb_spec x (length h)) as [->|Hne].
    + now rewrite Nat.sub_diag.
    + destruct (x - length h) as [|[|n]] eqn:E; simpl; auto. lia.
Qed.

Lemma nth_error_update h l o x :
  l < length h ->
  nth_error (update l o h) x = if x =? l then Some o else nth_error h x.
Proof.
  intros Hl. unfold update.
  destruct (Nat.eqb_spec x l) as [->|Hne].
  - rewrite nth_error_app2 by (rewrite length_firstn; lia).
    rewrite length_firstn. replace (l - Nat.min l (length h)) with 0 by lia.
    reflexivity.
  - destruct (Nat.lt_ge_cases x l).
    + rewrite nth_error_app1 by (rewrite length_firstn; lia).
      rewrite nth_error_firstn. destruct (Nat.ltb_spec x l); [reflexivity|lia].
    + rewrite nth_error_app2 by (rewrite length_firstn; lia).
      rewrite length_firstn. replace (Nat.min l (length h)) with l by lia.
      destruct (x - l) as [|n] eqn:E; [lia|]. cbn [nth_error].
      rewrite nth_error_skipn. f_equal. lia.
Qed.
End StoreLookup.

Section WP.
Import Store.
Local Open Scope store_scope.
Context {A : Type}.
Implicit Types (h : store) (post : result A -> store -> Prop).

Lemma wp_ret (a : A) post h : post (inr a) h -> wp (mret a) post h.
Proof. auto. Qed.

Lemma wp_lift (r : result A) post h : post r h -> wp (lift r) post h.
Proof. auto. Qed.

Lemma wp_bind {B} (m : M B) (k : B -> M A) post h :
  wp m (fun r h' => match r with
                    | inl e => post (inl e) h'
                    | inr b => wp (k b) post h'
                    end) h ->
  wp (x <- m ;; k x) post h.
Proof.
  unfold wp, mbind. destruct (m h) as [[e|b] h']; auto.
Qed.
End WP.

Section WPOps.
Import Store.
Local Open Scope store_scope.
Implicit Types (h : store) (l d e a b : loc) (o : object).

Lemma wp_alloc o (post : result loc -> store -> Prop) h :
  post (inr (length h)) (h ++ [o]) -> wp (alloc o) post h.
Proof. auto. Qed.

Lemma wp_read l o (post : result object -> store -> Prop) h :
  nth_error h l = Some o -> post (inr o) h -> wp (read l) post h.
Proof. unfold wp, read. now intros ->. Qed.

Lemma wp_write l o (post : result unit -> store -> Prop) h :
  l < length h -> post (inr tt) (update l o h) -> wp (write l o) post h.
Proof.
  unfold wp, write. intros Hl. now destruct (Nat.ltb_spec l (length h)); [|lia].
Qed.

Lemma wp_dict_iter d items (post : result (list Z) -> store -> Prop) h :
  nth_error h d = Some (IntDict items) ->
  post (inr (dict_keys items)) h -> wp (dict_iter d) post h.
Proof.
  intros Hd HQ. unfold dict_iter. apply wp_bind.
  eapply wp_read; eauto.
Qed.

Lemma wp_dict_getitem d k items l (post : result loc -> store -> Prop) h :
  nth_error h d = Some (IntDict items) -> dict_get k items = Some l ->
  post (inr l) h -> wp (dict_getitem d k) post h.
Proof.
  intros Hd Hk HQ. unfold dict_getitem. apply wp_bind.
  eapply wp_read; [eassumption|]. cbn. rewrite Hk. exact HQ.
Qed.

Lemma wp_dict_setitem d k v items (post : result unit -> store -> Prop) h :
  nth_error h d = Some (IntDict items) ->
  post (inr tt) (update d (IntDict (dict_set k v items)) h) ->
  wp (dict_setitem d k v) post h.
Proof.
  intros Hd HQ. unfold dict_setitem. apply wp_bind.
  eapply wp_read; [eassumption|]. cbn. apply wp_write; auto.
  apply nth_error_Some. congruence.
Qed.

Lemma wp_set_bincenters_item e v bi ci (post : result unit -> store -> Prop) h :
  nth_error h e = Some (StrDict bi ci) ->
  post (inr tt) (update e (StrDict (Some v) ci) h) ->
  wp (set_bincenters_item e v) post h.
Proof.
  intros He HQ. unfold set_bincenters_item. apply wp_bind.
  eapply wp_read; [eassumption|]. cbn. apply wp_write; auto.
  apply nth_error_Some. congruence.
Qed.

Lemma wp_set_counts_item e v bi ci (post : result unit -> store -> Prop) h :
  nth_error h e = Some (StrDict bi ci) ->
  post (inr tt) (update e (StrDict bi (Some v)) h) ->
  wp (set_counts_item e v) post h.
Proof.
  intros He HQ. unfold set_counts_item. apply wp_bind.
  eapply wp_read; [eassumption|]. cbn. apply wp_write; auto.
  apply nth_error_Some. congruence.
Qed.

Lemma wp_getattr_bincenters l b c (post : result loc -> store -> Prop) h :
  nth_error h l = Some (DVHObject b c) ->
  post (inr b) h -> wp (getattr_bincenters l) post h.
Proof.
  intros Hl HQ. unfold getattr_bincenters. apply wp_bind.
  eapply wp_read; eauto.
Qed.

Lemma wp_getattr_counts l b c (post : result loc -> store -> Prop) h :
  nth_error h l = Some (DVHObject b c) ->
  post (inr c) h -> wp (getattr_counts l) post h.
Proof.
  intros Hl HQ. unfold getattr_counts. apply wp_bind.
  eapply wp_read; eauto.
Qed.

Lemma wp_array_data a data (post : result (list Q) -> store -> Prop) h :
  nth_error h a = Some (Ndarray data) ->
  post (inr data) h -> wp (array_data a) post h.
Proof.
  intros Ha HQ. unfold array_data. apply wp_bind.
  eapply wp_read; eauto.
Qed.

Lemma wp_array_last a data (post : result Q -> store -> Prop) h :
  nth_error h a = Some (Ndarray data) ->
  post (getitem_last data) h -> wp (array_last a) post h.
Proof.
  intros Ha HQ. unfold array_last. apply wp_bind.
  eapply wp_array_data; eauto.
Qed.

Lemma wp_np_array a data (post : result loc -> store -> Prop) h :
  nth_error h a = Some (Ndarray data) ->
  post (inr (length h)) (h ++ [Ndarray data]) -> wp (np_array a) post h.
Proof.
  intros Ha HQ. unfold np_array. apply wp_bind.
  eapply wp_array_data; eauto.
Qed.

Lemma wp_flatten a data (post : result loc -> store -> Prop) h :
  nth_error h a = Some (Ndarray data) ->
  post (inr (length h)) (h ++ [Ndarray data]) -> wp (flatten a) post h.
Proof.
  intros Ha HQ. unfold flatten. apply wp_bind.
  eapply wp_array_data; eauto.
Qed.

Lemma wp_np_concatenate a b da db (post : result loc -> store -> Prop) h :
  nth_error h a = Some (Ndarray da) -> nth_error h b = Some (Ndarray db) ->
  post (inr (length h)) (h ++ [Ndarray (da ++ db)]) ->
  wp (np_concatenate a b) post h.
Proof.
  intros Ha Hb HQ. unfold np_concatenate. apply wp_bind.
  eapply wp_array_data; [eassumption|]. cbn. apply wp_bind.
  eapply wp_array_data; [eassumption|]. exact HQ.
Qed.
End WPOps.

Ltac lens :=
  repeat first [rewrite length_snoc | rewrite length_update by lens]; lia.

Ltac norm_len :=
  repeat first [rewrite length_snoc | rewrite length_update by lens].

Ltac split_ifs :=
  repeat match goal with
         | |- context [if ?a <? ?b then _ else _] =>
             destruct (Nat.ltb_spec a b); try lia
         | |- context [if ?a =? ?b then _ else _] =>
             destruct (Nat.eqb_spec a b); try lia
         end.

Ltac sel :=
  repeat first [rewrite nth_error_update by lens | rewrite nth_error_snoc];
  norm_len; split_ifs; try eassumption; try reflexivity.

Ltac wp_next lem :=
  first [ eapply lem; [sel .. | cbn beta iota]
        | apply wp_bind; wp_next lem ].

Section TmpBincenters.
Import Store.
Local Open Scope store_scope.

Lemma wp_tmp_bincenters l b c bs (post : result (list Q) -> store -> Prop) h :
  nth_error h l = Some (DVHObject b c) ->
  nth_error h b = Some (Ndarray bs) ->
  match getitem_last bs with
  | inl err => post (inl err) h
  | inr x => post (inr [x + inject_Z 0; x + inject_Z 1; x + inject_Z 2]%Q) h
  end ->
  wp (mfor_each (py_range 0 3 1)
        (fun i tmp =>
           b <- getattr_bincenters l ;;
           x <- array_last b ;;
           mret (tmp ++ [(x + inject_Z (Z.of_nat i))%Q]))
        []) post h.
Proof.
  intros Hl Hb HQ. change (py_range 0 3 1) with [0; 1; 2]. cbn [mfor_each].
  destruct (getitem_last bs) as [err|x] eqn:E.
  - wp_next wp_getattr_bincenters. wp_next wp_array_last. now rewrite E.
  - do 3 (wp_next wp_getattr_bincenters; wp_next wp_array_last; rewrite E;
          apply wp_ret; cbn beta iota).
    apply wp_ret. exact HQ.
Qed.
End TmpBincenters.

Section ReadBackEntries.
Import Store.
Local Open Scope store_scope.
Variables h h' : store.
Hypothesis kept :
  forall x o, nth_error h x = Some o ->
              (forall items, o <> IntDict items) -> nth_error h' x = Some o.

Lemma array_at_kept_entry a data : array_at h a = Some data -> array_at h' a = Some data.
Proof.
  unfold array_at. destruct (nth_error h a) as [[]|] eqn:E; try discriminate.
  intros [= <-]. rewrite (kept _ E); [reflexivity | discriminate].
Qed.

Lemma entry_of_str_dict_kept l e :
  entry_of_str_dict h l = Some e -> entry_of_str_dict h' l = Some e.
Proof.
  unfold entry_of_str_dict.
  destruct (nth_error h l) as [[| | |[b|] [c|]]|] eqn:E; try discriminate.
  rewrite (kept _ E) by discriminate.
  destruct (array_at h b) as [bs|] eqn:Eb; [|discriminate].
  destruct (array_at h c) as [cs|] eqn:Ec; [|discriminate].
  now rewrite (array_at_kept_entry _ Eb), (array_at_kept_entry _ Ec).
Qed.

Lemma items_of_str_kept items : forall d,
  items_of (entry_of_str_dict h) items = Some d ->
  items_of (entry_of_str_dict h') items = Some d.
Proof.
  induction items as [|[k l] items IH]; simpl; intros d; auto.
  destruct (entry_of_str_dict h l) as [e|] eqn:E; [|discriminate].
  destruct (items_of (entry_of_str_dict h) items) as [d'|]; [|discriminate].
  now rewrite (entry_of_str_dict_kept _ E), (IH d' eq_refl).
Qed.
End ReadBackEntries.

Section ItemsOf.
Import Store.

Lemma items_of_snoc f items k l d e :
  items_of f items = Some d -> f l = Some e ->
  items_of f (items ++ [(k, l)]) = Some (d ++ [(k, e)]).
Proof.
  revert d. induction items as [|[k' l'] items IH]; simpl; intros d.
  - intros [= <-] ->. reflexivity.
  - destruct (f l') as [e'|]; [|discriminate].
    destruct (items_of f items) as [d'|]; [|discriminate].
    intros [= <-] Hl. now rewrite (IH d' eq_refl Hl).
Qed.

Lemma items_of_keys f items : forall d,
  items_of f items = Some d -> dict_keys d = dict_keys items.
Proof.
  induction items as [|[k l] items IH]; simpl; intros d.
  - now intros [= <-].
  - destruct (f l) as [e|]; [|discriminate].
    destruct (items_of f items) as [d'|]; [|discriminate].
    intros [= <-]. simpl. f_equal. now apply IH.
Qed.

Lemma items_of_get f items : forall d k e,
  items_of f items = Some d -> dict_get k d = Some e ->
  exists l, dict_get k items = Some l /\ f l = Some e.
Proof.
  induction items as [|[k' l'] items IH]; simpl; intros d k e.
  - intros [= <-]. discriminate.
  - destruct (f l') as [e'|] eqn:El; [|discriminate].
    destruct (items_of f items) as [d'|]; [|discriminate].
    intros [= <-]. simpl. destruct (Z.eqb k k').
    + intros [= <-]. eauto.
    + eauto.
Qed.
End ItemsOf.

Section BodyRefines.
Import Store.
Local Open Scope store_scope.
Variable h0 : store.
Variables (dict_dvh : loc) (items : pydict loc).
Hypothesis dict_at : nth_error h0 dict_dvh = Some (IntDict items).

(** The last four statements of the loop body: they complete the new
    entry, and the store then stands for one more entry. *)
Lemma converge_body_finish h acc ritems roi H bl cl bdata cdata :
  (forall x o, nth_error h0 x = Some o -> nth_error h x = Some o) ->
  nth_error h (S (length h0)) = Some (Ndarray (np_zeros 3)) ->
  nth_error h (length h0) = Some (IntDict ritems) ->
  items_of (entry_of_str_dict h) ritems = Some acc ->
  ~ In roi (dict_keys acc) ->
  (forall x o, nth_error h x = Some o -> x <> length h0 ->
               nth_error H x = Some o) ->
  nth_error H (length h0)
  = Some (IntDict (dict_set roi (length h) ritems)) ->
  nth_error H (length h) = Some (StrDict None None) ->
  nth_error H bl = Some (Ndarray bdata) ->
  nth_error H cl = Some (Ndarray cdata) ->
  wp (e <- dict_getitem (length h0) roi ;;
      _ <- set_bincenters_item e bl ;;
      e <- dict_getitem (length h0) roi ;;
      set_counts_item e cl)
    (fun r h' =>
       r = inr tt
       /\ represents h0 h'
            (acc ++ [(roi, {| entry_bincenters := bdata;
                              entry_counts := cdata |})]))
    H.
Proof.
  intros Hkept Hzeros Hres Hacc Hfresh HkeptH HresH He Hbl Hcl.
  assert (Hn0 : S (length h0) < length h) by (apply nth_error_Some; congruence).
  assert (HeH : length h < length H) by (apply nth_error_Some; congruence).
  assert (Hble : bl <> length h) by congruence.
  assert (Hcle : cl <> length h) by congruence.
  pose proof (dict_get_set_same roi (length h) ritems) as Hroi.
  wp_next wp_dict_getitem.
  wp_next wp_set_bincenters_item.
  wp_next wp_dict_getitem.
  eapply wp_set_counts_item; [sel|].
  split; [reflexivity|].
  set (H2 := update _ _ (update _ _ H)).
  assert (Hsame : forall x, x <> length h -> nth_error H2 x = nth_error H x).
  { intros x Hx. unfold H2. sel. }
  assert (HeH2 : nth_error H2 (length h)
                 = Some (StrDict (Some bl) (Some cl))).
  { unfold H2. sel. }
  split; [|split].
  - intros x o Hx.
    assert (x < length h0) by (apply nth_error_Some; congruence).
    rewrite Hsame by lia. apply HkeptH; [auto | lia].
  - rewrite Hsame by lia. apply HkeptH; [auto | lia].
  - exists (ritems ++ [(roi, length h)]). split.
    + rewrite Hsame by lia. rewrite HresH. do 2 f_equal.
      apply dict_set_fresh.
      intros Hin. apply Hfresh.
      rewrite (items_of_keys _ _ Hacc). exact Hin.
    + apply items_of_snoc.
      * apply items_of_str_kept with (h := h); auto.
        intros x o Hx Hno.
        assert (x < length h) by (apply nth_error_Some; congruence).
        assert (x <> length h0) by (intros ->; rewrite Hres in Hx;
                                    injection Hx as <-; now apply (Hno ritems)).
        rewrite Hsame by lia. now apply HkeptH.
      * unfold entry_of_str_dict, array_at.
        rewrite HeH2, !Hsame, Hbl, Hcl by assumption. reflexivity.
Qed.

Lemma converge_body_refines h acc roi l e0 :
  represents h0 h acc ->
  ~ In roi (dict_keys acc) ->
  dict_get roi items = Some l ->
  entry_of_dvh h0 l = Some e0 ->
  wp (converge_body dict_dvh (length h0) (S (length h0)) roi)
    (fun r h' =>
       match converge_one (np_zeros 3) e0 with
       | inr e1 => r = inr tt /\ represents h0 h' (acc ++ [(roi, e1)])
       | inl err => r = inl err
       end)
    h.
Proof.
  intros (Hkept & Hzeros & ritems & Hres & Hacc) Hfresh Hget He0.
  unfold entry_of_dvh in He0.
  destruct (nth_error h0 l) as [[|b c| |]|] eqn:Hl; try discriminate.
  unfold array_at in He0.
  destruct (nth_error h0 b) as [[bs| | |]|] eqn:Hb; try discriminate.
  destruct (nth_error h0 c) as [[cs| | |]|] eqn:Hc; try discriminate.
  injection He0 as <-.
  assert (Hn0 : S (length h0) < length h) by (apply nth_error_Some; congruence).
  assert (Hld : dict_dvh < length h0) by (apply nth_error_Some; congruence).
  assert (Hll : l < length h0) by (apply nth_error_Some; congruence).
  assert (Hlb : b < length h0) by (apply nth_error_Some; congruence).
  assert (Hlc : c < length h0) by (apply nth_error_Some; congruence).
  pose proof (Hkept _ _ dict_at) as Hd'.
  pose proof (Hkept _ _ Hl) as Hl'.
  pose proof (Hkept _ _ Hb) as Hb'.
  pose proof (Hkept _ _ Hc) as Hc'.
  unfold converge_body, new_str_dict.
  apply wp_bind, wp_alloc.
  wp_next wp_dict_setitem.
  wp_next wp_dict_getitem.
  wp_next wp_getattr_counts.
  wp_next wp_array_last.
  unfold converge_one.
  cbn [counts bincenters entry_Histogram entry_counts entry_bincenters].
  destruct (getitem_last cs) as [err|last_count] eqn:Elast; cbn [bind];
    [reflexivity|].
  apply wp_bind.
  destruct (negb (Qeq_bool last_count 0)).
  - (* the histogram is extended *)
    apply wp_bind. eapply wp_tmp_bincenters; [sel | sel |].
    change (py_range 0 3 1) with [0; 1; 2]. cbn [for_each].
    destruct (getitem_last bs) as [err|x] eqn:Ebs; cbn [bind ret app];
      [reflexivity|].
    unfold np_array_of_list.
    apply wp_bind, wp_alloc.
    wp_next wp_getattr_bincenters.
    wp_next wp_flatten.
    wp_next wp_np_concatenate.
    wp_next wp_np_array.
    wp_next wp_getattr_counts.
    wp_next wp_flatten.
    wp_next wp_np_array.
    wp_next wp_np_concatenate.
    apply wp_ret. cbn [fst snd].
    eapply converge_body_finish; eauto.
    + intros y o Hy Hne.
      assert (y < length h) by (apply nth_error_Some; congruence).
      sel.
    + sel.
    + sel.
    + sel.
    + sel.
  - (* the histogram is passed through *)
    wp_next wp_getattr_bincenters.
    wp_next wp_getattr_counts.
    apply wp_ret. cbn [fst snd].
    eapply converge_body_finish; eauto.
    + intros y o Hy Hne.
      assert (y < length h) by (apply nth_error_Some; congruence).
      sel.
    + sel.
    + sel.
    + sel.
    + sel.
Qed.
End BodyRefines.

Lemma wp_mono {A} (m : Store.M A)
  (post post' : result A -> Store.store -> Prop) h :
  Store.wp m post h -> (forall r h', post r h' -> post' r h') ->
  Store.wp m post' h.
Proof. unfold Store.wp. auto. Qed.

Section LoopRefines.
Import Store.
Local Open Scope store_scope.
Variable h0 : store.
Variables (dict_dvh : loc) (items : pydict loc).
Hypothesis dict_at : nth_error h0 dict_dvh = Some (IntDict items).

Lemma converge_loop_refines (rest : pydict loc) :
  forall (rest_d acc : pydict dvh_entry) h,
    represents h0 h acc ->
    items_of (entry_of_dvh h0) rest = Some rest_d ->
    (forall roi l, In (roi, l) rest -> dict_get roi items = Some l) ->
    NoDup (dict_keys acc ++ dict_keys rest) ->
    wp (mfor_each (dict_keys rest)
          (fun roi _ =>
             converge_body dict_dvh (length h0) (S (length h0)) roi)
          tt)
      (fun r h' =>
         match for_each rest_d
                 (fun item res =>
                    (entry <- converge_one (np_zeros 3) (snd item) ;;
                     ret (dict_set (fst item) entry res))%result)
                 acc with
         | inr res => r = inr tt /\ represents h0 h' res
         | inl err => r = inl err
         end)
      h.
Proof.
  induction rest as [|[roi l] rest IH]; intros rest_d acc h Hrep Hitems Hget Hnd.
  - injection Hitems as <-. apply wp_ret. simpl. auto.
  - simpl in Hitems.
    destruct (entry_of_dvh h0 l) as [e0|] eqn:He0; [|discriminate].
    destruct (items_of (entry_of_dvh h0) rest) as [rest_d'|] eqn:Hrest;
      [|discriminate].
    injection Hitems as <-.
    assert (Hfresh : ~ In roi (dict_keys acc)).
    { simpl in Hnd. apply NoDup_remove_2 in Hnd.
      rewrite in_app_iff in Hnd. tauto. }
    cbn [dict_keys map fst mfor_each for_each snd].
    apply wp_bind.
    eapply wp_mono.
    { eapply converge_body_refines; eauto. apply Hget. now left. }
    intros r h'. cbn beta.
    destruct (converge_one (np_zeros 3) e0) as [err|e1]; cbn [bind].
    + now intros ->.
    + intros [-> Hrep']. rewrite dict_set_fresh by assumption.
      apply (IH rest_d' (acc ++ [(roi, e1)]) h' Hrep' eq_refl).
      * intros roi' l' Hin. apply Hget. now right.
      * rewrite dict_keys_app. simpl. rewrite <- app_assoc. exact Hnd.
Qed.
End LoopRefines.

(** The function on the store computes what the function on values
    computes: from a store in which [dict_dvh] reads back as the collection
    [d], it returns the new location of a dictionary that reads back as
    the normalized collection, or raises what the function on values
    raises. *)
Theorem converge_store_refines (h0 : Store.store) (dict_dvh : Store.loc)
  (d : pydict dvh_entry) :
  dict_wf d ->
  Store.dict_of Store.entry_of_dvh h0 dict_dvh = Some d ->
  let run := Store.converge_to_zero_dvh dict_dvh h0 in
  match converge_to_zero_dvh d with
  | inr res =>
      fst run = inr (length h0)
      /\ Store.dict_of Store.entry_of_str_dict (snd run) (length h0) = Some res
  | inl err => fst run = inl err
  end.
Proof.
  intros Hwf Hd run.
  unfold Store.dict_of in Hd.
  destruct (nth_error h0 dict_dvh) as [[| |items|]|] eqn:Hat; try discriminate.
  assert (Hrun : Store.wp (Store.converge_to_zero_dvh dict_dvh)
                   (fun r h' =>
                      match converge_to_zero_dvh d with
                      | inr res =>
                          r = inr (length h0)
                          /\ Store.dict_of Store.entry_of_str_dict h' (length h0)
                             = Some res
                      | inl err => r = inl err
                      end) h0);
    [|exact Hrun].
  assert (Hlt : dict_dvh < length h0) by (apply nth_error_Some; congruence).
  unfold Store.converge_to_zero_dvh, Store.new_int_dict, Store.np_zeros_new.
  apply wp_bind, wp_alloc. apply wp_bind, wp_alloc.
  rewrite length_snoc.
  wp_next wp_dict_iter.
  apply wp_bind. eapply wp_mono.
  { eapply converge_loop_refines with (acc := []) (items := items); eauto.
    - split; [|split].
      + intros x o Hx.
        assert (x < length h0) by (apply nth_error_Some; congruence).
        sel.
      + sel.
      + exists []. split; [sel | reflexivity].
    - intros roi l Hin. apply dict_In_get; auto.
      unfold dict_wf. rewrite <- (items_of_keys _ _ Hd). exact Hwf.
    - simpl. unfold dict_wf in Hwf.
      rewrite <- (items_of_keys _ _ Hd). exact Hwf. }
  intros r h'. cbn beta. unfold converge_to_zero_dvh.
  match goal with
  | |- match ?x with _ => _ end -> _ => destruct x as [err|res]
  end; [now intros ->|].
  intros [-> (_ & _ & ritems & Hres & Hitems)].
  apply wp_ret. split; [reflexivity|].
  unfold Store.dict_of. now rewrite Hres.
Qed.

Section ReadBack.
Import Store.
Variables h h' : store.
Hypothesis kept : forall l o, nth_error h l = Some o -> nth_error h' l = Some o.

Lemma array_at_kept a data : array_at h a = Some data -> array_at h' a = Some data.
Proof.
  unfold array_at. destruct (nth_error h a) as [o|] eqn:E; [|discriminate].
  now rewrite (kept _ E).
Qed.

Lemma entry_of_dvh_kept l e :
  entry_of_dvh h l = Some e -> entry_of_dvh h' l = Some e.
Proof.
  unfold entry_of_dvh.
  destruct (nth_error h l) as [o|] eqn:E; [|discriminate].
  rewrite (kept _ E). destruct o as [|b c| |]; try discriminate.
  destruct (array_at h b) as [bs|] eqn:Eb; [|discriminate].
  destruct (array_at h c) as [cs|] eqn:Ec; [|discriminate].
  now rewrite (array_at_kept _ Eb), (array_at_kept _ Ec).
Qed.

Lemma items_of_kept items : forall d,
  items_of (entry_of_dvh h) items = Some d ->
  items_of (entry_of_dvh h') items = Some d.
Proof.
  induction items as [|[k l] items IH]; simpl; intros d; auto.
  destruct (entry_of_dvh h l) as [e|] eqn:E; [|discriminate].
  destruct (items_of (entry_of_dvh h) items) as [d'|]; [|discriminate].
  now rewrite (entry_of_dvh_kept _ E), (IH d' eq_refl).
Qed.

Lemma dict_of_kept dict_dvh d :
  dict_of entry_of_dvh h dict_dvh = Some d ->
  dict_of entry_of_dvh h' dict_dvh = Some d.
Proof.
  unfold dict_of.
  destruct (nth_error h dict_dvh) as [o|] eqn:E; [|discriminate].
  rewrite (kept _ E). destruct o; try discriminate. apply items_of_kept.
Qed.
End ReadBack.

(** C10.  Whatever the store and the dictionary at the call, and whether
    the call returns or raises, every object the store held at the call is
    the same afterwards (so the collection read back from [dict_dvh], with
    the bin centers and the counts of every histogram, is what it was);
    a returned mapping is a new object, at a location the store at the
    call did not have, whose entries are new objects too; and it reads
    back as the collection the normalizer computes on values. *)
Theorem converge_to_zero_dvh_frame (h0 : Store.store) (dict_dvh : Store.loc) :
  let run := Store.converge_to_zero_dvh dict_dvh h0 in
  firstn (length h0) (snd run) = h0
  /\ (forall l o, nth_error h0 l = Some o -> nth_error (snd run) l = Some o)
  /\ (forall d,
        Store.dict_of Store.entry_of_dvh h0 dict_dvh = Some d ->
        Store.dict_of Store.entry_of_dvh (snd run) dict_dvh = Some d)
  /\ (forall res,
        fst run = inr res ->
        res = length h0
        /\ exists items,
             nth_error (snd run) res = Some (Store.IntDict items)
             /\ forall k l, In (k, l) items -> length h0 < l)
  /\ (forall d,
        dict_wf d ->
        Store.dict_of Store.entry_of_dvh h0 dict_dvh = Some d ->
        match converge_to_zero_dvh d with
        | inr res =>
            fst run = inr (length h0)
            /\ Store.dict_of Store.entry_of_str_dict (snd run) (length h0)
               = Some res
        | inl err => fst run = inl err
        end).
Proof.
  intros run.
  destruct (converge_store_invariant h0 dict_dvh)
    as [(Hpre & items & Hres & Hfresh) Hloc].
  fold run in Hpre, Hres, Hloc.
  assert (Hkept : forall l o,
             nth_error h0 l = Some o -> nth_error (snd run) l = Some o).
  { intros l o Hl.
    assert (Hlt : l < length h0) by (apply nth_error_Some; congruence).
    rewrite <- Hl, <- Hpre at 1. rewrite nth_error_firstn.
    destruct (Nat.ltb_spec l (length h0)); [reflexivity | lia]. }
  split; [exact Hpre | split; [exact Hkept | split; [|split]]].
  - intros d. now apply dict_of_kept.
  - intros res Hrun. rewrite (Hloc res Hrun). split; [reflexivity|].
    exists items. split; auto.
  - intros d Hwf Hd. now apply converge_store_refines.
Qed.

(** The scenario on the store: the seven objects of the caller are as they
    were, and the mapping is the new object at location 7. *)
Lemma converge_to_zero_dvh_frame_witness :
  firstn 7 (snd (Store.converge_to_zero_dvh 6 scenario_store)) = scenario_store
  /\ fst (Store.converge_to_zero_dvh 6 scenario_store) = inr 7.
Proof.
  split.
  - exact (proj1 (converge_to_zero_dvh_frame scenario_store 6)).
  - reflexivity.
Defined.

(** On the scenario the store holds, under the returned mapping, the
    entries [converge_to_zero_dvh] computes on values; the entry of ROI 1
    refers to the very arrays of the caller (locations 0 and 1), the entry
    of ROI 2 to new ones. *)
Example converge_store_scenario :
  let run := Store.converge_to_zero_dvh 6 scenario_store in
  Store.dict_of Store.entry_of_str_dict (snd run) 7
  = Some [ (1%Z, {| entry_bincenters := [0; 10; 20]%Q;
                    entry_counts := [5; 3; 0]%Q |});
           (2%Z, {| entry_bincenters := [0; 10; 10; 11; 12]%Q;
                    entry_counts := [2; 1; 0; 0; 0]%Q |}) ]
  /\ option_map inr (Store.dict_of Store.entry_of_str_dict (snd run) 7)
     = option_map (fun d => converge_to_zero_dvh d)
         (Store.dict_of Store.entry_of_dvh scenario_store 6)
  /\ nth_error (snd run) 7 = Some (Store.IntDict [(1%Z, 9); (2%Z, 10)])
  /\ nth_error (snd run) 9 = Some (Store.StrDict (Some 0) (Some 1))
  /\ nth_error (snd run) 10 = Some (Store.StrDict (Some 14) (Some 17)).
Proof. vm_compute. repeat split. Qed.

(** * Further properties of the code *)

(** ** [get_roi_info] *)

Section RoiCatalogOrder.
Implicit Types (ds : list StructureSetROI) (s : StructureSetROI) (k : Z).

Lemma first_occurrences_snoc (l : list Z) k :
  first_occurrences (l ++ [k])
  = if in_dec Z.eq_dec k l then first_occurrences l
    else first_occurrences l ++ [k].
Proof.
  unfold first_occurrences. rewrite rev_unit. simpl.
  destruct (in_dec Z.eq_dec k (rev l)) as [Hin|Hnin];
    destruct (in_dec Z.eq_dec k l) as [Hin'|Hnin']; try reflexivity.
  - exfalso. apply Hnin'. now apply in_rev.
  - exfalso. apply Hnin. now apply in_rev in Hin'.
Qed.

Lemma get_roi_info_keys_order ds :
  dict_keys (get_roi_info ds) = first_occurrences (map ROINumber ds).
Proof.
  induction ds as [|s ds IH] using rev_ind; [reflexivity|].
  rewrite get_roi_info_snoc, dict_set_keys, map_app, IH. simpl.
  rewrite first_occurrences_snoc.
  destruct (in_dec Z.eq_dec (ROINumber s) (first_occurrences (map ROINumber ds)))
    as [Hin|Hnin];
    destruct (in_dec Z.eq_dec (ROINumber s) (map ROINumber ds))
      as [Hin'|Hnin']; try reflexivity; exfalso.
  - apply Hnin'. rewrite <- IH in Hin. now apply get_roi_info_keys_In.
  - apply Hnin. rewrite <- IH. now apply get_roi_info_keys_In.
Qed.

Lemma dict_keys_length (V : Type) (d : pydict V) :
  length (dict_keys d) = length d.
Proof. apply length_map. Qed.

Lemma get_roi_info_length ds :
  length (get_roi_info ds) <= length ds
  /\ (length (get_roi_info ds) = length ds -> NoDup (map ROINumber ds)).
Proof.
  rewrite <- dict_keys_length.
  induction ds as [|s ds [IHle IHeq]] using rev_ind.
  - split; [apply Nat.le_refl | constructor].
  - rewrite get_roi_info_snoc, map_app, dict_set_keys, length_app. simpl.
    destruct (in_dec Z.eq_dec (ROINumber s) (dict_keys (get_roi_info ds)))
      as [Hin|Hnin].
    + split; lia.
    + rewrite length_app. simpl. split; [lia|]. intros Heq.
      apply NoDup_app; [apply IHeq; lia | repeat constructor; auto | ].
      intros x Hx [<-|[]]. apply Hnin. now apply get_roi_info_keys_In.
Qed.
End RoiCatalogOrder.


(** X1.  The catalog lists the ROI numbers of the sequence in the order in
    which they first occur, once each, and the entry of a number holds the
    uid, name and algorithm of the last element that carries it. *)
Theorem get_roi_info_first_occurrence_order (ds : list StructureSetROI) :
  Forall2
    (fun item k =>
       fst item = k
       /\ Some (snd item)
          = option_map roi_info_of
              (find (fun s => Z.eqb k (ROINumber s)) (rev ds)))
    (get_roi_info ds) (first_occurrences (map ROINumber ds)).
Proof.
  rewrite <- get_roi_info_keys_order.
  pose proof (get_roi_info_wf ds) as Hwf.
  assert (Hget : forall k v, In (k, v) (get_roi_info ds) ->
                   Some v = option_map roi_info_of
                              (find (fun s => Z.eqb k (ROINumber s)) (rev ds))).
  { intros k v Hin. rewrite <- get_roi_info_get. symmetry.
    now apply dict_In_get. }
  clear Hwf. induction (get_roi_info ds) as [|[k v] d IH]; simpl.
  - constructor.
  - constructor.
    + split; [reflexivity | apply Hget; now left].
    + apply IH. intros k' v' Hin. apply Hget. now right.
Qed.

(** X2.  The catalog never has more entries than the sequence has
    elements, and it has as many exactly when the ROI numbers of the
    sequence are pairwise different. *)
Theorem get_roi_info_size (ds : list StructureSetROI) :
  length (get_roi_info ds) <= length ds
  /\ (length (get_roi_info ds) = length ds <-> NoDup (map ROINumber ds)).
Proof.
  destruct (get_roi_info_length ds) as [Hle Heq].
  split; [exact Hle | split; [exact Heq|]].
  intros Hnd. rewrite get_roi_info_keys_NoDup by assumption.
  apply length_map.
Qed.

(** ** [calc_dvhs] *)

Section EngineMore.
Import Engine.
Variable H : Type.
Variable get_dvh : Z -> option Q -> H.
Variable roi_list : list Z.

Let run := exec get_dvh roi_list.
Let single (roi : Z) : pydict H := multi_get_dvhs get_dvh roi None.
Let value (roi : Z) : Z * H := (roi, get_dvh roi None).

Lemma position_nth roi (l : list Z) :
  In roi l -> nth_error l (position roi l) = Some roi.
Proof.
  induction l as [|x l IH]; simpl; [tauto|].
  destruct (Z.eqb_spec roi x) as [->|Hne]; [reflexivity|].
  intros [Heq|Hin]; [congruence | now apply IH].
Qed.

Lemma drop_position roi (l : list Z) :
  In roi l -> Permutation (roi :: drop_nth (position roi l) l) l.
Proof.
  intros Hin. apply position_nth in Hin.
  apply nth_error_split in Hin. destruct Hin as (l1 & l2 & Hl & Hlen).
  rewrite <- Hlen. clear Hlen. subst l. rewrite drop_nth_split.
  apply Permutation_middle.
Qed.

Lemma exec_cons a schedule s :
  run (a :: schedule) s
  = match step get_dvh roi_list a s with
    | Some s' => run schedule s'
    | None => None
    end.
Proof. reflexivity. Qed.

(** The loop of the starts, run to its end without any worker moving. *)
Lemma exec_starts k : forall i q d,
  i + k = length roi_list ->
  run (repeat Coordinator k)
    {| pc := Allocating i; running := firstn i roi_list;
       queue := q; dict_dvh := d |}
  = Some {| pc := Allocating (length roi_list); running := roi_list;
            queue := q; dict_dvh := d |}.
Proof.
  unfold run.
  induction k as [|k IH]; intros i q d Hik.
  - simpl. rewrite Nat.add_0_r in Hik. subst i. now rewrite firstn_all.
  - assert (Hi : i < length roi_list) by lia.
    destruct (nth_error roi_list i) as [roi|] eqn:En;
      [|apply nth_error_None in En; lia].
    cbn [repeat exec step pc]. rewrite En. cbn [running queue dict_dvh].
    rewrite <- (firstn_snoc _ _ En). apply IH. lia.
Qed.

(** The started workers deliver in the order [order]. *)
Lemma exec_deliveries order : forall running0 c q d,
  Permutation order running0 ->
  run (deliveries running0 order)
    {| pc := c; running := running0; queue := q; dict_dvh := d |}
  = Some {| pc := c; running := []; queue := q ++ map single order;
            dict_dvh := d |}.
Proof.
  unfold run.
  induction order as [|roi order IH]; intros running0 c q d Hperm.
  - apply Permutation_nil in Hperm. subst. simpl. now rewrite app_nil_r.
  - assert (Hin : In roi running0)
      by (eapply Permutation_in; [exact Hperm | now left]).
    cbn [deliveries exec step running].
    rewrite (position_nth _ _ Hin). cbn [pc queue dict_dvh].
    rewrite IH.
    + cbn [map]. now rewrite <- app_assoc.
    + apply Permutation_cons_inv with (a := roi).
      rewrite Hperm. symmetry. now apply drop_position.
Qed.

(** The loop of the reads on a queue that holds all the results. *)
Lemma exec_reads order : forall acc,
  NoDup (dict_keys acc ++ order) ->
  run (repeat Coordinator (length order))
    {| pc := Collecting (length order); running := [];
       queue := map single order; dict_dvh := acc |}
  = Some {| pc := Collecting 0; running := []; queue := [];
            dict_dvh := acc ++ map value order |}.
Proof.
  unfold run.
  induction order as [|roi order IH]; intros acc Hnd.
  - simpl. now rewrite app_nil_r.
  - cbn [length repeat map exec step pc queue running dict_dvh].
    change (single roi) with [(roi, get_dvh roi None)].
    unfold dict_update. cbn [fold_left fst snd].
    rewrite dict_set_fresh.
    + rewrite IH.
      * cbn [map]. now rewrite <- app_assoc.
      * rewrite dict_keys_app. simpl. now rewrite <- app_assoc.
    + apply NoDup_remove_2 in Hnd. rewrite in_app_iff in Hnd. tauto.
Qed.

(** The loop of the joins once no worker is left. *)
Lemma exec_joins k : forall i d,
  i + k = length roi_list ->
  run (repeat Coordinator (S k))
    {| pc := Joining i; running := []; queue := []; dict_dvh := d |}
  = Some {| pc := Returned; running := []; queue := []; dict_dvh := d |}.
Proof.
  unfold run.
  induction k as [|k IH]; intros i d Hik.
  - rewrite Nat.add_0_r in Hik. subst i.
    cbn [repeat exec step pc].
    now rewrite (proj2 (nth_error_None roi_list (length roi_list)) (Nat.le_refl _)).
  - assert (Hi : i < length roi_list) by lia.
    destruct (nth_error roi_list i) as [roi|] eqn:En;
      [|apply nth_error_None in En; lia].
    change (repeat Coordinator (S (S k)))
      with (Coordinator :: repeat Coordinator (S k)).
    cbn [exec step pc]. rewrite En. cbn [running existsb queue dict_dvh].
    apply IH. lia.
Qed.

Lemma exec_arrival order :
  NoDup roi_list -> Permutation order roi_list ->
  run (arrival_schedule roi_list order) (initial H)
  = Some {| pc := Returned; running := []; queue := [];
            dict_dvh := map value order |}.
Proof.
  intros Hnd Hperm. unfold arrival_schedule.
  assert (Hlen : length order = length roi_list)
    by now apply Permutation_length.
  replace (2 * length roi_list + 3)
    with (1 + (length order + (1 + S (length roi_list)))) by lia.
  rewrite !repeat_app. unfold run.
  rewrite exec_app.
  change (initial H)
    with {| pc := Allocating 0; running := firstn 0 roi_list;
            queue := @nil (pydict H); dict_dvh := @nil (Z * H) |}.
  fold run. rewrite exec_starts by lia. unfold run.
  rewrite exec_app. fold run. rewrite exec_deliveries by assumption.
  unfold run. rewrite exec_app.
  cbn [repeat exec step pc].
  rewrite (proj2 (nth_error_None roi_list (length roi_list)) (Nat.le_refl _)).
  cbn [running queue dict_dvh app]. rewrite <- Hlen.
  rewrite exec_app. fold run. rewrite (exec_reads order []).
  - rewrite exec_cons. cbn [step pc running queue dict_dvh app].
    rewrite Hlen.
    change (Coordinator :: repeat Coordinator (length roi_list))
      with (repeat Coordinator (S (length roi_list))).
    apply exec_joins. lia.
  - simpl. eapply Permutation_NoDup; [symmetry; exact Hperm | exact Hnd].
Qed.
End EngineMore.

(** X3.  Every ROI of [dict_roi] is mapped to the histogram that [get_dvh]
    computes for it without a dose limit, whatever [dose_limit] the caller
    passed (the workers are started without it), and no other key is
    present. *)
Theorem calc_dvhs_values (H V : Type) (get_dvh : Z -> option Q -> H)
  (dict_roi : pydict V) (dose_limit : option Q)
  (schedule : list Engine.action) (dict_dvh : pydict H) :
  dict_wf dict_roi ->
  Engine.calc_dvhs get_dvh dict_roi dose_limit schedule = Some dict_dvh ->
  forall roi,
    dict_get roi dict_dvh
    = if in_dec Z.eq_dec roi (dict_keys dict_roi)
      then Some (get_dvh roi None) else None.
Proof.
  intros Hwf Hres roi.
  destruct (calc_dvhs_result _ _ _ Hwf Hres) as [Hperm E].
  rewrite E, dict_get_graph.
  destruct (in_dec Z.eq_dec roi (dict_keys dict_dvh)) as [Hin|Hnin];
    destruct (in_dec Z.eq_dec roi (dict_keys dict_roi)) as [Hin'|Hnin'];
    auto; exfalso.
  - apply Hnin'. eapply Permutation_in; eauto.
  - apply Hnin. eapply Permutation_in; [symmetry|]; eauto.
Qed.

(** With the dose limit 5 the histogram of ROI 2 is still the one computed
    without a limit. *)
Lemma calc_dvhs_values_witness :
  exists dict_dvh,
    Engine.calc_dvhs limited_get_dvh example_dict_roi (Some 5%Q)
      (Engine.eager_schedule 3) = Some dict_dvh
    /\ dict_get 2%Z dict_dvh = Some (limited_get_dvh 2 None)
    /\ dict_get 7%Z dict_dvh = None.
Proof.
  set (dict_dvh := map (fun roi => (roi, limited_get_dvh roi None)) [1; 2; 3]%Z).
  assert (E : Engine.calc_dvhs limited_get_dvh example_dict_roi (Some 5%Q)
                (Engine.eager_schedule 3) = Some dict_dvh)
    by (vm_compute; reflexivity).
  exists dict_dvh. split; [exact E|].
  split.
  - exact (calc_dvhs_values limited_get_dvh _ _ example_dict_roi_wf E 2%Z).
  - exact (calc_dvhs_values limited_get_dvh _ _ example_dict_roi_wf E 7%Z).
Defined.

(** X4.  In every state an execution reaches: no result is read before
    the last worker is started; while the results are read, the reads that
    are left are as many as the workers that have not put their result yet
    plus the results waiting in the queue, and the results read so far and
    the reads left add up to the number of ROIs; when the joins begin, and
    at the [return], every worker has put its result, the queue is empty
    and every result has been read. *)
Theorem calc_dvhs_reachable (H V : Type) (get_dvh : Z -> option Q -> H)
  (dict_roi : pydict V) (schedule : list Engine.action) (s : Engine.state H) :
  dict_wf dict_roi ->
  Engine.exec get_dvh (dict_keys dict_roi) schedule (Engine.initial H) = Some s ->
  match Engine.pc s with
  | Engine.Allocating i => Engine.dict_dvh s = []
  | Engine.Collecting n =>
      length (Engine.running s) + length (Engine.queue s) = n
      /\ length (Engine.dict_dvh s) + n = length dict_roi
  | Engine.Joining i =>
      Engine.running s = [] /\ Engine.queue s = []
      /\ length (Engine.dict_dvh s) = length dict_roi
  | Engine.Returned =>
      Engine.running s = [] /\ Engine.queue s = []
      /\ length (Engine.dict_dvh s) = length dict_roi
  end.
Proof.
  intros Hwf Hrun.
  assert (Hinv : Engine.invariant get_dvh (dict_keys dict_roi) s).
  { eapply (exec_invariant Hwf); eauto. apply invariant_initial. }
  destruct Hinv as (Hperm & Hq & _ & Hpc).
  apply Permutation_length in Hperm.
  unfold Engine.queued in Hperm.
  rewrite !length_app, (queued_length Hq), !dict_keys_length in Hperm.
  destruct (Engine.pc s) as [i|n|i|]; cbn [Engine.started] in Hperm.
  - tauto.
  - rewrite dict_keys_length in Hperm. split; lia.
  - destruct Hpc as [Hr Hqueue]. rewrite Hr, Hqueue in *. simpl in Hperm.
    rewrite dict_keys_length in Hperm. auto.
  - destruct Hpc as [Hr Hqueue]. rewrite Hr, Hqueue in *. simpl in Hperm.
    rewrite dict_keys_length in Hperm. auto.
Qed.

(** Three workers are started, the first one delivers, and the coordinator
    reads its result: two reads are left for the two workers that run. *)
Lemma calc_dvhs_reachable_witness :
  let schedule :=
    [Engine.Coordinator; Engine.Coordinator; Engine.Coordinator;
     Engine.Worker 0; Engine.Coordinator; Engine.Coordinator] in
  let s :=
    {| Engine.pc := Engine.Collecting 2;
       Engine.running := [2; 3]%Z;
       Engine.queue := [];
       Engine.dict_dvh := [(1%Z, example_get_dvh 1 None)] |} in
  Engine.exec example_get_dvh (dict_keys example_dict_roi) schedule
    (Engine.initial DVH) = Some s
  /\ length (Engine.running s) + length (Engine.queue s) = 2
  /\ length (Engine.dict_dvh s) + 2 = length example_dict_roi.
Proof.
  intros schedule s.
  assert (E : Engine.exec example_get_dvh (dict_keys example_dict_roi) schedule
                (Engine.initial DVH) = Some s)
    by (vm_compute; reflexivity).
  split; [exact E|].
  exact (@calc_dvhs_reachable DVH unit example_get_dvh example_dict_roi
           schedule s example_dict_roi_wf E).
Defined.

(** X5.  Every order of the requested ROIs is the key order of the mapping
    some execution returns: the schedule that lets the results arrive in
    that order returns the ROIs with their histograms in that order. *)
Theorem calc_dvhs_any_arrival_order (H V : Type) (get_dvh : Z -> option Q -> H)
  (dict_roi : pydict V) (dose_limit : option Q) (order : list Z) :
  dict_wf dict_roi ->
  Permutation order (dict_keys dict_roi) ->
  Engine.calc_dvhs get_dvh dict_roi dose_limit
    (arrival_schedule (dict_keys dict_roi) order)
  = Some (map (fun roi => (roi, get_dvh roi None)) order).
Proof.
  intros Hwf Hperm. unfold Engine.calc_dvhs.
  now rewrite (exec_arrival get_dvh Hwf Hperm).
Qed.

Lemma calc_dvhs_any_arrival_order_witness :
  Engine.calc_dvhs example_get_dvh example_dict_roi None
    (arrival_schedule [1; 2; 3]%Z [2; 3; 1]%Z)
  = Some (map (fun roi => (roi, example_get_dvh roi None)) [2; 3; 1]%Z).
Proof.
  apply (@calc_dvhs_any_arrival_order DVH unit example_get_dvh
           example_dict_roi None [2; 3; 1]%Z example_dict_roi_wf).
  apply perm_trans with [(2:Z); 1; 3]%Z.
  - apply perm_skip, perm_swap.
  - apply perm_swap.
Defined.

(** ** [converge_to_zero_dvh] *)

Section NormalizerMore.
Context {H : Type} `{HH : Histogram H}.
Implicit Types (dvh : H) (d : pydict H) (res : pydict dvh_entry).

Lemma converge_one_readable dvh :
  readable dvh -> converge_one (np_zeros 3) dvh = inr (extended dvh).
Proof.
  intros [Hc [Hb|(c & Hlast & Hz)]].
  - now apply converge_one_extended.
  - apply Qeq_bool_iff in Hz.
    rewrite (converge_one_zero (np_zeros 3) dvh Hlast Hz).
    unfold extended. apply getitem_last_inr in Hlast.
    destruct Hlast as [_ ->]. now rewrite Hz.
Qed.

Lemma converge_one_inr zeros dvh e :
  converge_one zeros dvh = inr e -> readable dvh.
Proof.
  unfold converge_one, readable, ends_in_zero.
  destruct (getitem_last (counts dvh)) as [?|c] eqn:Hc; [discriminate|].
  apply getitem_last_inr in Hc as Hc'. destruct Hc' as [Hne _].
  simpl. destruct (Qeq_bool c 0) eqn:Hz; simpl.
  - intros _. split; [exact Hne|]. right. exists c.
    split; [reflexivity | now apply Qeq_bool_iff].
  - destruct (bincenters dvh) as [|b bs]; [discriminate|].
    intros _. split; [exact Hne|]. left. discriminate.
Qed.

Lemma loop_inr_items zeros d : forall acc res,
  for_each d
    (fun item res =>
       (entry <- converge_one zeros (snd item) ;;
        ret (dict_set (fst item) entry res))%result)
    acc = inr res ->
  forall item, In item d -> exists e, converge_one zeros (snd item) = inr e.
Proof.
  induction d as [|item d IH]; intros acc res Hrun item' Hin; [destruct Hin|].
  simpl in Hrun.
  destruct (converge_one zeros (snd item)) as [?|e] eqn:E; [discriminate|].
  simpl in Hrun. destruct Hin as [<-|Hin]; [eauto|].
  eapply IH; eauto.
Qed.

(** The normalizer returns exactly on collections of readable histograms,
    and then it returns their closed forms. *)
Lemma converge_inr_iff d res :
  converge_to_zero_dvh d = inr res <->
  (forall roi dvh, In (roi, dvh) d -> readable dvh)
  /\ res = dict_collect extended d [].
Proof.
  split.
  - intros Hrun.
    assert (Hall : forall roi dvh, In (roi, dvh) d -> readable dvh).
    { intros roi dvh Hin.
      destruct (loop_inr_items _ _ _ Hrun _ Hin) as [e He].
      eapply converge_one_inr; eauto. }
    split; [exact Hall|].
    rewrite converge_unfold, (loop_success (np_zeros 3) extended) in Hrun.
    + now injection Hrun.
    + intros [roi dvh] Hin. apply converge_one_readable. eauto.
  - intros [Hall ->]. rewrite converge_unfold. apply loop_success.
    intros [roi dvh] Hin. apply converge_one_readable. eauto.
Qed.

Lemma extended_shape dvh :
  exists n,
    (n = 0 \/ n = 3)
    /\ firstn (length (bincenters dvh)) (entry_bincenters (extended dvh))
       = bincenters dvh
    /\ firstn (length (counts dvh)) (entry_counts (extended dvh)) = counts dvh
    /\ length (entry_bincenters (extended dvh)) = length (bincenters dvh) + n
    /\ skipn (length (counts dvh)) (entry_counts (extended dvh))
       = repeat 0%Q n.
Proof.
  unfold extended. destruct (negb _); simpl.
  - exists 3. rewrite !firstn_app, !Nat.sub_diag, !firstn_all, !app_nil_r.
    rewrite skipn_app, Nat.sub_diag, skipn_all, length_app. simpl. auto.
  - exists 0. rewrite !firstn_all, skipn_all, Nat.add_0_r. simpl. auto.
Qed.
End NormalizerMore.

(** X6.  The normalizer returns exactly when every histogram has a last
    count and, unless that count is zero, a last bin center; in every other
    case it raises, and what it raises is [IndexError]. *)
Theorem converge_returns_iff {H : Type} `{Histogram H} (d : pydict H) :
  ((exists res, converge_to_zero_dvh d = inr res)
   <-> forall roi dvh, In (roi, dvh) d -> readable dvh)
  /\ forall e, converge_to_zero_dvh d = inl e -> e = IndexError.
Proof.
  split; [split|].
  - intros [res Hrun]. now apply converge_inr_iff in Hrun.
  - intros Hall. exists (dict_collect extended d []).
    now apply converge_inr_iff.
  - intros e Hrun. rewrite converge_unfold in Hrun.
    eapply loop_exn; eauto.
Qed.

(** A histogram without bin centers goes through when its last count is
    zero, and makes the normalizer raise when it is not. *)
Lemma converge_returns_iff_witness :
  (exists res, converge_to_zero_dvh [(1%Z, histogram [] [4; 0]%Q)] = inr res)
  /\ converge_to_zero_dvh [(1%Z, histogram [] [4; 1]%Q)] = inl IndexError.
Proof.
  split.
  - apply (proj2 (proj1 (converge_returns_iff [(1%Z, histogram [] [4; 0]%Q)]))).
    intros roi dvh [E|[]]. injection E as <- <-.
    split; [discriminate|]. right. exists 0%Q. split; reflexivity.
  - destruct (converge_to_zero_dvh [(1%Z, histogram [] [4; 1]%Q)])
      as [e|res] eqn:E.
    + f_equal.
      exact (proj2 (converge_returns_iff [(1%Z, histogram [] [4; 1]%Q)]) e E).
    + discriminate E.
Defined.

(** X7.  When the normalizer returns, the result has the keys of the
    collection in the same order, and the entry of every ROI keeps the bin
    centers and the counts of its histogram as they are, followed by the
    same number of new elements, none or three, the new counts being
    zeros: nothing is dropped, reordered or rescaled. *)
Theorem converge_keeps_shape {H : Type} `{Histogram H} (d : pydict H)
  (res : pydict dvh_entry) :
  dict_wf d ->
  converge_to_zero_dvh d = inr res ->
  dict_keys res = dict_keys d
  /\ forall roi dvh,
       dict_get roi d = Some dvh ->
       exists e n,
         dict_get roi res = Some e
         /\ (n = 0 \/ n = 3)
         /\ firstn (length (bincenters dvh)) (entry_bincenters e)
            = bincenters dvh
         /\ firstn (length (counts dvh)) (entry_counts e) = counts dvh
         /\ length (entry_bincenters e) = length (bincenters dvh) + n
         /\ skipn (length (counts dvh)) (entry_counts e) = repeat 0%Q n.
Proof.
  intros Hwf Hrun. apply converge_inr_iff in Hrun. destruct Hrun as [_ ->].
  rewrite dict_collect_map by assumption. split.
  - unfold dict_keys. rewrite map_map. reflexivity.
  - intros roi dvh Hget.
    destruct (extended_shape dvh) as (n & Hn).
    exists (extended dvh), n. split; [|exact Hn].
    now rewrite dict_get_map, Hget.
Qed.

Lemma scenario_dvhs_wf : dict_wf scenario_dvhs.
Proof. repeat constructor; simpl; intuition discriminate. Qed.

Lemma converge_keeps_shape_witness :
  exists res,
    converge_to_zero_dvh scenario_dvhs = inr res
    /\ dict_keys res = [1; 2]%Z.
Proof.
  destruct (converge_to_zero_dvh scenario_dvhs) as [e|res] eqn:E;
    [discriminate E|].
  exists res. split; [reflexivity|].
  exact (proj1 (converge_keeps_shape scenario_dvhs_wf E)).
Defined.

Section NormalizerOrder.
Context {H : Type} `{HH : Histogram H}.

(** Permuting the collection permutes the result. *)
Lemma converge_perm (d d' : pydict H) :
  dict_wf d -> Permutation d d' ->
  same_entries (converge_to_zero_dvh d) (converge_to_zero_dvh d').
Proof.
  intros Hwf Hperm.
  assert (Hwf' : dict_wf d').
  { unfold dict_wf, dict_keys.
    eapply Permutation_NoDup; [apply Permutation_map; exact Hperm | exact Hwf]. }
  unfold same_entries.
  destruct (converge_to_zero_dvh d) as [e|res] eqn:E;
    destruct (converge_to_zero_dvh d') as [e'|res'] eqn:E'.
  - rewrite converge_unfold in E, E'.
    apply loop_exn in E. apply loop_exn in E'. congruence.
  - apply converge_inr_iff in E'. destruct E' as [Hall _].
    assert (E2 : converge_to_zero_dvh d = inr (dict_collect extended d [])).
    { apply converge_inr_iff. split; [|reflexivity].
      intros roi dvh Hin. apply (Hall roi).
      eapply Permutation_in; eauto. }
    congruence.
  - apply converge_inr_iff in E. destruct E as [Hall _].
    assert (E2 : converge_to_zero_dvh d' = inr (dict_collect extended d' [])).
    { apply converge_inr_iff. split; [|reflexivity].
      intros roi dvh Hin. apply (Hall roi).
      eapply Permutation_in; [symmetry|]; eauto. }
    congruence.
  - apply converge_inr_iff in E. destruct E as [_ ->].
    apply converge_inr_iff in E'. destruct E' as [_ ->].
    rewrite !dict_collect_map by assumption.
    now apply Permutation_map.
Qed.
End NormalizerOrder.

(** X8.  The normalizer does not depend on the order of the collection:
    on a permuted collection it returns the same entries under the same
    ROIs, in the permuted order, or raises the same exception. *)
Theorem converge_order_independent {H : Type} `{Histogram H}
  (d d' : pydict H) :
  dict_wf d -> Permutation d d' ->
  same_entries (converge_to_zero_dvh d) (converge_to_zero_dvh d')
  /\ forall res res',
       converge_to_zero_dvh d = inr res ->
       converge_to_zero_dvh d' = inr res' ->
       forall roi, dict_get roi res = dict_get roi res'.
Proof.
  intros Hwf Hperm. split; [now apply converge_perm|].
  intros res res' E E' roi.
  assert (Hwf' : dict_wf d').
  { unfold dict_wf, dict_keys.
    eapply Permutation_NoDup; [apply Permutation_map; exact Hperm | exact Hwf]. }
  apply converge_inr_iff in E. destruct E as [_ ->].
  apply converge_inr_iff in E'. destruct E' as [_ ->].
  rewrite !dict_collect_map, !dict_get_map by assumption. f_equal.
  destruct (dict_get roi d) as [dvh|] eqn:Hget.
  - apply dict_get_In in Hget. symmetry. apply dict_In_get; auto.
    eapply Permutation_in; eauto.
  - destruct (dict_get roi d') as [dvh'|] eqn:Hget'; [|reflexivity].
    apply dict_get_In in Hget'.
    rewrite (dict_In_get roi dvh' Hwf) in Hget; [discriminate|].
    eapply Permutation_in; [symmetry|]; eauto.
Qed.

Lemma converge_order_independent_witness :
  same_entries (converge_to_zero_dvh scenario_dvhs)
    (converge_to_zero_dvh (rev scenario_dvhs)).
Proof.
  apply (proj1 (converge_order_independent scenario_dvhs_wf
                  (Permutation_rev scenario_dvhs))).
Defined.

(** ** The normalizer applied twice *)

Section StoreSecondCall.
Import Store.
Local Open Scope store_scope.

(** Called on a dictionary whose first entry is a dictionary with the keys
    ['bincenters'] and ['counts'], the function raises at [dvh.counts]. *)
Lemma converge_on_entries_raises h d k l items b c :
  nth_error h d = Some (IntDict ((k, l) :: items)) ->
  nth_error h l = Some (StrDict b c) ->
  fst (Store.converge_to_zero_dvh d h) = inl AttributeError.
Proof.
  intros Hd Hl.
  assert (Hdl : d < length h) by (apply nth_error_Some; congruence).
  assert (Hll : l < length h) by (apply nth_error_Some; congruence).
  change (wp (Store.converge_to_zero_dvh d)
            (fun r _ => r = inl AttributeError) h).
  unfold Store.converge_to_zero_dvh, new_int_dict, np_zeros_new.
  wp_next wp_alloc. apply wp_bind, wp_alloc. cbn beta iota.
  wp_next wp_dict_iter.
  cbn [dict_keys map fst mfor_each].
  apply wp_bind, wp_bind. unfold converge_body, new_str_dict.
  wp_next wp_alloc.
  wp_next wp_dict_setitem.
  wp_next wp_dict_getitem; [cbn [dict_get]; now rewrite Z.eqb_refl|].
  apply wp_bind. unfold getattr_counts. wp_next wp_read.
  reflexivity.
Qed.

(** Called on an empty dictionary, the function returns a new one. *)
Lemma converge_on_empty_returns h d :
  nth_error h d = Some (IntDict []) ->
  fst (Store.converge_to_zero_dvh d h) = inr (length h).
Proof.
  intros Hd.
  assert (Hdl : d < length h) by (apply nth_error_Some; congruence).
  change (wp (Store.converge_to_zero_dvh d)
            (fun r _ => r = inr (length h)) h).
  unfold Store.converge_to_zero_dvh, new_int_dict, np_zeros_new.
  wp_next wp_alloc. apply wp_bind, wp_alloc. cbn beta iota.
  wp_next wp_dict_iter.
  cbn [dict_keys map mfor_each]. apply wp_bind, wp_ret, wp_ret. reflexivity.
Qed.

(** A dictionary that reads back as a collection of entries holds
    dictionaries with the keys ['bincenters'] and ['counts']. *)
Lemma dict_of_entries_first h d k e res :
  dict_of entry_of_str_dict h d = Some ((k, e) :: res) ->
  exists l items b c,
    nth_error h d = Some (IntDict ((k, l) :: items))
    /\ nth_error h l = Some (StrDict b c).
Proof.
  unfold dict_of.
  destruct (nth_error h d) as [[| |items|]|] eqn:Ed; try discriminate.
  destruct items as [|[k' l] items]; [discriminate|]. cbn [items_of].
  destruct (entry_of_str_dict h l) as [e'|] eqn:El; [|discriminate].
  destruct (items_of (entry_of_str_dict h) items); [|discriminate].
  intros [= -> _ _]. unfold entry_of_str_dict in El.
  destruct (nth_error h l) as [[| | |b c]|] eqn:Hl; try discriminate.
  exists l, items, b, c. split; [reflexivity | exact Hl].
Qed.
End StoreSecondCall.


Section NormalizerTwice.
Context {H : Type} `{HH : Histogram H}.

(** A histogram whose last count is not zero is extended. *)
Lemma extended_nonzero (dvh : H) c b :
  getitem_last (counts dvh) = inr c -> ~ (c == 0)%Q ->
  getitem_last (bincenters dvh) = inr b ->
  extended dvh
  = {| entry_bincenters := bincenters dvh ++ [b + 0; b + 1; b + 2]%Q;
       entry_counts := counts dvh ++ [0; 0; 0]%Q |}.
Proof.
  intros Hc Hnz Hb. unfold extended.
  apply getitem_last_inr in Hc. destruct Hc as [_ ->].
  apply getitem_last_inr in Hb. destruct Hb as [_ ->].
  destruct (Qeq_bool (last (counts dvh) 0%Q) 0) eqn:E; [|reflexivity].
  apply Qeq_bool_iff in E. contradiction.
Qed.

(** A histogram whose last count is zero is passed through. *)
Lemma extended_zero (dvh : H) :
  ends_in_zero (counts dvh) ->
  extended dvh
  = {| entry_bincenters := bincenters dvh; entry_counts := counts dvh |}.
Proof.
  intros (c & Hc & Hz). unfold extended.
  apply getitem_last_inr in Hc. destruct Hc as [_ ->].
  apply Qeq_bool_iff in Hz. now rewrite Hz.
Qed.

(** What the normalizer returns ends in zero counts, and is returned as it
    is by a second pass. *)
Lemma converge_result_fixed (d : pydict H) res :
  converge_to_zero_dvh d = inr res ->
  (forall roi e, In (roi, e) res -> ends_in_zero (entry_counts e))
  /\ converge_to_zero_dvh res = inr res.
Proof.
  intros Hres. rewrite converge_unfold in Hres.
  apply (loop_inr_inv (fun e => ends_in_zero (entry_counts e))) in Hres.
  - destruct Hres as [Hwf Hz]. split; [exact Hz | now apply converge_fixed].
  - intros dvh e. apply converge_one_ends_in_zero.
  - constructor.
  - intros k e [].
Qed.
End NormalizerTwice.

(** The function called on the mapping it returned. *)
Lemma converge_store_twice (h0 : Store.store) (dict_dvh : Store.loc)
  (d res : pydict dvh_entry) :
  dict_wf d ->
  Store.dict_of Store.entry_of_dvh h0 dict_dvh = Some d ->
  converge_to_zero_dvh d = inr res ->
  fst (Store.converge_to_zero_dvh dict_dvh h0) = inr (length h0)
  /\ fst (Store.converge_to_zero_dvh (length h0)
            (snd (Store.converge_to_zero_dvh dict_dvh h0)))
     = match d with
       | [] => inr (length (snd (Store.converge_to_zero_dvh dict_dvh h0)))
       | _ :: _ => inl AttributeError
       end.
Proof.
  intros Hwf Hd Hres.
  pose proof (converge_store_refines h0 dict_dvh Hwf Hd) as Href.
  cbv zeta in Href. rewrite Hres in Href. destruct Href as [Hrun Hback].
  split; [exact Hrun|].
  assert (Hkeys : dict_keys res = dict_keys d).
  { apply converge_inr_iff in Hres. destruct Hres as [_ ->].
    rewrite dict_collect_map by assumption.
    unfold dict_keys. now rewrite map_map. }
  destruct d as [|[k v] d'].
  - destruct res; [|discriminate].
    apply converge_on_empty_returns.
    unfold Store.dict_of in Hback.
    destruct (nth_error _ (length h0)) as [[| |items|]|]; try discriminate.
    destruct items as [|[k l] items]; [reflexivity|].
    cbn [Store.items_of] in Hback.
    destruct (Store.entry_of_str_dict _ l); [|discriminate].
    destruct (Store.items_of _ items); discriminate.
  - destruct res as [|[k' e] res']; [discriminate|].
    destruct (dict_of_entries_first _ _ Hback) as (l & items & b & c & Hd' & Hl).
    eapply converge_on_entries_raises; eauto.
Qed.

(** C4 as the code has it.  On the histogram data the transform is
    idempotent: every entry the normalizer returns ends in a zero count,
    and when the entries are read through the same two accessors
    ([bincenters], [counts]) a second pass returns the dictionary the first
    pass returned (an exception of the first pass is all there is).  On
    histograms with at least one count and one bin center the first pass
    does return; a histogram that already ends in a zero count is passed
    through as it is, and one that does not is extended by three bin
    centers and three zero counts.  The function itself, called on the
    mapping it returned for a collection that is not empty, raises
    [AttributeError] at [dvh.counts], the entries being dictionaries; on
    the mapping returned for the empty collection it returns a new
    mapping. *)
Theorem converge_idempotent {H : Type} `{Histogram H} (d : pydict H) :
  (res <- converge_to_zero_dvh d ;; converge_to_zero_dvh res)%result
  = converge_to_zero_dvh d
  /\ (forall res,
        converge_to_zero_dvh d = inr res ->
        (forall roi e, In (roi, e) res -> ends_in_zero (entry_counts e))
        /\ converge_to_zero_dvh res = inr res)
  /\ ((forall roi dvh, In (roi, dvh) d ->
         counts dvh <> [] /\ bincenters dvh <> []) ->
      exists res,
        converge_to_zero_dvh d = inr res
        /\ converge_to_zero_dvh res = inr res
        /\ (forall roi e, In (roi, e) res -> ends_in_zero (entry_counts e))
        /\ (forall roi dvh,
              dict_wf d -> dict_get roi d = Some dvh ->
              ends_in_zero (counts dvh) ->
              dict_get roi res
              = Some {| entry_bincenters := bincenters dvh;
                        entry_counts := counts dvh |})
        /\ (forall roi dvh c b,
              dict_wf d -> dict_get roi d = Some dvh ->
              getitem_last (counts dvh) = inr c -> ~ (c == 0)%Q ->
              getitem_last (bincenters dvh) = inr b ->
              dict_get roi res
              = Some {| entry_bincenters :=
                          bincenters dvh ++ [b + 0; b + 1; b + 2]%Q;
                        entry_counts := counts dvh ++ [0; 0; 0]%Q |}))
  /\ (forall (h0 : Store.store) (dict_dvh : Store.loc)
        (d0 res0 : pydict dvh_entry),
        dict_wf d0 ->
        Store.dict_of Store.entry_of_dvh h0 dict_dvh = Some d0 ->
        converge_to_zero_dvh d0 = inr res0 ->
        fst (Store.converge_to_zero_dvh dict_dvh h0) = inr (length h0)
        /\ fst (Store.converge_to_zero_dvh (length h0)
                  (snd (Store.converge_to_zero_dvh dict_dvh h0)))
           = match d0 with
             | [] =>
                 inr (length (snd (Store.converge_to_zero_dvh dict_dvh h0)))
             | _ :: _ => inl AttributeError
             end).
Proof.
  split; [|split; [|split]].
  - destruct (converge_to_zero_dvh d) as [e|res] eqn:E; simpl; auto.
    now apply converge_result_fixed in E.
  - intros res. apply converge_result_fixed.
  - intros Hd.
    assert (Hres : converge_to_zero_dvh d = inr (dict_collect extended d [])).
    { rewrite converge_unfold. apply loop_success.
      intros [roi dvh] Hin. simpl. destruct (Hd _ _ Hin).
      now apply converge_one_extended. }
    exists (dict_collect extended d []).
    destruct (converge_result_fixed _ Hres) as [Hz Hfix].
    split; [exact Hres | split; [exact Hfix | split; [exact Hz | split]]].
    + intros roi dvh Hwf Hget Hzero.
      rewrite dict_collect_map, dict_get_map, Hget by assumption. simpl.
      f_equal. now apply extended_zero.
    + intros roi dvh c b Hwf Hget Hc Hnz Hb.
      rewrite dict_collect_map, dict_get_map, Hget by assumption. simpl.
      f_equal. now apply (extended_nonzero dvh Hc Hnz Hb).
  - intros h0 dict_dvh d0 res0. apply converge_store_twice.
Qed.

(** The first scenario of the specification: ROI 1 is passed through,
    ROI 2 is extended, and a second pass changes neither. *)
Lemma converge_idempotent_witness :
  exists res,
    converge_to_zero_dvh scenario_dvhs = inr res
    /\ converge_to_zero_dvh res = inr res
    /\ dict_get 1%Z res
       = Some {| entry_bincenters := [0; 10; 20]%Q;
                 entry_counts := [5; 3; 0]%Q |}
    /\ dict_get 2%Z res
       = Some {| entry_bincenters := [0; 10; 10; 11; 12]%Q;
                 entry_counts := [2; 1; 0; 0; 0]%Q |}.
Proof.
  destruct (proj1 (proj2 (proj2 (converge_idempotent scenario_dvhs))))
    as (res & Hres & Hfix & _ & Hpass & Hext).
  - intros roi dvh [E|[E|[]]]; injection E as <- <-; split; discriminate.
  - exists res. split; [exact Hres | split; [exact Hfix | split]].
    + apply (Hpass 1%Z (histogram [0; 10; 20]%Q [5; 3; 0]%Q)).
      * exact scenario_dvhs_wf.
      * reflexivity.
      * exists 0%Q. split; reflexivity.
    + apply (Hext 2%Z (histogram [0; 10]%Q [2; 1]%Q) 1%Q 10%Q).
      * exact scenario_dvhs_wf.
      * reflexivity.
      * reflexivity.
      * discriminate.
      * reflexivity.
Defined.

(** C4 as the specification words it fails: the returned mapping holds
    dictionaries, not objects with the attributes [counts] and
    [bincenters], so that the function called on its own result raises. *)
Lemma converge_twice_raises :
  let run := Store.converge_to_zero_dvh 6 scenario_store in
  fst run = inr 7
  /\ fst (Store.converge_to_zero_dvh 7 (snd run)) = inl AttributeError.
Proof. vm_compute. split; reflexivity. Qed.

(** ** [dvh2csv] *)

Section ExporterMore.
Implicit Types (dict_dvh d : pydict DVH) (dvh : DVH).

Lemma sampled_spec d :
  sampled d = true <->
  d = [] \/ exists roi dvh, In (roi, dvh) d /\ relative_volume_counts dvh <> [].
Proof.
  unfold sampled. destruct d as [|item d]; [tauto|].
  rewrite existsb_exists. split.
  - intros ([roi dvh] & Hin & Hne). right. exists roi, dvh. split; auto.
    simpl in Hne. destruct (relative_volume_counts dvh); discriminate.
  - intros [Hnil|(roi & dvh & Hin & Hne)]; [discriminate|].
    exists (roi, dvh). split; auto. simpl.
    destruct (relative_volume_counts dvh); congruence.
Qed.

Lemma sampled_false d :
  sampled d = false ->
  d <> [] /\ forall roi dvh, In (roi, dvh) d -> relative_volume_counts dvh = [].
Proof.
  intros Hs. split.
  - intros ->. discriminate.
  - intros roi dvh Hin.
    destruct (relative_volume_counts dvh) as [|x l] eqn:E; [reflexivity|].
    assert (sampled d = true); [|congruence].
    apply sampled_spec. right. exists roi, dvh. split; auto. congruence.
Qed.

Lemma no_samples d :
  (forall roi dvh, In (roi, dvh) d -> relative_volume_counts dvh = []) ->
  list_max (map samples d) = 0.
Proof.
  intros Hall. apply Nat.le_0_r. apply list_max_le. apply Forall_forall.
  intros n Hn. apply in_map_iff in Hn. destruct Hn as ([roi dvh] & <- & Hin).
  unfold samples. cbn [snd]. now rewrite (Hall _ _ Hin).
Qed.

(** [dvh2csv] in closed form. *)
Lemma dvh2csv_closed writable d path csv_name patient_id :
  dvh2csv writable d path csv_name patient_id
  = if sampled d
    then to_csv writable (export_table d patient_id)
           (path ++ csv_name ++ ".csv")%string
    else inl ValueError.
Proof.
  destruct (sampled d) eqn:Hs.
  - apply sampled_spec in Hs.
    now rewrite (dvh2csv_table writable path csv_name patient_id Hs).
  - apply sampled_false in Hs. destruct Hs as [Hne Hall].
    rewrite dvh2csv_eq. unfold pd_DataFrame.
    pose proof (rows_width patient_id Hne) as Hwidth.
    destruct (map (fun item => sampled_row patient_id (snd item)) d)
      as [|row rows] eqn:Erows.
    + destruct d; [congruence | discriminate].
    + rewrite Hwidth, (no_samples _ Hall), spec_header_length.
      rewrite spec_global_max_samples, (no_samples _ Hall). reflexivity.
Qed.

Lemma list_max_perm (l l' : list nat) :
  Permutation l l' -> list_max l = list_max l'.
Proof.
  induction 1 as [|x l l' _ IH|x y l|l l' l'' _ IH1 _ IH2].
  - reflexivity.
  - rewrite !list_max_cons. now rewrite IH.
  - rewrite !list_max_cons. lia.
  - congruence.
Qed.

Lemma existsb_perm {A} (f : A -> bool) (l l' : list A) :
  Permutation l l' -> existsb f l = existsb f l'.
Proof.
  induction 1 as [|x l l' _ IH|x y l|l l' l'' _ IH1 _ IH2]; simpl.
  - reflexivity.
  - now rewrite IH.
  - destruct (f x), (f y); reflexivity.
  - congruence.
Qed.

Lemma sampled_perm d d' : Permutation d d' -> sampled d = sampled d'.
Proof.
  intros Hperm. unfold sampled.
  destruct d as [|item d]; destruct d' as [|item' d'].
  - reflexivity.
  - now apply Permutation_nil_cons in Hperm.
  - symmetry in Hperm. now apply Permutation_nil_cons in Hperm.
  - now apply existsb_perm.
Qed.

Lemma spec_global_max_perm d d' :
  Permutation d d' -> spec_global_max d = spec_global_max d'.
Proof.
  intros Hperm. rewrite !spec_global_max_samples. do 2 f_equal.
  apply list_max_perm. now apply Permutation_map.
Qed.

(** Permuting the collection permutes the rows and nothing else. *)
Lemma dvh2csv_perm writable d d' path csv_name patient_id :
  Permutation d d' ->
  same_export (dvh2csv writable d path csv_name patient_id)
    (dvh2csv writable d' path csv_name patient_id).
Proof.
  intros Hperm. rewrite !dvh2csv_closed, <- (sampled_perm Hperm).
  unfold same_export, export_table, to_csv.
  destruct (sampled d); [|reflexivity].
  destruct (writable _); [|reflexivity].
  cbn [ret df_columns df_rows]. rewrite <- (spec_global_max_perm Hperm).
  split; [reflexivity | split; [reflexivity|]].
  now apply Permutation_map.
Qed.

(** The longest series decides the number of samples. *)
Lemma samples_max d :
  list_max (map samples d)
  = (list_max (map (fun item => length (relative_volume_counts (snd item))) d)
     + 9) / 10.
Proof.
  induction d as [|[roi dvh] d IH]; [reflexivity|].
  cbn [map]. rewrite !list_max_cons, IH, samples_length. cbn [snd].
  set (a := length (relative_volume_counts dvh)).
  set (b := list_max _).
  destruct (Nat.max_spec a b) as [[Hlt ->]|[Hle ->]].
  - apply Nat.max_r. apply Nat.Div0.div_le_mono. lia.
  - apply Nat.max_l. apply Nat.Div0.div_le_mono. lia.
Qed.
End ExporterMore.

Section ExporterCells.
Implicit Types (dict_dvh d : pydict DVH) (dvh : DVH).

Lemma nth_error_multiples n k :
  k < n -> nth_error (map (fun k => k * 10) (seq 0 n)) k = Some (10 * k).
Proof.
  intros Hk. rewrite nth_error_map, nth_error_seq.
  destruct (Nat.ltb_spec k n); [|lia]. simpl. f_equal. lia.
Qed.

(** The dose column at position [3 + k] is the one of index [10 * k]. *)
Lemma spec_header_nth m k :
  3 + k < length (spec_header m) ->
  nth_error (spec_header m) (3 + k) = Some (str (10 * k) ++ "cGy")%string.
Proof.
  rewrite spec_header_length. unfold spec_header. intros Hk.
  rewrite <- py_range_multiples, py_range_0_10.
  change (nth_error (?a ++ ?l) (3 + k)) with (nth_error l k).
  rewrite nth_error_map, nth_error_multiples; [reflexivity|].
  divmod10 m. divmod10 (m + 1 + 9). lia.
Qed.

(** The cell at position [3 + k] of a row: the rounded sample of index
    [10 * k] when the series has one, [0.0] otherwise. *)
Lemma exported_row_nth width patient_id dvh k :
  3 + k < width ->
  nth_error (exported_row width patient_id dvh) (3 + k)
  = Some (CNum match nth_error (relative_volume_counts dvh) (10 * k) with
               | Some x => fillna 0 (np_round 2 x)
               | None => 0
               end).
Proof.
  intros Hk. unfold exported_row.
  change (nth_error ([?a; ?b; ?c] ++ ?l) (3 + k)) with (nth_error l k).
  pose proof (samples_length dvh 0%Z) as Hs. unfold samples in Hs. cbn [snd] in Hs.
  unfold spec_sampled_indices in *.
  rewrite <- py_range_multiples, py_range_0_10 in *.
  set (dose := relative_volume_counts dvh) in *.
  destruct (Nat.lt_ge_cases (10 * k) (length dose)) as [Hlt|Hge].
  - rewrite nth_error_app1
      by (rewrite !length_map, length_seq; divmod10 (length dose + 9); lia).
    rewrite nth_error_map, nth_error_multiples
      by (divmod10 (length dose + 9); lia).
    cbn [option_map]. now rewrite (nth_error_nth' dose 0%float Hlt).
  - assert (Hnone : nth_error dose (10 * k) = None) by now apply nth_error_None.
    rewrite Hnone.
    rewrite nth_error_app2
      by (rewrite !length_map, length_seq; divmod10 (length dose + 9); lia).
    apply nth_error_repeat.
    rewrite !length_map, length_seq in *. divmod10 (length dose + 9). lia.
Qed.

Lemma header_columns d :
  sampled d = true ->
  length (spec_header (spec_global_max d))
  = 3 + Nat.max 1 ((longest_series d + 9) / 10).
Proof.
  intros Hs. apply sampled_spec in Hs. unfold longest_series.
  rewrite <- samples_max. destruct Hs as [->|Hsome]; [reflexivity|].
  rewrite (header_width d Hsome). apply some_samples in Hsome. lia.
Qed.
End ExporterCells.


(** X10.  A written table goes to [path + csv_name + '.csv'], has one row
    per ROI, and three columns followed by one dose column for every ten
    entries, rounded up, of the longest relative-volume series (one dose
    column when there is no ROI); every row is that wide. *)
Theorem dvh2csv_dimensions (writable : string -> bool) (dict_dvh : pydict DVH)
  (path csv_name patient_id : string) (file : string * DataFrame) :
  dvh2csv writable dict_dvh path csv_name patient_id = inr file ->
  fst file = (path ++ csv_name ++ ".csv")%string
  /\ length (df_rows (snd file)) = length dict_dvh
  /\ length (df_columns (snd file))
     = 3 + Nat.max 1 ((longest_series dict_dvh + 9) / 10)
  /\ Forall (fun row =>
               length row = 3 + Nat.max 1 ((longest_series dict_dvh + 9) / 10))
       (df_rows (snd file)).
Proof.
  rewrite dvh2csv_closed. destruct (sampled dict_dvh) eqn:Hs; [|discriminate].
  unfold to_csv. destruct (writable _); [|discriminate].
  intros [= <-]. cbn [fst snd export_table df_rows df_columns].
  rewrite length_map, (header_columns _ Hs).
  repeat split. apply Forall_forall. intros row Hin.
  apply in_map_iff in Hin. destruct Hin as ([roi dvh] & <- & Hin).
  cbn [snd]. rewrite <- (header_columns _ Hs).
  apply (exported_row_length patient_id roi).
  now apply samples_le_header.
Qed.

Lemma dvh2csv_dimensions_witness :
  exists file : string * DataFrame,
    fst file = "/tmp/dvh.csv"%string
    /\ length (df_rows (snd file)) = 2
    /\ length (df_columns (snd file)) = 7.
Proof.
  eexists.
  destruct (@dvh2csv_dimensions tmp_writable export_scenario
              "/tmp/" "dvh" "P1" _ eq_refl)
    as (Hpath & Hrows & Hcols & _).
  split; [exact Hpath | split; [exact Hrows | exact Hcols]].
Defined.

(** X11.  The table does not depend on the order of the collection but for
    the order of its rows: a permuted collection gives the same path, the
    same header and the same rows in the permuted order, or the same
    exception. *)
Theorem dvh2csv_order_independent (writable : string -> bool)
  (dict_dvh dict_dvh' : pydict DVH) (path csv_name patient_id : string) :
  Permutation dict_dvh dict_dvh' ->
  same_export (dvh2csv writable dict_dvh path csv_name patient_id)
    (dvh2csv writable dict_dvh' path csv_name patient_id)
  /\ forall file file',
       dvh2csv writable dict_dvh path csv_name patient_id = inr file ->
       dvh2csv writable dict_dvh' path csv_name patient_id = inr file' ->
       forall row, In row (df_rows (snd file)) <-> In row (df_rows (snd file')).
Proof.
  intros Hperm.
  pose proof (dvh2csv_perm writable path csv_name patient_id Hperm) as Hsame.
  split; [exact Hsame|].
  intros file file' E E'. rewrite E, E' in Hsame.
  destruct file as [p t], file' as [p' t']. destruct Hsame as (_ & _ & Hrows).
  intros row. cbn [snd]. split; apply Permutation_in; [|symmetry]; exact Hrows.
Qed.

Lemma dvh2csv_order_independent_witness :
  same_export (dvh2csv tmp_writable export_scenario "/tmp/" "dvh" "P1")
    (dvh2csv tmp_writable (rev export_scenario) "/tmp/" "dvh" "P1").
Proof.
  apply (proj1 (dvh2csv_order_independent tmp_writable "/tmp/" "dvh" "P1"
                  (Permutation_rev export_scenario))).
Defined.

(** X12.  In a written table the column at position [3 + k] is named
    ["<10k>cGy"], and the row of the n-th ROI holds there what numpy's
    rounding to two decimals makes of the relative volume of index
    [10 * k], with [0.0] for a missing value, or [0.0] when the series of
    that ROI is too short. *)
Theorem dvh2csv_dose_columns (writable : string -> bool)
  (dict_dvh : pydict DVH) (path csv_name patient_id : string)
  (file : string * DataFrame) (n k : nat) (roi : Z) (dvh : DVH) :
  dvh2csv writable dict_dvh path csv_name patient_id = inr file ->
  nth_error dict_dvh n = Some (roi, dvh) ->
  3 + k < length (df_columns (snd file)) ->
  nth_error (df_columns (snd file)) (3 + k)
  = Some (str (10 * k) ++ "cGy")%string
  /\ exists row,
       nth_error (df_rows (snd file)) n = Some row
       /\ nth_error row (3 + k)
          = Some (CNum match nth_error (relative_volume_counts dvh) (10 * k) with
                       | Some x => fillna 0 (np_round 2 x)
                       | None => 0
                       end).
Proof.
  rewrite dvh2csv_closed. destruct (sampled dict_dvh); [|discriminate].
  unfold to_csv. destruct (writable _); [|discriminate].
  intros [= <-] Hn. cbn [snd export_table df_rows df_columns]. intros Hk.
  split; [now apply spec_header_nth|].
  eexists. split.
  - rewrite nth_error_map, Hn. reflexivity.
  - cbn [snd]. now apply exported_row_nth.
Qed.

(** In the scenario the column [10cGy] of the second ROI holds [2.68] for
    the sample [2.675], and the column [30cGy] holds [0.0] for the sample
    [nan]. *)
Lemma dvh2csv_dose_columns_witness :
  exists file : string * DataFrame,
    dvh2csv tmp_writable export_scenario "/tmp/" "dvh" "P1" = inr file
    /\ nth_error (df_columns (snd file)) 4 = Some "10cGy"%string
    /\ exists row,
         nth_error (df_rows (snd file)) 1 = Some row
         /\ nth_error row 4 = Some (CNum 2.68)
         /\ nth_error row 6 = Some (CNum 0).
Proof.
  eexists.
  assert (E : dvh2csv tmp_writable export_scenario "/tmp/" "dvh" "P1" = inr _)
    by (vm_compute; reflexivity).
  assert (Hn : nth_error export_scenario 1 = Some _) by reflexivity.
  destruct (@dvh2csv_dose_columns tmp_writable export_scenario
              "/tmp/" "dvh" "P1" _ 1 1 _ _ E Hn)
    as (Hcol & row & Hrow & Hcell); [vm_compute; repeat constructor|].
  destruct (@dvh2csv_dose_columns tmp_writable export_scenario
              "/tmp/" "dvh" "P1" _ 1 3 _ _ E Hn)
    as (_ & row' & Hrow' & Hcell'); [vm_compute; repeat constructor|].
  split; [exact E | split; [exact Hcol|]].
  exists row. split; [exact Hrow | split; [exact Hcell|]].
  rewrite Hrow in Hrow'. injection Hrow' as <-. exact Hcell'.
Defined.

(** ** The functions in sequence *)

Section Pipeline.
Variable get_dvh : Z -> option Q -> DVH.
Variable V : Type.

(** Two returned mappings for the same ROIs are permutations of one
    another, and no ROI is twice in either. *)
Lemma calc_dvhs_perm (dict_roi : pydict V) dose_limit schedule schedule'
  (d d' : pydict DVH) :
  dict_wf dict_roi ->
  Engine.calc_dvhs get_dvh dict_roi dose_limit schedule = Some d ->
  Engine.calc_dvhs get_dvh dict_roi dose_limit schedule' = Some d' ->
  dict_wf d /\ Permutation d d'.
Proof.
  intros Hwf E E'.
  destruct (calc_dvhs_result _ _ _ Hwf E) as [Hk Hd].
  destruct (calc_dvhs_result _ _ _ Hwf E') as [Hk' Hd'].
  split.
  - unfold dict_wf. eapply Permutation_NoDup; [symmetry; exact Hk | exact Hwf].
  - rewrite Hd, Hd'. apply Permutation_map. rewrite Hk, Hk'. reflexivity.
Qed.
End Pipeline.

(** X13.  From a structure set to the normalized histograms and the table:
    whatever the order in which the workers deliver, the ROIs of the
    returned mapping are the ROI numbers of the structure set, the
    normalizer gives the same entries and the exporter the same table up to
    the order of the ROIs, and a normalized result has for every structure
    the entry of the histogram computed for its ROI number without dose
    limit. *)
Theorem pipeline_order_independent (get_dvh : Z -> option Q -> DVH)
  (StructureSetROISequence : list StructureSetROI) (dose_limit : option Q)
  (schedule schedule' : list Engine.action) (dict_dvh dict_dvh' : pydict DVH)
  (writable : string -> bool) (path csv_name patient_id : string) :
  Engine.calc_dvhs get_dvh (get_roi_info StructureSetROISequence)
    dose_limit schedule = Some dict_dvh ->
  Engine.calc_dvhs get_dvh (get_roi_info StructureSetROISequence)
    dose_limit schedule' = Some dict_dvh' ->
  (forall roi,
     In roi (dict_keys dict_dvh) <-> In roi (map ROINumber StructureSetROISequence))
  /\ same_entries (converge_to_zero_dvh dict_dvh) (converge_to_zero_dvh dict_dvh')
  /\ same_export (dvh2csv writable dict_dvh path csv_name patient_id)
       (dvh2csv writable dict_dvh' path csv_name patient_id)
  /\ (forall res sequence,
        converge_to_zero_dvh dict_dvh = inr res ->
        In sequence StructureSetROISequence ->
        dict_get (ROINumber sequence) res
        = Some (extended (get_dvh (ROINumber sequence) None))).
Proof.
  intros E E'.
  pose proof (get_roi_info_wf StructureSetROISequence) as Hwf.
  destruct (calc_dvhs_perm _ _ _ _ Hwf E E') as [Hwfd Hperm].
  destruct (calc_dvhs_result _ _ _ Hwf E) as [Hk Hd].
  assert (Hkeys : forall roi,
             In roi (dict_keys dict_dvh)
             <-> In roi (map ROINumber StructureSetROISequence)).
  { intros roi. rewrite <- get_roi_info_keys_In.
    split; apply Permutation_in; [|symmetry]; exact Hk. }
  split; [exact Hkeys|].
  split; [now apply converge_perm|].
  split; [now apply dvh2csv_perm|].
  intros res sequence Hrun Hin.
  apply converge_inr_iff in Hrun. destruct Hrun as [_ ->].
  rewrite dict_collect_map, dict_get_map by assumption.
  rewrite Hd at 1. rewrite dict_get_graph.
  destruct (in_dec Z.eq_dec (ROINumber sequence) (dict_keys dict_dvh))
    as [_|Hnin]; [reflexivity|].
  exfalso. apply Hnin, Hkeys. now apply in_map.
Qed.

Lemma pipeline_order_independent_witness :
  same_entries
    (converge_to_zero_dvh
       [(1%Z, example_get_dvh 1 None); (2%Z, example_get_dvh 2 None)])
    (converge_to_zero_dvh
       [(2%Z, example_get_dvh 2 None); (1%Z, example_get_dvh 1 None)])
  /\ same_export
       (dvh2csv tmp_writable
          [(1%Z, example_get_dvh 1 None); (2%Z, example_get_dvh 2 None)]
          "/tmp/" "dvh" "P1")
       (dvh2csv tmp_writable
          [(2%Z, example_get_dvh 2 None); (1%Z, example_get_dvh 1 None)]
          "/tmp/" "dvh" "P1").
Proof.
  assert (E : Engine.calc_dvhs example_get_dvh (get_roi_info example_sequence)
                (Some 5%Q) (Engine.eager_schedule 2)
              = Some [(1%Z, example_get_dvh 1 None); (2%Z, example_get_dvh 2 None)])
    by (vm_compute; reflexivity).
  assert (E' : Engine.calc_dvhs example_get_dvh (get_roi_info example_sequence)
                 (Some 5%Q) (Engine.reversed_schedule 2)
               = Some [(2%Z, example_get_dvh 2 None); (1%Z, example_get_dvh 1 None)])
    by (vm_compute; reflexivity).
  destruct (pipeline_order_independent example_get_dvh example_sequence
              (Some 5%Q) (Engine.eager_schedule 2) (Engine.reversed_schedule 2)
              tmp_writable "/tmp/" "dvh" "P1" E E')
    as (_ & Hentries & Hexport & _).
  split; [exact Hentries | exact Hexport].
Defined.

(** ** [get_roi_info] on a sequence in two parts *)

Section DictUpdate.
Variable V : Type.
Implicit Types (d : pydict V) (k : Z) (v : V).

Lemma dict_set_set k v v' d : dict_set k v (dict_set k v' d) = dict_set k v d.
Proof.
  induction d as [|[k0 v0] d IH]; simpl.
  - now rewrite Z.eqb_refl.
  - destruct (Z.eqb k k0) eqn:E; simpl.
    + now rewrite Z.eqb_refl.
    + rewrite E. now f_equal.
Qed.

(** Two assignments to different keys commute when the first key is already
    in the dictionary. *)
Lemma dict_set_comm k k' v v' d :
  k <> k' -> In k (dict_keys d) ->
  dict_set k v (dict_set k' v' d) = dict_set k' v' (dict_set k v d).
Proof.
  intros Hne. induction d as [|[k0 v0] d IH]; simpl; [tauto|].
  intros Hin.
  destruct (Z.eqb_spec k' k0) as [->|Hne']; destruct (Z.eqb_spec k k0) as [->|Hne0];
    simpl; rewrite ?Z.eqb_refl.
  - congruence.
  - apply Z.eqb_neq in Hne0. now rewrite Hne0.
  - apply Z.eqb_neq in Hne'. rewrite Hne'.
    destruct (Z.eqb_spec k0 k0); [reflexivity | congruence].
  - apply Z.eqb_neq in Hne', Hne0. rewrite Hne', Hne0. f_equal. apply IH.
    destruct Hin as [Hin|Hin]; [|exact Hin].
    apply Z.eqb_neq in Hne0. congruence.
Qed.

Lemma dict_update_cons d k v d' :
  dict_update d ((k, v) :: d') = dict_update (dict_set k v d) d'.
Proof. reflexivity. Qed.

Lemma dict_set_update k v d' : forall d,
  In k (dict_keys d) -> ~ In k (dict_keys d') ->
  dict_set k v (dict_update d d') = dict_update (dict_set k v d) d'.
Proof.
  induction d' as [|[k' v'] d' IH]; intros d Hin Hnin; [reflexivity|].
  simpl in Hnin. rewrite !dict_update_cons.
  rewrite IH; [|apply dict_set_In_keys; auto | tauto].
  rewrite dict_set_comm; [reflexivity | intros ->; tauto | exact Hin].
Qed.

(** Assigning in the second dictionary before the update, or in the result
    after it, is the same. *)
Lemma dict_update_set k v d' : forall d,
  dict_wf d' ->
  dict_update d (dict_set k v d') = dict_set k v (dict_update d d').
Proof.
  unfold dict_wf.
  induction d' as [|[k0 v0] d' IH]; intros d Hwf; [reflexivity|].
  simpl in Hwf. inversion Hwf as [|? ? Hnin Hwf']; subst.
  cbn [dict_set]. destruct (Z.eqb_spec k k0) as [->|Hne].
  - rewrite !dict_update_cons.
    rewrite dict_set_update; [|apply dict_set_In_keys; auto | exact Hnin].
    now rewrite dict_set_set.
  - rewrite !dict_update_cons. now apply IH.
Qed.

End DictUpdate.

Lemma find_app_first {A} (f : A -> bool) (l1 l2 : list A) :
  find f (l1 ++ l2)
  = match find f l1 with
    | Some x => Some x
    | None => find f l2
    end.
Proof.
  induction l1 as [|a l1 IH]; simpl; [reflexivity|].
  now destruct (f a).
Qed.

(** X14.  The catalog of a sequence in two parts is the catalog of the
    first part updated with the catalog of the second: a ROI number of the
    second part takes its entry from there, any other keeps the entry of
    the first part. *)
Theorem get_roi_info_app (ds1 ds2 : list StructureSetROI) :
  get_roi_info (ds1 ++ ds2) = dict_update (get_roi_info ds1) (get_roi_info ds2)
  /\ forall roi,
       dict_get roi (get_roi_info (ds1 ++ ds2))
       = match dict_get roi (get_roi_info ds2) with
         | Some info => Some info
         | None => dict_get roi (get_roi_info ds1)
         end.
Proof.
  split.
  - induction ds2 as [|s ds2 IH] using rev_ind.
    + now rewrite app_nil_r.
    + rewrite app_assoc, !get_roi_info_snoc, IH.
      symmetry. apply dict_update_set, get_roi_info_wf.
  - intros roi. rewrite !get_roi_info_get, rev_app_distr, find_app_first.
    now destruct (find _ (rev ds2)).
Qed.
